(** * Corporate-registry extraction pipeline: a shallow embedding

    The Python sources under [src/] are embedded as Rocq functions:
    - Python [str] values are lists of Unicode code points ([pystr]);
    - the regular expressions of the extractors are kept as the pattern
      strings of the source and compiled by [re_compile] to a syntax tree
      that a backtracking matcher with the priorities of Python's [re]
      (leftmost start, greedy repetition, ordered alternation) runs;
    - dictionaries ([Dict[str, str]], [Dict[str, Any]]) are [gmap]s keyed
      by field name;
    - raised exceptions are [Err] results. *)

From Stdlib Require Import ZArith NArith List String Ascii Bool Lia DecimalString.
From Stdlib Require Import Sorted Permutation.
From stdpp Require Import base option list gmap strings.
Import ListNotations.

Local Open Scope string_scope.
Local Open Scope list_scope.
Local Open Scope N_scope.

(* ===================================================================== *)
(** ** Python strings *)
(* ===================================================================== *)

(** A Python [str] is a sequence of code points. *)
Abbreviation pystr := (list N).

(** String literals of the source are written as Rocq strings (UTF-8
    bytes) and decoded to code points. *)
Fixpoint utf8_decode (s : string) (need : nat) (acc : N) : pystr :=
  match s with
  | EmptyString => []
  | String a rest =>
      let b := N_of_ascii a in
      match need with
      | O =>
          if b <? 128 then b :: utf8_decode rest 0 0
          else if b <? 224 then utf8_decode rest 1 (b - 192)
          else if b <? 240 then utf8_decode rest 2 (b - 224)
          else utf8_decode rest 3 (b - 240)
      | S n =>
          let acc' := acc * 64 + (b - 128) in
          match n with
          | O => acc' :: utf8_decode rest 0 0
          | S _ => utf8_decode rest n acc'
          end
      end
  end.

Definition py (s : string) : pystr := utf8_decode s 0 0.
Arguments py : simpl never.

Definition pystr_eqb (a b : pystr) : bool := bool_decide (a = b).

(** [s[i:j]] for non-negative bounds, [s[:j]] and [s[i:]]. *)
Definition slice (s : pystr) (i j : nat) : pystr := firstn (j - i) (skipn i s).
Definition slice_to (s : pystr) (j : nat) : pystr := firstn j s.
Definition slice_from (s : pystr) (i : nat) : pystr := skipn i s.

(** [prefix in s] on strings: [startswith] and the substring test. *)
Fixpoint startswith (s p : pystr) : bool :=
  match p, s with
  | [], _ => true
  | _ :: _, [] => false
  | a :: p', b :: s' => (a =? b) && startswith s' p'
  end.

Fixpoint contains (s p : pystr) : bool :=
  startswith s p ||
  match s with
  | [] => false
  | _ :: s' => contains s' p
  end.

(** [s.find(p)]: index of the first occurrence, [None] for Python's -1. *)
Fixpoint find_from (s p : pystr) (i : nat) : option nat :=
  if startswith s p then Some i
  else match s with
       | [] => None
       | _ :: s' => find_from s' p (S i)
       end.

Definition str_find (s p : pystr) : option nat := find_from s p 0.

(* ===================================================================== *)
(** ** The character database

    Python consults the Unicode database for [\d], [\s], [\w], [\b],
    [int], [str.isdigit], [str.lower], [str.upper], [str.strip],
    [str.split] and [unicodedata.normalize].  The classes of digits,
    white space and word characters below are the full tables of
    Unicode 14.0, as ranges of code points.  The case mappings and the
    normal form are those of the Basic Latin and Latin-1 Supplement
    blocks (U+0000 to U+00FF), the range of Portuguese OCR text: a
    code point outside these blocks is taken as caseless and as its
    own normal form. *)
(* ===================================================================== *)

Definition in_range (lo hi c : N) : bool := (lo <=? c) && (c <=? hi).

(** [c] lies in one of the ranges. *)
Definition in_ranges (ranges : list (N * N)) (c : N) : bool :=
  existsb (fun r => in_range (fst r) (snd r) c) ranges.

(** The decimal digits (category Nd): runs of ten from a zero on; the
    mathematical digits are five such runs in one range. *)
Definition decimal_ranges : list (N * N) :=
  [ (48, 57); (1632, 1641); (1776, 1785); (1984, 1993); (2406, 2415);
    (2534, 2543); (2662, 2671); (2790, 2799); (2918, 2927); (3046, 3055);
    (3174, 3183); (3302, 3311); (3430, 3439); (3558, 3567); (3664, 3673);
    (3792, 3801); (3872, 3881); (4160, 4169); (4240, 4249); (6112, 6121);
    (6160, 6169); (6470, 6479); (6608, 6617); (6784, 6793); (6800, 6809);
    (6992, 7001); (7088, 7097); (7232, 7241); (7248, 7257); (42528, 42537);
    (43216, 43225); (43264, 43273); (43472, 43481); (43504, 43513);
    (43600, 43609); (44016, 44025); (65296, 65305); (66720, 66729);
    (68912, 68921); (69734, 69743); (69872, 69881); (69942, 69951);
    (70096, 70105); (70384, 70393); (70736, 70745); (70864, 70873);
    (71248, 71257); (71360, 71369); (71472, 71481); (71904, 71913);
    (72016, 72025); (72784, 72793); (73040, 73049); (73120, 73129);
    (92768, 92777); (92864, 92873); (93008, 93017); (120782, 120831);
    (123200, 123209); (123632, 123641); (125264, 125273); (130032, 130041) ].

(** The white space of [str.isspace]. *)
Definition space_ranges : list (N * N) :=
  [ (9, 13); (28, 32); (133, 133); (160, 160); (5760, 5760); (8192, 8202);
    (8232, 8233); (8239, 8239); (8287, 8287); (12288, 12288) ].

(** The characters of [str.isdigit]: the decimal digits and the other
    characters with a digit value (superscripts, circled digits). *)
Definition isdigit_ranges : list (N * N) :=
  [ (48, 57); (178, 179); (185, 185); (1632, 1641); (1776, 1785);
    (1984, 1993); (2406, 2415); (2534, 2543); (2662, 2671); (2790, 2799);
    (2918, 2927); (3046, 3055); (3174, 3183); (3302, 3311); (3430, 3439);
    (3558, 3567); (3664, 3673); (3792, 3801); (3872, 3881); (4160, 4169);
    (4240, 4249); (4969, 4977); (6112, 6121); (6160, 6169); (6470, 6479);
    (6608, 6618); (6784, 6793); (6800, 6809); (6992, 7001); (7088, 7097);
    (7232, 7241); (7248, 7257); (8304, 8304); (8308, 8313); (8320, 8329);
    (9312, 9320); (9332, 9340); (9352, 9360); (9450, 9450); (9461, 9469);
    (9471, 9471); (10102, 10110); (10112, 10120); (10122, 10130);
    (42528, 42537); (43216, 43225); (43264, 43273); (43472, 43481);
    (43504, 43513); (43600, 43609); (44016, 44025); (65296, 65305);
    (66720, 66729); (68160, 68163); (68912, 68921); (69216, 69224);
    (69714, 69722); (69734, 69743); (69872, 69881); (69942, 69951);
    (70096, 70105); (70384, 70393); (70736, 70745); (70864, 70873);
    (71248, 71257); (71360, 71369); (71472, 71481); (71904, 71913);
    (72016, 72025); (72784, 72793); (73040, 73049); (73120, 73129);
    (92768, 92777); (92864, 92873); (93008, 93017); (120782, 120831);
    (123200, 123209); (123632, 123641); (125264, 125273); (127232, 127242);
    (130032, 130041) ].

(** The characters of [str.isalnum]. *)
Definition alnum_ranges : list (N * N) :=
  [ (48, 57); (65, 90); (97, 122); (170, 170); (178, 179); (181, 181);
    (185, 186); (188, 190); (192, 214); (216, 246); (248, 705); (710, 721);
    (736, 740); (748, 748); (750, 750); (880, 884); (886, 887); (890, 893);
    (895, 895); (902, 902); (904, 906); (908, 908); (910, 929); (931, 1013);
    (1015, 1153); (1162, 1327); (1329, 1366); (1369, 1369); (1376, 1416);
    (1488, 1514); (1519, 1522); (1568, 1610); (1632, 1641); (1646, 1647);
    (1649, 1747); (1749, 1749); (1765, 1766); (1774, 1788); (1791, 1791);
    (1808, 1808); (1810, 1839); (1869, 1957); (1969, 1969); (1984, 2026);
    (2036, 2037); (2042, 2042); (2048, 2069); (2074, 2074); (2084, 2084);
    (2088, 2088); (2112, 2136); (2144, 2154); (2160, 2183); (2185, 2190);
    (2208, 2249); (2308, 2361); (2365, 2365); (2384, 2384); (2392, 2401);
    (2406, 2415); (2417, 2432); (2437, 2444); (2447, 2448); (2451, 2472);
    (2474, 2480); (2482, 2482); (2486, 2489); (2493, 2493); (2510, 2510);
    (2524, 2525); (2527, 2529); (2534, 2545); (2548, 2553); (2556, 2556);
    (2565, 2570); (2575, 2576); (2579, 2600); (2602, 2608); (2610, 2611);
    (2613, 2614); (2616, 2617); (2649, 2652); (2654, 2654); (2662, 2671);
    (2674, 2676); (2693, 2701); (2703, 2705); (2707, 2728); (2730, 2736);
    (2738, 2739); (2741, 2745); (2749, 2749); (2768, 2768); (2784, 2785);
    (2790, 2799); (2809, 2809); (2821, 2828); (2831, 2832); (2835, 2856);
    (2858, 2864); (2866, 2867); (2869, 2873); (2877, 2877); (2908, 2909);
    (2911, 2913); (2918, 2927); (2929, 2935); (2947, 2947); (2949, 2954);
    (2958, 2960); (2962, 2965); (2969, 2970); (2972, 2972); (2974, 2975);
    (2979, 2980); (2984, 2986); (2990, 3001); (3024, 3024); (3046, 3058);
    (3077, 3084); (3086, 3088); (3090, 3112); (3114, 3129); (3133, 3133);
    (3160, 3162); (3165, 3165); (3168, 3169); (3174, 3183); (3192, 3198);
    (3200, 3200); (3205, 3212); (3214, 3216); (3218, 3240); (3242, 3251);
    (3253, 3257); (3261, 3261); (3293, 3294); (3296, 3297); (3302, 3311);
    (3313, 3314); (3332, 3340); (3342, 3344); (3346, 3386); (3389, 3389);
    (3406, 3406); (3412, 3414); (3416, 3425); (3430, 3448); (3450, 3455);
    (3461, 3478); (3482, 3505); (3507, 3515); (3517, 3517); (3520, 3526);
    (3558, 3567); (3585, 3632); (3634, 3635); (3648, 3654); (3664, 3673);
    (3713, 3714); (3716, 3716); (3718, 3722); (3724, 3747); (3749, 3749);
    (3751, 3760); (3762, 3763); (3773, 3773); (3776, 3780); (3782, 3782);
    (3792, 3801); (3804, 3807); (3840, 3840); (3872, 3891); (3904, 3911);
    (3913, 3948); (3976, 3980); (4096, 4138); (4159, 4169); (4176, 4181);
    (4186, 4189); (4193, 4193); (4197, 4198); (4206, 4208); (4213, 4225);
    (4238, 4238); (4240, 4249); (4256, 4293); (4295, 4295); (4301, 4301);
    (4304, 4346); (4348, 4680); (4682, 4685); (4688, 4694); (4696, 4696);
    (4698, 4701); (4704, 4744); (4746, 4749); (4752, 4784); (4786, 4789);
    (4792, 4798); (4800, 4800); (4802, 4805); (4808, 4822); (4824, 4880);
    (4882, 4885); (4888, 4954); (4969, 4988); (4992, 5007); (5024, 5109);
    (5112, 5117); (5121, 5740); (5743, 5759); (5761, 5786); (5792, 5866);
    (5870, 5880); (5888, 5905); (5919, 5937); (5952, 5969); (5984, 5996);
    (5998, 6000); (6016, 6067); (6103, 6103); (6108, 6108); (6112, 6121);
    (6128, 6137); (6160, 6169); (6176, 6264); (6272, 6276); (6279, 6312);
    (6314, 6314); (6320, 6389); (6400, 6430); (6470, 6509); (6512, 6516);
    (6528, 6571); (6576, 6601); (6608, 6618); (6656, 6678); (6688, 6740);
    (6784, 6793); (6800, 6809); (6823, 6823); (6917, 6963); (6981, 6988);
    (6992, 7001); (7043, 7072); (7086, 7141); (7168, 7203); (7232, 7241);
    (7245, 7293); (7296, 7304); (7312, 7354); (7357, 7359); (7401, 7404);
    (7406, 7411); (7413, 7414); (7418, 7418); (7424, 7615); (7680, 7957);
    (7960, 7965); (7968, 8005); (8008, 8013); (8016, 8023); (8025, 8025);
    (8027, 8027); (8029, 8029); (8031, 8061); (8064, 8116); (8118, 8124);
    (8126, 8126); (8130, 8132); (8134, 8140); (8144, 8147); (8150, 8155);
    (8160, 8172); (8178, 8180); (8182, 8188); (8304, 8305); (8308, 8313);
    (8319, 8329); (8336, 8348); (8450, 8450); (8455, 8455); (8458, 8467);
    (8469, 8469); (8473, 8477); (8484, 8484); (8486, 8486); (8488, 8488);
    (8490, 8493); (8495, 8505); (8508, 8511); (8517, 8521); (8526, 8526);
    (8528, 8585); (9312, 9371); (9450, 9471); (10102, 10131);
    (11264, 11492); (11499, 11502); (11506, 11507); (11517, 11517);
    (11520, 11557); (11559, 11559); (11565, 11565); (11568, 11623);
    (11631, 11631); (11648, 11670); (11680, 11686); (11688, 11694);
    (11696, 11702); (11704, 11710); (11712, 11718); (11720, 11726);
    (11728, 11734); (11736, 11742); (11823, 11823); (12293, 12295);
    (12321, 12329); (12337, 12341); (12344, 12348); (12353, 12438);
    (12445, 12447); (12449, 12538); (12540, 12543); (12549, 12591);
    (12593, 12686); (12690, 12693); (12704, 12735); (12784, 12799);
    (12832, 12841); (12872, 12879); (12881, 12895); (12928, 12937);
    (12977, 12991); (13312, 19903); (19968, 42124); (42192, 42237);
    (42240, 42508); (42512, 42539); (42560, 42606); (42623, 42653);
    (42656, 42735); (42775, 42783); (42786, 42888); (42891, 42954);
    (42960, 42961); (42963, 42963); (42965, 42969); (42994, 43009);
    (43011, 43013); (43015, 43018); (43020, 43042); (43056, 43061);
    (43072, 43123); (43138, 43187); (43216, 43225); (43250, 43255);
    (43259, 43259); (43261, 43262); (43264, 43301); (43312, 43334);
    (43360, 43388); (43396, 43442); (43471, 43481); (43488, 43492);
    (43494, 43518); (43520, 43560); (43584, 43586); (43588, 43595);
    (43600, 43609); (43616, 43638); (43642, 43642); (43646, 43695);
    (43697, 43697); (43701, 43702); (43705, 43709); (43712, 43712);
    (43714, 43714); (43739, 43741); (43744, 43754); (43762, 43764);
    (43777, 43782); (43785, 43790); (43793, 43798); (43808, 43814);
    (43816, 43822); (43824, 43866); (43868, 43881); (43888, 44002);
    (44016, 44025); (44032, 55203); (55216, 55238); (55243, 55291);
    (63744, 64109); (64112, 64217); (64256, 64262); (64275, 64279);
    (64285, 64285); (64287, 64296); (64298, 64310); (64312, 64316);
    (64318, 64318); (64320, 64321); (64323, 64324); (64326, 64433);
    (64467, 64829); (64848, 64911); (64914, 64967); (65008, 65019);
    (65136, 65140); (65142, 65276); (65296, 65305); (65313, 65338);
    (65345, 65370); (65382, 65470); (65474, 65479); (65482, 65487);
    (65490, 65495); (65498, 65500); (65536, 65547); (65549, 65574);
    (65576, 65594); (65596, 65597); (65599, 65613); (65616, 65629);
    (65664, 65786); (65799, 65843); (65856, 65912); (65930, 65931);
    (66176, 66204); (66208, 66256); (66273, 66299); (66304, 66339);
    (66349, 66378); (66384, 66421); (66432, 66461); (66464, 66499);
    (66504, 66511); (66513, 66517); (66560, 66717); (66720, 66729);
    (66736, 66771); (66776, 66811); (66816, 66855); (66864, 66915);
    (66928, 66938); (66940, 66954); (66956, 66962); (66964, 66965);
    (66967, 66977); (66979, 66993); (66995, 67001); (67003, 67004);
    (67072, 67382); (67392, 67413); (67424, 67431); (67456, 67461);
    (67463, 67504); (67506, 67514); (67584, 67589); (67592, 67592);
    (67594, 67637); (67639, 67640); (67644, 67644); (67647, 67669);
    (67672, 67702); (67705, 67742); (67751, 67759); (67808, 67826);
    (67828, 67829); (67835, 67867); (67872, 67897); (67968, 68023);
    (68028, 68047); (68050, 68096); (68112, 68115); (68117, 68119);
    (68121, 68149); (68160, 68168); (68192, 68222); (68224, 68255);
    (68288, 68295); (68297, 68324); (68331, 68335); (68352, 68405);
    (68416, 68437); (68440, 68466); (68472, 68497); (68521, 68527);
    (68608, 68680); (68736, 68786); (68800, 68850); (68858, 68899);
    (68912, 68921); (69216, 69246); (69248, 69289); (69296, 69297);
    (69376, 69415); (69424, 69445); (69457, 69460); (69488, 69505);
    (69552, 69579); (69600, 69622); (69635, 69687); (69714, 69743);
    (69745, 69746); (69749, 69749); (69763, 69807); (69840, 69864);
    (69872, 69881); (69891, 69926); (69942, 69951); (69956, 69956);
    (69959, 69959); (69968, 70002); (70006, 70006); (70019, 70066);
    (70081, 70084); (70096, 70106); (70108, 70108); (70113, 70132);
    (70144, 70161); (70163, 70187); (70272, 70278); (70280, 70280);
    (70282, 70285); (70287, 70301); (70303, 70312); (70320, 70366);
    (70384, 70393); (70405, 70412); (70415, 70416); (70419, 70440);
    (70442, 70448); (70450, 70451); (70453, 70457); (70461, 70461);
    (70480, 70480); (70493, 70497); (70656, 70708); (70727, 70730);
    (70736, 70745); (70751, 70753); (70784, 70831); (70852, 70853);
    (70855, 70855); (70864, 70873); (71040, 71086); (71128, 71131);
    (71168, 71215); (71236, 71236); (71248, 71257); (71296, 71338);
    (71352, 71352); (71360, 71369); (71424, 71450); (71472, 71483);
    (71488, 71494); (71680, 71723); (71840, 71922); (71935, 71942);
    (71945, 71945); (71948, 71955); (71957, 71958); (71960, 71983);
    (71999, 71999); (72001, 72001); (72016, 72025); (72096, 72103);
    (72106, 72144); (72161, 72161); (72163, 72163); (72192, 72192);
    (72203, 72242); (72250, 72250); (72272, 72272); (72284, 72329);
    (72349, 72349); (72368, 72440); (72704, 72712); (72714, 72750);
    (72768, 72768); (72784, 72812); (72818, 72847); (72960, 72966);
    (72968, 72969); (72971, 73008); (73030, 73030); (73040, 73049);
    (73056, 73061); (73063, 73064); (73066, 73097); (73112, 73112);
    (73120, 73129); (73440, 73458); (73648, 73648); (73664, 73684);
    (73728, 74649); (74752, 74862); (74880, 75075); (77712, 77808);
    (77824, 78894); (82944, 83526); (92160, 92728); (92736, 92766);
    (92768, 92777); (92784, 92862); (92864, 92873); (92880, 92909);
    (92928, 92975); (92992, 92995); (93008, 93017); (93019, 93025);
    (93027, 93047); (93053, 93071); (93760, 93846); (93952, 94026);
    (94032, 94032); (94099, 94111); (94176, 94177); (94179, 94179);
    (94208, 100343); (100352, 101589); (101632, 101640); (110576, 110579);
    (110581, 110587); (110589, 110590); (110592, 110882); (110928, 110930);
    (110948, 110951); (110960, 111355); (113664, 113770); (113776, 113788);
    (113792, 113800); (113808, 113817); (119520, 119539); (119648, 119672);
    (119808, 119892); (119894, 119964); (119966, 119967); (119970, 119970);
    (119973, 119974); (119977, 119980); (119982, 119993); (119995, 119995);
    (119997, 120003); (120005, 120069); (120071, 120074); (120077, 120084);
    (120086, 120092); (120094, 120121); (120123, 120126); (120128, 120132);
    (120134, 120134); (120138, 120144); (120146, 120485); (120488, 120512);
    (120514, 120538); (120540, 120570); (120572, 120596); (120598, 120628);
    (120630, 120654); (120656, 120686); (120688, 120712); (120714, 120744);
    (120746, 120770); (120772, 120779); (120782, 120831); (122624, 122654);
    (123136, 123180); (123191, 123197); (123200, 123209); (123214, 123214);
    (123536, 123565); (123584, 123627); (123632, 123641); (124896, 124902);
    (124904, 124907); (124909, 124910); (124912, 124926); (124928, 125124);
    (125127, 125135); (125184, 125251); (125259, 125259); (125264, 125273);
    (126065, 126123); (126125, 126127); (126129, 126132); (126209, 126253);
    (126255, 126269); (126464, 126467); (126469, 126495); (126497, 126498);
    (126500, 126500); (126503, 126503); (126505, 126514); (126516, 126519);
    (126521, 126521); (126523, 126523); (126530, 126530); (126535, 126535);
    (126537, 126537); (126539, 126539); (126541, 126543); (126545, 126546);
    (126548, 126548); (126551, 126551); (126553, 126553); (126555, 126555);
    (126557, 126557); (126559, 126559); (126561, 126562); (126564, 126564);
    (126567, 126570); (126572, 126578); (126580, 126583); (126585, 126588);
    (126590, 126590); (126592, 126601); (126603, 126619); (126625, 126627);
    (126629, 126633); (126635, 126651); (127232, 127244); (130032, 130041);
    (131072, 173791); (173824, 177976); (177984, 178205); (178208, 183969);
    (183984, 191456); (194560, 195101); (196608, 201546) ].

(** [\d]: a decimal digit of any script *)
Definition is_digit (c : N) : bool := in_ranges decimal_ranges c.

(** The value of a decimal digit. *)
Definition digit_value (c : N) : N :=
  match List.find (fun r => in_range (fst r) (snd r) c) decimal_ranges with
  | Some r => (c - fst r) mod 10
  | None => 0
  end.

(** [\s] and [str.isspace] *)
Definition is_space (c : N) : bool := in_ranges space_ranges c.

(** [\w]: alphanumeric or underscore *)
Definition is_word (c : N) : bool := in_ranges alnum_ranges c || (c =? 95).

(** [str.isdigit()]: every character is a digit (the superscripts and
    the circled digits count) and there is at least one. *)
Definition char_isdigit (c : N) : bool := in_ranges isdigit_ranges c.

Definition str_isdigit (s : pystr) : bool :=
  match s with
  | [] => false
  | _ => forallb char_isdigit s
  end.

(** One-to-one case mappings, as the matcher uses them under
    [re.IGNORECASE]. *)
Definition char_lower (c : N) : N :=
  if in_range 65 90 c then c + 32
  else if in_range 192 222 c && negb (c =? 215) then c + 32
  else c.

Definition char_upper (c : N) : N :=
  if in_range 97 122 c then c - 32
  else if in_range 224 254 c && negb (c =? 247) then c - 32
  else if c =? 255 then 376
  else if c =? 181 then 924
  else c.

(** [str.lower()] and [str.upper()]; the sharp s upper-cases to "SS". *)
Definition str_lower (s : pystr) : pystr := map char_lower s.

Definition str_upper (s : pystr) : pystr :=
  flat_map (fun c => if c =? 223 then [83; 83] else [char_upper c]) s.

(** [str.strip()] *)
Fixpoint lstrip (s : pystr) : pystr :=
  match s with
  | c :: s' => if is_space c then lstrip s' else s
  | [] => []
  end.

Definition rstrip (s : pystr) : pystr := rev (lstrip (rev s)).
Definition strip (s : pystr) : pystr := rstrip (lstrip s).

(** [s.split()] with no argument: the maximal runs of non-space
    characters. [cur] is the run being read, reversed. *)
Fixpoint split_ws_aux (s : pystr) (cur : pystr) : list pystr :=
  match s with
  | [] => match cur with [] => [] | _ => [rev cur] end
  | c :: s' =>
      if is_space c
      then match cur with
           | [] => split_ws_aux s' []
           | _ => rev cur :: split_ws_aux s' []
           end
      else split_ws_aux s' (c :: cur)
  end.

Definition split_ws (s : pystr) : list pystr := split_ws_aux s [].

(** [sep.join(parts)] *)
Fixpoint join (sep : pystr) (parts : list pystr) : pystr :=
  match parts with
  | [] => []
  | [p] => p
  | p :: rest => p ++ sep ++ join sep rest
  end.

(** [s.split(sep)] for a one-character separator. *)
Fixpoint split_char_aux (sep : N) (s : pystr) (cur : pystr) : list pystr :=
  match s with
  | [] => [rev cur]
  | c :: s' =>
      if c =? sep then rev cur :: split_char_aux sep s' []
      else split_char_aux sep s' (c :: cur)
  end.

Definition split_char (sep : N) (s : pystr) : list pystr :=
  split_char_aux sep s [].

(** [s.zfill(width)] for a string without sign. *)
Definition zfill (width : nat) (s : pystr) : pystr :=
  repeat 48 (width - length s) ++ s.

(** [unicodedata.normalize("NFKD", _)] on the two blocks: the
    compatibility decomposition of each code point. *)
Definition nfkd_marks : list (N * N) :=
  [ (0, 768); (1, 769); (2, 770); (3, 771); (4, 776); (5, 778) ].

Definition nfkd_letter (base : N) (marks : list (N * N)) (off : N) : option pystr :=
  match List.find (fun p => fst p =? off) marks with
  | Some p => Some [base; snd p]
  | None => None
  end.

Definition nfkd_upper_latin1 (c : N) : option pystr :=
  if in_range 192 197 c then nfkd_letter 65 nfkd_marks (c - 192)
  else if c =? 199 then Some [67; 807]
  else if in_range 200 203 c then
    nfkd_letter 69 [ (0, 768); (1, 769); (2, 770); (3, 776) ] (c - 200)
  else if in_range 204 207 c then
    nfkd_letter 73 [ (0, 768); (1, 769); (2, 770); (3, 776) ] (c - 204)
  else if c =? 209 then Some [78; 771]
  else if in_range 210 214 c then
    nfkd_letter 79 [ (0, 768); (1, 769); (2, 770); (3, 771); (4, 776) ] (c - 210)
  else if in_range 217 220 c then
    nfkd_letter 85 [ (0, 768); (1, 769); (2, 770); (3, 776) ] (c - 217)
  else if c =? 221 then Some [89; 769]
  else None.

Definition nfkd_symbols : list (N * pystr) :=
  [ (160, [32]); (168, [32; 776]); (170, [97]); (175, [32; 772]);
    (178, [50]); (179, [51]); (180, [32; 769]); (181, [956]);
    (184, [32; 807]); (185, [49]); (186, [111]);
    (188, [49; 8260; 52]); (189, [49; 8260; 50]); (190, [51; 8260; 52]);
    (255, [121; 776]) ].

Definition nfkd_char (c : N) : pystr :=
  match List.find (fun p => fst p =? c) nfkd_symbols with
  | Some p => snd p
  | None =>
      match nfkd_upper_latin1 c with
      | Some d => d
      | None =>
          if in_range 224 253 c then
            match nfkd_upper_latin1 (c - 32) with
            | Some (b :: m) => (b + 32) :: m
            | _ => [c]
            end
          else [c]
      end
  end.

Definition nfkd (s : pystr) : pystr := flat_map nfkd_char s.

(* ===================================================================== *)
(** ** Regular expressions: syntax *)
(* ===================================================================== *)

(** Items of a bracketed class; [\d], [\s] and [\w] (and their
    complements, [neg := true]) are classes of one item. *)
Inductive citem :=
| CLit (c : N)
| CRange (lo hi : N)
| CDigit (neg : bool)
| CSpace (neg : bool)
| CWord (neg : bool).

Inductive regex :=
| REps
| RChr (c : N)
| RSet (neg : bool) (items : list citem)
| RDot
| RCat (r1 r2 : regex)
| RAlt (r1 r2 : regex)
| RRep (lo : nat) (hi : option nat) (r : regex)
| RGroup (n : nat) (r : regex)
| RBoundary
| RBol
| REol.

(** The pattern that matches nothing; the value of [re] on a pattern
    outside the supported syntax. *)
Definition RFail : regex := RSet false [].

(** *** Parsing a pattern string *)

Definition escape_item (c : N) : option citem :=
  if c =? 100 then Some (CDigit false)
  else if c =? 68 then Some (CDigit true)
  else if c =? 115 then Some (CSpace false)
  else if c =? 83 then Some (CSpace true)
  else if c =? 119 then Some (CWord false)
  else if c =? 87 then Some (CWord true)
  else if is_word c then None
  else Some (CLit c).

(** The items of [[...]], after the opening bracket and an optional
    caret, up to and including the closing bracket. *)
Fixpoint parse_items (s : pystr) : option (list citem * pystr) :=
  match s with
  | [] => None
  | 93 :: s' => Some ([], s')
  | 92 :: c :: s' =>
      match escape_item c, parse_items s' with
      | Some it, Some (its, r) => Some (it :: its, r)
      | _, _ => None
      end
  | lo :: 45 :: hi :: s' =>
      if hi =? 93 then Some ([CLit lo; CLit 45], s')
      else if hi =? 92 then None
      else match parse_items s' with
           | Some (its, r) => Some (CRange lo hi :: its, r)
           | None => None
           end
  | c :: s' =>
      match parse_items s' with
      | Some (its, r) => Some (CLit c :: its, r)
      | None => None
      end
  end.

Fixpoint parse_nat (s : pystr) (acc : nat) : nat * pystr :=
  match s with
  | c :: s' =>
      if in_range 48 57 c then parse_nat s' (acc * 10 + N.to_nat (c - 48))%nat
      else (acc, s)
  | [] => (acc, [])
  end.

(** A quantifier after the atom [a]; lazy quantifiers are outside the
    supported syntax. *)
Definition not_lazy (s : pystr) : bool :=
  match s with
  | 63 :: _ => false
  | _ => true
  end.

Definition parse_quant (a : regex) (s : pystr) : option (regex * pystr) :=
  match s with
  | 42 :: s' => if not_lazy s' then Some (RRep 0 None a, s') else None
  | 43 :: s' => if not_lazy s' then Some (RRep 1 None a, s') else None
  | 63 :: s' => if not_lazy s' then Some (RRep 0 (Some 1%nat) a, s') else None
  | 123 :: s' =>
      let (lo, s1) := parse_nat s' 0 in
      match s1 with
      | 125 :: s2 => if not_lazy s2 then Some (RRep lo (Some lo) a, s2) else None
      | 44 :: 125 :: s2 => if not_lazy s2 then Some (RRep lo None a, s2) else None
      | 44 :: s2 =>
          let (hi, s3) := parse_nat s2 0 in
          match s3 with
          | 125 :: s4 => if not_lazy s4 then Some (RRep lo (Some hi) a, s4) else None
          | _ => None
          end
      | _ => None
      end
  | _ => Some (a, s)
  end.

(** Recursive descent; [g] counts the capturing groups opened so far,
    which numbers them by their opening parenthesis. *)
Fixpoint parse_alt (fuel : nat) (s : pystr) (g : nat)
  : option (regex * pystr * nat) :=
  match fuel with
  | O => None
  | S f =>
      match parse_seq f s g with
      | Some (r1, 124 :: s1, g1) =>
          match parse_alt f s1 g1 with
          | Some (r2, s2, g2) => Some (RAlt r1 r2, s2, g2)
          | None => None
          end
      | other => other
      end
  end
with parse_seq (fuel : nat) (s : pystr) (g : nat)
  : option (regex * pystr * nat) :=
  match fuel with
  | O => None
  | S f =>
      match s with
      | [] => Some (REps, [], g)
      | 124 :: _ => Some (REps, s, g)
      | 41 :: _ => Some (REps, s, g)
      | _ =>
          match parse_atom f s g with
          | Some (a, s1, g1) =>
              match parse_quant a s1 with
              | Some (q, s2) =>
                  match parse_seq f s2 g1 with
                  | Some (REps, s3, g3) => Some (q, s3, g3)
                  | Some (r, s3, g3) => Some (RCat q r, s3, g3)
                  | None => None
                  end
              | None => None
              end
          | None => None
          end
      end
  end
with parse_atom (fuel : nat) (s : pystr) (g : nat)
  : option (regex * pystr * nat) :=
  match fuel with
  | O => None
  | S f =>
      match s with
      | 40 :: 63 :: 58 :: s1 =>
          match parse_alt f s1 g with
          | Some (r, 41 :: s2, g2) => Some (r, s2, g2)
          | _ => None
          end
      | 40 :: 63 :: _ => None
      | 40 :: s1 =>
          match parse_alt f s1 (S g) with
          | Some (r, 41 :: s2, g2) => Some (RGroup (S g) r, s2, g2)
          | _ => None
          end
      | 91 :: 94 :: s1 =>
          match parse_items s1 with
          | Some (its, s2) => Some (RSet true its, s2, g)
          | None => None
          end
      | 91 :: s1 =>
          match parse_items s1 with
          | Some (its, s2) => Some (RSet false its, s2, g)
          | None => None
          end
      | 92 :: 98 :: s1 => Some (RBoundary, s1, g)
      | 92 :: c :: s1 =>
          match escape_item c with
          | Some (CLit x) => Some (RChr x, s1, g)
          | Some it => Some (RSet false [it], s1, g)
          | None => None
          end
      | 46 :: s1 => Some (RDot, s1, g)
      | 94 :: s1 => Some (RBol, s1, g)
      | 36 :: s1 => Some (REol, s1, g)
      | 42 :: _ | 43 :: _ | 63 :: _ | 123 :: _ | 92 :: _ => None
      | c :: s1 => Some (RChr c, s1, g)
      | [] => None
      end
  end.

Definition re_compile (pattern : pystr) : option regex :=
  match parse_alt (3 * length pattern + 3) pattern 0 with
  | Some (r, [], _) => Some r
  | _ => None
  end.

(** [re "pattern"]: the compiled raw string [r'pattern'] of the source. *)
Definition re (pattern : string) : regex :=
  match re_compile (py pattern) with
  | Some r => r
  | None => RFail
  end.

Arguments re : simpl never.

(* ===================================================================== *)
(** ** Regular expressions: matching *)
(* ===================================================================== *)

(** The matcher's position: index in the text, the character just
    before it (for [\b]), the text from it on, and the spans of the
    capturing groups closed so far, most recent first. *)
Record mstate := MState {
  st_pos : nat;
  st_prev : option N;
  st_rest : pystr;
  st_caps : list (nat * (nat * nat))
}.

Definition item_matches (ic : bool) (it : citem) (c : N) : bool :=
  match it with
  | CLit x => if ic then char_lower c =? char_lower x else c =? x
  | CRange lo hi =>
      in_range lo hi c
      || (ic && (in_range lo hi (char_lower c) || in_range lo hi (char_upper c)))
  | CDigit neg => xorb neg (is_digit c)
  | CSpace neg => xorb neg (is_space c)
  | CWord neg => xorb neg (is_word c)
  end.

Definition set_matches (ic neg : bool) (items : list citem) (c : N) : bool :=
  xorb neg (existsb (fun it => item_matches ic it c) items).

Definition step_char (st : mstate) (ok : N -> bool)
    (k : mstate -> option mstate) : option mstate :=
  match st_rest st with
  | c :: rest =>
      if ok c then k (MState (S (st_pos st)) (Some c) rest (st_caps st))
      else None
  | [] => None
  end.

Definition at_boundary (st : mstate) : bool :=
  xorb (match st_prev st with Some c => is_word c | None => false end)
       (match st_rest st with c :: _ => is_word c | [] => false end).

Definition below (n : nat) (hi : option nat) : bool :=
  match hi with
  | Some h => (n <? h)%nat
  | None => true
  end.

(** A greedy repetition of [body] between [lo] and [hi] times, [n]
    iterations done: it tries one more iteration before it tries to
    stop.  An iteration has to consume a character, so the number of
    iterations is at most the length of the remaining text, which is
    what [fuel] starts from. *)
Fixpoint rep_loop (body : mstate -> (mstate -> option mstate) -> option mstate)
    (lo : nat) (hi : option nat) (k : mstate -> option mstate)
    (fuel n : nat) (st : mstate) {struct fuel} : option mstate :=
  let stop := if (lo <=? n)%nat then k st else None in
  match fuel with
  | O => stop
  | S fuel' =>
      if below n hi then
        match body st
                (fun st' =>
                   if (st_pos st' =? st_pos st)%nat then None
                   else rep_loop body lo hi k fuel' (S n) st') with
        | Some m => Some m
        | None => stop
        end
      else stop
  end.

(** [run ic r st k]: match [r] at [st] and continue with [k]; the first
    alternative that lets the continuation succeed wins. *)
Fixpoint run (ic : bool) (r : regex) (st : mstate)
    (k : mstate -> option mstate) {struct r} : option mstate :=
  match r with
  | REps => k st
  | RChr c => step_char st (item_matches ic (CLit c)) k
  | RSet neg items => step_char st (set_matches ic neg items) k
  | RDot => step_char st (fun c => negb (c =? 10)) k
  | RCat r1 r2 => run ic r1 st (fun st' => run ic r2 st' k)
  | RAlt r1 r2 =>
      match run ic r1 st k with
      | Some m => Some m
      | None => run ic r2 st k
      end
  | RRep lo hi r1 =>
      rep_loop (run ic r1) lo hi k (S (length (st_rest st))) 0%nat st
  | RGroup g r1 =>
      run ic r1 st
        (fun st' =>
           k (MState (st_pos st') (st_prev st') (st_rest st')
                ((g, (st_pos st, st_pos st')) :: st_caps st')))
  | RBoundary => if at_boundary st then k st else None
  | RBol => if (st_pos st =? 0)%nat then k st else None
  | REol =>
      match st_rest st with
      | [] => k st
      | [10] => k st
      | _ => None
      end
  end.

(** A match object: the span of the whole match and of the groups. *)
Record rmatch := RMatch {
  m_start : nat;
  m_end : nat;
  m_caps : list (nat * (nat * nat))
}.

Definition match_at (ic : bool) (r : regex) (pos : nat) (prev : option N)
    (rest : pystr) : option rmatch :=
  match run ic r (MState pos prev rest []) Some with
  | Some st' => Some (RMatch pos (st_pos st') (st_caps st'))
  | None => None
  end.

(** [re.match]: at the start of the text only. *)
Definition re_match (ic : bool) (r : regex) (text : pystr) : option rmatch :=
  match_at ic r 0 None text.

(** The leftmost match starting at [pos] or later. *)
Fixpoint search_from (ic : bool) (r : regex) (pos : nat) (prev : option N)
    (rest : pystr) : option rmatch :=
  match match_at ic r pos prev rest with
  | Some m => Some m
  | None =>
      match rest with
      | [] => None
      | c :: rest' => search_from ic r (S pos) (Some c) rest'
      end
  end.

(** [re.search] *)
Definition re_search (ic : bool) (r : regex) (text : pystr) : option rmatch :=
  search_from ic r 0 None text.

Definition prev_at (text : pystr) (pos : nat) : option N :=
  match pos with
  | O => None
  | S p => nth_error text p
  end.

(** [re.finditer]: the successive non-overlapping matches, left to
    right; after an empty match the scan moves on by one character. *)
Fixpoint finditer_from (fuel : nat) (ic : bool) (r : regex) (text : pystr)
    (pos : nat) : list rmatch :=
  match fuel with
  | O => []
  | S fuel' =>
      if (length text <? pos)%nat then []
      else
        match search_from ic r pos (prev_at text pos) (skipn pos text) with
        | None => []
        | Some m =>
            let next := if (m_end m =? m_start m)%nat then S (m_end m)
                        else m_end m in
            m :: finditer_from fuel' ic r text next
        end
  end.

Definition re_finditer (ic : bool) (r : regex) (text : pystr) : list rmatch :=
  finditer_from (S (length text)) ic r text 0.

(** [m.group(n)]; [m.group(0)] is the whole match. *)
Definition group0 (text : pystr) (m : rmatch) : pystr :=
  slice text (m_start m) (m_end m).

Definition group (text : pystr) (m : rmatch) (n : nat) : pystr :=
  match List.find (fun p => (fst p =? n)%nat) (m_caps m) with
  | Some (_, (s, e)) => slice text s e
  | None => []
  end.

(** [re.findall] for a pattern without groups. *)
Definition re_findall (ic : bool) (r : regex) (text : pystr) : list pystr :=
  map (group0 text) (re_finditer ic r text).

(** [re.sub(pattern, repl, text)] for a replacement without group
    references: the text between the matches, with [repl] in place of
    each match. *)
Fixpoint sub_matches (text repl : pystr) (ms : list rmatch) (pos : nat) : pystr :=
  match ms with
  | [] => skipn pos text
  | m :: ms' =>
      slice text pos (m_start m) ++ repl ++ sub_matches text repl ms' (m_end m)
  end.

Definition re_sub (ic : bool) (r : regex) (repl text : pystr) : pystr :=
  sub_matches text repl (re_finditer ic r text) 0.

(* ===================================================================== *)
(** ** Python values, results and numbers *)
(* ===================================================================== *)

Inductive exn := TypeError | AttributeError | ValueError.

Inductive result (A : Type) :=
| Ok (a : A)
| Err (e : exn).
Arguments Ok {A} a.
Arguments Err {A} e.

Definition bind {A B} (x : result A) (f : A -> result B) : result B :=
  match x with
  | Ok a => f a
  | Err e => Err e
  end.

#[global] Instance result_ret : MRet result := fun _ a => Ok a.
#[global] Instance result_bind : MBind result := fun _ _ f x => bind x f.

(** [int(s)] on a string: optional surrounding white space, an
    optional sign, then decimal digits of any script with single
    underscores allowed between them; [None] is [ValueError].  The
    white space [int] skips is that of [str.isspace] without the four
    separators U+001C to U+001F.  [prev_digit] tells whether the
    character before was a digit. *)
Definition int_space (c : N) : bool := is_space c && negb (in_range 28 31 c).

Fixpoint lstrip_by (sp : N -> bool) (s : pystr) : pystr :=
  match s with
  | c :: s' => if sp c then lstrip_by sp s' else s
  | [] => []
  end.

Definition strip_by (sp : N -> bool) (s : pystr) : pystr :=
  rev (lstrip_by sp (rev (lstrip_by sp s))).

Fixpoint digits_value (s : pystr) (acc : Z) (prev_digit : bool) : option Z :=
  match s with
  | [] => if prev_digit then Some acc else None
  | c :: s' =>
      if is_digit c
      then digits_value s' (acc * 10 + Z.of_N (digit_value c))%Z true
      else if (c =? 95) && prev_digit then digits_value s' acc false
      else None
  end.

Definition py_int (s : pystr) : option Z :=
  match strip_by int_space s with
  | 45 :: d => option_map Z.opp (digits_value d 0 false)
  | 43 :: d => digits_value d 0 false
  | d => digits_value d 0 false
  end.

(** [datetime(year, month, day)] succeeds exactly on the dates of the
    proleptic Gregorian calendar with [1 <= year <= 9999]. *)
Definition is_leap (y : Z) : bool :=
  ((y mod 4 =? 0) && (negb (y mod 100 =? 0) || (y mod 400 =? 0)))%Z.

Definition days_in_month (y m : Z) : Z :=
  (if m =? 2 then (if is_leap y then 29 else 28)
   else if (m =? 4) || (m =? 6) || (m =? 9) || (m =? 11) then 30
   else 31)%Z.

Definition datetime_ok (y m d : Z) : bool :=
  ((1 <=? y) && (y <=? 9999) && (1 <=? m) && (m <=? 12)
   && (1 <=? d) && (d <=? days_in_month y m))%Z.

(* ===================================================================== *)
(** ** extractors/cnpj_extractor.py *)
(* ===================================================================== *)

Module CNPJExtractor.

Definition CNPJ_LENGTH : nat := 14.
Definition FIRST_BLOCK_END : nat := 2.
Definition SECOND_BLOCK_END : nat := 5.
Definition THIRD_BLOCK_END : nat := 8.
Definition FOURTH_BLOCK_END : nat := 12.

Definition cnpj_patterns : list regex :=
  [ re "\b(\d{2}\.?\d{3}\.?\d{3}\/?\d{4}-?\d{2})\b";
    re "\b(\d{14})\b";
    re "CNPJ[:\s-]*(\d{2}\.?\d{3}\.?\d{3}\/?\d{4}-?\d{2})";
    re "SEDE[:\s-]*(\d{2}\.?\d{3}\.?\d{3}\/?\d{4}-?\d{2})" ].

(** [re.sub(r'\D', '', s)] *)
Definition only_digits (s : pystr) : pystr := re_sub false (re "\D") [] s.

Definition normalize (cnpj : pystr) : pystr :=
  match cnpj with
  | [] => []
  | _ =>
      let digits := only_digits cnpj in
      if negb (length digits =? CNPJ_LENGTH)%nat then []
      else
        slice_to digits FIRST_BLOCK_END ++ py "."
        ++ slice digits FIRST_BLOCK_END SECOND_BLOCK_END ++ py "."
        ++ slice digits SECOND_BLOCK_END THIRD_BLOCK_END ++ py "/"
        ++ slice digits THIRD_BLOCK_END FOURTH_BLOCK_END ++ py "-"
        ++ slice_from digits FOURTH_BLOCK_END
  end.

(** The inner loop of [extract_from_ocr]: the first match of one
    pattern whose digits number fourteen. *)
Fixpoint first_cnpj (text : pystr) (matches : list rmatch) : option pystr :=
  match matches with
  | [] => None
  | m :: rest =>
      let cnpj_raw := group text m 1 in
      let cnpj_digits := only_digits cnpj_raw in
      if (length cnpj_digits =? CNPJ_LENGTH)%nat then Some (normalize cnpj_digits)
      else first_cnpj text rest
  end.

(** The outer loop: the patterns in the order of the list. *)
Fixpoint scan_patterns (text : pystr) (patterns : list regex) : option pystr :=
  match patterns with
  | [] => None
  | pattern :: rest =>
      match first_cnpj text (re_finditer true pattern text) with
      | Some cnpj => Some cnpj
      | None => scan_patterns text rest
      end
  end.

Definition extract_from_ocr (ocr_text : pystr) : pystr :=
  match ocr_text with
  | [] => []
  | _ =>
      match scan_patterns ocr_text cnpj_patterns with
      | Some cnpj => cnpj
      | None => []
      end
  end.

Definition validate (cnpj : pystr) : bool :=
  match cnpj with
  | [] => false
  | _ =>
      let digits := only_digits cnpj in
      (length digits =? CNPJ_LENGTH)%nat && str_isdigit digits
  end.

End CNPJExtractor.

(* ===================================================================== *)
(** ** extractors/date_extractor.py *)
(* ===================================================================== *)

(** Truth value of an [Optional[str]]: neither [None] nor empty. *)
Definition truthy_str (o : option pystr) : bool :=
  match o with
  | Some (_ :: _) => true
  | _ => false
  end.

Module DateExtractor.

Definition EXTENDED_DATE_PATTERN : regex := re "\d+\s+de\s+[a-z]+\s+de\s+\d{4}".
Definition SIMPLE_DATE_PATTERN : regex := re "(\d{1,2}/\d{1,2}/\d{4})".
Definition MONTH_DATE_PATTERN : regex := re "(\d{1,2})\s+de\s+([a-z]+)\s+de\s+(\d{4})".
Definition ISO_DATE_PATTERN : regex := re "^\d{4}-\d{2}-\d{2}$".

Definition MONTH_NAMES : list (pystr * pystr) :=
  [ (py "janeiro", py "01"); (py "fevereiro", py "02"); (py "março", py "03");
    (py "marco", py "03"); (py "abril", py "04"); (py "maio", py "05");
    (py "junho", py "06"); (py "julho", py "07"); (py "agosto", py "08");
    (py "setembro", py "09"); (py "outubro", py "10"); (py "novembro", py "11");
    (py "dezembro", py "12") ].

(** [MONTH_NAMES.get(name)] *)
Definition month_of (name : pystr) : option pystr :=
  match List.find (fun p => pystr_eqb (fst p) name) MONTH_NAMES with
  | Some p => Some (snd p)
  | None => None
  end.

(** [datetime(int(year), int(month), int(day))] raises [ValueError] on
    a string that is no number and on a date that does not exist. *)
Definition _is_valid_date (day month year : pystr) : bool :=
  match py_int year, py_int month, py_int day with
  | Some y, Some m, Some d => datetime_ok y m d
  | _, _, _ => false
  end.

(** The numeric branch; the group has exactly two slashes, so the
    unpacking of the split into three names cannot fail. *)
Definition normalize_simple (text : pystr) : option pystr :=
  match re_search false SIMPLE_DATE_PATTERN text with
  | Some m =>
      match split_char 47 (group text m 1) with
      | [day; month; year] =>
          if _is_valid_date day month year
          then Some (year ++ py "-" ++ zfill 2 month ++ py "-" ++ zfill 2 day)
          else None
      | _ => None
      end
  | None => None
  end.

Definition normalize_extended (text : pystr) : option pystr :=
  match re_search true MONTH_DATE_PATTERN text with
  | Some m =>
      let day := group text m 1 in
      let month_name := str_lower (group text m 2) in
      let year := group text m 3 in
      match month_of month_name with
      | Some month =>
          if truthy_str (Some month) && _is_valid_date day month year
          then Some (year ++ py "-" ++ month ++ py "-" ++ zfill 2 day)
          else None
      | None => None
      end
  | None => None
  end.

Definition normalize_any (text : pystr) : option pystr :=
  match text with
  | [] => None
  | _ =>
      let text := strip text in
      match re_match false ISO_DATE_PATTERN text with
      | Some _ => Some text
      | None =>
          match normalize_simple text with
          | Some iso => Some iso
          | None => normalize_extended text
          end
      end
  end.

Definition signature_patterns : list regex :=
  [ re "assinado\s+em\s+(\d{1,2}[\/\-]\d{1,2}[\/\-]\d{4})";
    re "firmado\s+em\s+(\d{1,2}[\/\-]\d{1,2}[\/\-]\d{4})";
    re "subscrito\s+em\s+(\d{1,2}[\/\-]\d{1,2}[\/\-]\d{4})";
    re "datado\s+de\s+(\d{1,2}[\/\-]\d{1,2}[\/\-]\d{4})";
    re "São\s+Paulo,?\s*(\d{1,2}[\/\-]\d{1,2}[\/\-]\d{4})";
    re "assinado\s+em\s+(\d{1,2}\s+de\s+[a-z]+\s+de\s+\d{4})";
    re "firmado\s+em\s+(\d{1,2}\s+de\s+[a-z]+\s+de\s+\d{4})" ].

(** The first match of one pattern whose group normalizes. *)
Fixpoint first_date (text : pystr) (matches : list rmatch) : option pystr :=
  match matches with
  | [] => None
  | m :: rest =>
      let date_str := group text m 1 in
      let normalized := normalize_any date_str in
      if truthy_str normalized then normalized
      else first_date text rest
  end.

Fixpoint scan_patterns (text : pystr) (patterns : list regex) : option pystr :=
  match patterns with
  | [] => None
  | pattern :: rest =>
      match first_date text (re_finditer false pattern text) with
      | Some d => Some d
      | None => scan_patterns text rest
      end
  end.

Definition extract_signature_date_level_0 (ocr_text : pystr) : option pystr :=
  match ocr_text with
  | [] => None
  | _ =>
      let text_normalized := nfkd ocr_text in
      let text_lower := str_lower text_normalized in
      scan_patterns text_lower signature_patterns
  end.

(** [_is_date_in_law_context]: the hundred characters before the first
    occurrence of [date_str] in the text. *)
Definition law_keywords : list pystr :=
  [ py "lei"; py "decreto"; py "portaria"; py "resolução";
    py "medida provisória" ].

Definition _is_date_in_law_context (text date_str : pystr) : bool :=
  match str_find text date_str with
  | None => false
  | Some date_position =>
      let window_start := Nat.max 0 (date_position - 100) in
      let context := slice text window_start date_position in
      let context_lower := str_lower context in
      existsb (fun keyword => contains context_lower keyword) law_keywords
  end.

Definition name_pattern : regex := re "\b[A-Z][a-z]+(?:\s+[A-Z][a-z]+)+\b".

Definition window (text : pystr) (position window_size : nat) : pystr :=
  let window_start := Nat.max 0 (position - window_size) in
  let window_end := Nat.min (length text) (position + window_size) in
  slice text window_start window_end.

Definition _count_names_near_date (text : pystr) (date_position : nat) : nat :=
  let context := window text date_position 500 in
  length (re_findall false name_pattern context).

Definition signature_keywords : list pystr :=
  [ py "assinatura"; py "assina"; py "testemunha"; py "sócio";
    py "administrador"; py "diretor"; py "presidente"; py "outorgante";
    py "outorgado" ].

(** The loop [for keyword in signature_keywords: if keyword in context:
    score += 10]. *)
Fixpoint keyword_score (context : pystr) (keywords : list pystr) (score : nat) : nat :=
  match keywords with
  | [] => score
  | keyword :: rest =>
      keyword_score context rest
        (if contains context keyword then score + 10 else score)%nat
  end.

Definition _check_signature_section_proximity (text : pystr) (position : nat) : nat :=
  let context := str_lower (window text position 500) in
  keyword_score context signature_keywords 0.

(** A candidate of [dates_found]: normalized date, text of the date,
    total score. *)
Definition candidate : Type := pystr * pystr * nat.
Definition cand_date (c : candidate) : pystr := fst (fst c).
Definition cand_score (c : candidate) : nat := snd c.

(** One pass of [find_signature_date_by_proximity] over the matches of
    one date pattern; [date_of] is [match.group(1)] in the first pass
    and [match.group(0)] in the second. *)
Fixpoint collect (text : pystr) (date_of : rmatch -> pystr)
    (matches : list rmatch) : list candidate :=
  match matches with
  | [] => []
  | m :: rest =>
      let date_str := date_of m in
      let position := m_start m in
      match normalize_any date_str with
      | Some normalized =>
          if negb (truthy_str (Some normalized)) then collect text date_of rest
          else if _is_date_in_law_context text date_str
          then collect text date_of rest
          else
            let proximity_score := _check_signature_section_proximity text position in
            let names_count := _count_names_near_date text position in
            let total_score := (proximity_score + names_count * 10)%nat in
            (normalized, date_str, total_score) :: collect text date_of rest
      | None => collect text date_of rest
      end
  end.

(** [list.sort(key=..., reverse=True)]: the stable sort by decreasing
    key (elements of equal key keep their order); a stable sort is
    determined by this, whatever the algorithm. *)
Fixpoint insert_desc {A} (key : A -> nat) (x : A) (l : list A) : list A :=
  match l with
  | [] => [x]
  | y :: l' =>
      if (key y <=? key x)%nat then x :: y :: l'
      else y :: insert_desc key x l'
  end.

Fixpoint sort_desc {A} (key : A -> nat) (l : list A) : list A :=
  match l with
  | [] => []
  | x :: l' => insert_desc key x (sort_desc key l')
  end.

(** [dates_found] after both passes: the numeric dates, then the
    dates written out. *)
Definition dates_found (text_normalized : pystr) : list candidate :=
  collect text_normalized (fun m => group text_normalized m 1)
    (re_finditer true SIMPLE_DATE_PATTERN text_normalized)
  ++ collect text_normalized (group0 text_normalized)
       (re_finditer true EXTENDED_DATE_PATTERN text_normalized).

Definition find_signature_date_by_proximity (ocr_text : pystr) : option pystr :=
  match ocr_text with
  | [] => None
  | _ =>
      let text_normalized := nfkd ocr_text in
      match sort_desc cand_score (dates_found text_normalized) with
      | [] => None
      | best :: _ => Some (cand_date best)
      end
  end.

End DateExtractor.

(* ===================================================================== *)
(** ** extractors/document_extractor.py *)
(* ===================================================================== *)

Module DocumentExtractor.

(** Pattern, display name, type code; the order matters. *)
Definition DOCUMENT_PATTERNS : list (regex * pystr * pystr) :=
  [ (re "INSTRUMENTO\s+PARTICULAR\s+DE\s+(?:PRIMEIRA|SEGUNDA|TERCEIRA|QUARTA|QUINTA)?\s*ALTERA[ÇC][ÃA]O\s+(?:DO\s+)?CONTRATO\s+SOCIAL",
     py "Instrumento Particular de Alteração Contrato Social", py "CONTRATO_SOCIAL");
    (re "INSTRUMENTO\s+PARTICULAR\s+DE\s+ALTERA[ÇC][ÃA]O",
     py "Instrumento Particular de Alteração", py "CONTRATO_SOCIAL");
    (re "INSTRUMENTO\s+PARTICULAR",
     py "Instrumento Particular", py "CONTRATO_SOCIAL");
    (re "CONSTITUI[ÇC][ÃA]O\s+(?:POR\s+)?(?:TRANSFORMA[ÇC][ÃA]O)?",
     py "Constituição por Transformação de Empresário em Sociedade", py "CONTRATO_SOCIAL");
    (re "ALTERA[ÇC][ÃA]O\s+CONTRATUAL",
     py "Alteração Contratual", py "CONTRATO_SOCIAL");
    (re "ALTERA[ÇC][ÃA]O\s+(?:DO\s+)?CONTRATO\s+SOCIAL",
     py "Alteração Contrato Social", py "CONTRATO_SOCIAL");
    (re "ADITAMENTO\s+(?:AO\s+)?CONTRATO",
     py "Aditamento ao Contrato Social", py "ADITAMENTO");
    (re "TERMO\s+ADITIVO",
     py "Termo Aditivo", py "ADITAMENTO");
    (re "ADITAMENTO",
     py "Aditamento", py "ADITAMENTO");
    (re "ATA\s+(?:DA\s+)?ASSEMBLEIA\s+GERAL\s+ORDIN[AÁ]RIA\s+E\s+EXTRAORDIN[AÁ]RIA",
     py "Ata de Assembleia Geral Ordinária e Extraordinária", py "ATA_DE_ASSEMBLEIA");
    (re "ATA\s+(?:DA\s+)?ASSEMBLEIA\s+GERAL\s+EXTRAORDIN[AÁ]RIA",
     py "Ata de Assembleia Geral Extraordinária", py "ATA_DE_ASSEMBLEIA");
    (re "ATA\s+(?:DA\s+)?ASSEMBLEIA\s+GERAL\s+ORDIN[AÁ]RIA",
     py "Ata de Assembleia Geral Ordinária", py "ATA_DE_ASSEMBLEIA");
    (re "ATA\s+(?:DA\s+)?ASSEMBLEIA\s+GERAL",
     py "Ata de Assembleia Geral", py "ATA_DE_ASSEMBLEIA");
    (re "ATA\s+(?:DE\s+)?ELEI[ÇC][ÃA]O",
     py "Ata de Eleição", py "ATA_DE_ELEICAO");
    (re "ATA\s+(?:DE\s+)?REUNI[ÃA]O",
     py "Ata de Reunião", py "ATA_DE_ASSEMBLEIA");
    (re "ESTATUTO\s+SOCIAL(?:\s+CONSOLIDADO)?",
     py "Estatuto Social", py "ESTATUTO_SOCIAL");
    (re "CONTRATO\s+SOCIAL",
     py "Contrato Social", py "CONTRATO_SOCIAL");
    (re "(?:INSTRUMENTO\s+(?:P[UÚ]BLICO\s+)?(?:DE\s+)?)?PROCURA[ÇC][ÃA]O",
     py "Procuração", py "PROCURACAO");
    (re "CERTID[ÃA]O",
     py "Certidão Simplificada", py "CERTIDAO");
    (re "FICHA\s+CADASTRAL",
     py "Ficha Cadastral", py "FICHA_CADASTRAL") ].

Definition DATA_NOT_AVAILABLE : pystr := py "Dado não disponível no documento".

(** The loop of [extract_document_name] over the rules. *)
Fixpoint first_name (text : pystr) (rules : list (regex * pystr * pystr))
  : option pystr :=
  match rules with
  | [] => None
  | (pattern, doc_name, _) :: rest =>
      match re_search false pattern text with
      | Some _ =>
          if contains doc_name (py "Procuração")
             || contains (str_upper doc_name) (py "PROCURAÇÃO")
          then first_name text rest
          else Some doc_name
      | None => first_name text rest
      end
  end.

Definition extract_document_name (ocr_text : pystr) : pystr :=
  match ocr_text with
  | [] => DATA_NOT_AVAILABLE
  | _ =>
      let ocr_text_upper := str_upper ocr_text in
      let ocr_text_normalized := re_sub false (re "\s+") (py " ") ocr_text_upper in
      match first_name ocr_text_normalized DOCUMENT_PATTERNS with
      | Some doc_name => doc_name
      | None => DATA_NOT_AVAILABLE
      end
  end.

Fixpoint first_type (text : pystr) (rules : list (regex * pystr * pystr))
  : option pystr :=
  match rules with
  | [] => None
  | (pattern, _, doc_type) :: rest =>
      match re_search false pattern text with
      | Some _ => Some doc_type
      | None => first_type text rest
      end
  end.

Definition identify_document_type (text : pystr) : pystr :=
  match text with
  | [] => py "DOCUMENTO_GENERICO"
  | _ =>
      let text_upper := str_upper text in
      let text_normalized := re_sub false (re "\s+") (py " ") text_upper in
      match first_type text_normalized DOCUMENT_PATTERNS with
      | Some doc_type => doc_type
      | None => py "DOCUMENTO_GENERICO"
      end
  end.

(** [uri.split('/')[-1] if '/' in uri else uri] *)
Definition file_name (uri : pystr) : pystr :=
  if existsb (N.eqb 47) uri then List.last (split_char 47 uri) []
  else uri.

Definition accessory_types : list pystr :=
  [ py "PROCURACAO"; py "ADITAMENTO"; py "CERTIDAO"; py "FICHA_CADASTRAL" ].

Definition corporate_types : list pystr :=
  [ py "ESTATUTO_SOCIAL"; py "ATA_DE_ASSEMBLEIA"; py "ATA_DE_ELEICAO";
    py "CONTRATO_SOCIAL" ].

(** [doc_type in accessory_types] *)
Definition is_accessory_document (doc_type : pystr) : bool :=
  existsb (pystr_eqb doc_type) accessory_types.

Definition is_corporate_document (doc_type : pystr) : bool :=
  existsb (pystr_eqb doc_type) corporate_types.

End DocumentExtractor.

(* ===================================================================== *)
(** ** Representative records *)
(* ===================================================================== *)

(** A representative is a [Dict[str, str]]. *)
Abbreviation rep := (gmap string pystr).

(** [not rep.get(field)]: the key is absent or its string is empty. *)
Definition falsy_field (r : rep) (field : string) : bool :=
  match r !! field with
  | Some (_ :: _) => false
  | _ => true
  end.

(** [rep.get(field, "")] *)
Definition get_or_empty (r : rep) (field : string) : pystr :=
  default [] (r !! field).

(* ===================================================================== *)
(** ** validators/representative_validator.py *)
(* ===================================================================== *)

Module RepresentativeValidator.

Definition DATA_NOT_AVAILABLE : pystr := py "Dado não disponível no documento".

(** What the validator prints. *)
Inductive log_event :=
| Inconsistency (nome : option pystr) (main_field origin_field : string)
| MissingOrigin (nome : option pystr) (main_field origin_field : string).

Definition required_fields : list string :=
  [ "nome"; "cpf"; "cargo"; "endereco_residencia";
    "tipo_assinatura"; "origem_assinatura";
    "regras_representacao"; "origem_regras_representacao";
    "data_validade_regras"; "origem_data_validade" ].

Definition fill_field (r : rep) (field : string) : rep :=
  if falsy_field r field || pystr_eqb (strip (get_or_empty r field)) []
  then <[field := DATA_NOT_AVAILABLE]> r
  else r.

Definition _fill_empty_fields (r : rep) : rep :=
  delete "endereco" (fold_left fill_field required_fields r).

Definition field_pairs : list (string * string) :=
  [ ("tipo_assinatura", "origem_assinatura");
    ("regras_representacao", "origem_regras_representacao");
    ("data_validade_regras", "origem_data_validade") ].

(** One turn of the loop of [_validate_field_consistency], on the
    record and the log so far. *)
Definition check_pair (st : rep * list log_event) (pair : string * string)
  : rep * list log_event :=
  let '(r, log) := st in
  let '(main_field, origin_field) := pair in
  let main_value := get_or_empty r main_field in
  let origin_value := get_or_empty r origin_field in
  if pystr_eqb main_value DATA_NOT_AVAILABLE then
    if negb (pystr_eqb origin_value DATA_NOT_AVAILABLE)
    then (<[origin_field := DATA_NOT_AVAILABLE]> r,
          log ++ [Inconsistency (r !! "nome") main_field origin_field])
    else (r, log)
  else if negb (pystr_eqb main_value [])
          && negb (pystr_eqb main_value DATA_NOT_AVAILABLE) then
    if pystr_eqb origin_value DATA_NOT_AVAILABLE || pystr_eqb origin_value []
    then (r, log ++ [MissingOrigin (r !! "nome") main_field origin_field])
    else (r, log)
  else (r, log).

Definition _validate_field_consistency (r : rep) : rep * list log_event :=
  fold_left check_pair field_pairs (r, []).

(** The first loop of [validate_and_normalize] on one record. *)
Definition validate_record (r : rep) : rep * list log_event :=
  _validate_field_consistency (_fill_empty_fields r).

Definition procurador_terms : list pystr :=
  [ py "PROCURADOR"; py "OUTORGADO"; py "MANDATÁRIO"; py "MANDATARIO";
    py "PROCURACAO" ].

Definition is_procurador (r : rep) : bool :=
  let cargo := str_upper (get_or_empty r "cargo") in
  existsb (fun term => contains cargo term) procurador_terms.

(** What [_filter_procuradores] prints for a record it drops. *)
Inductive filter_event :=
| ProcuradorFiltered (nome cargo : option pystr).

Fixpoint _filter_procuradores (representatives : list rep)
  : list rep * list filter_event :=
  match representatives with
  | [] => ([], [])
  | r :: rest =>
      let '(filtered, log) := _filter_procuradores rest in
      if is_procurador r
      then (filtered, ProcuradorFiltered (r !! "nome") (r !! "cargo") :: log)
      else (r :: filtered, log)
  end.

(** The loop of [_remove_duplicates]; a record without a usable name
    is kept. *)
Fixpoint remove_duplicates_from (seen_names : gset pystr) (representatives : list rep)
  : list rep :=
  match representatives with
  | [] => []
  | r :: rest =>
      let nome_lower := strip (str_lower (get_or_empty r "nome")) in
      let sentinel := str_lower DATA_NOT_AVAILABLE in
      if negb (pystr_eqb nome_lower []) && negb (pystr_eqb nome_lower sentinel)
         && negb (bool_decide (nome_lower ∈ seen_names))
      then r :: remove_duplicates_from ({[ nome_lower ]} ∪ seen_names) rest
      else if pystr_eqb nome_lower [] || pystr_eqb nome_lower sentinel
      then r :: remove_duplicates_from seen_names rest
      else remove_duplicates_from seen_names rest
  end.

Definition _remove_duplicates (representatives : list rep) : list rep :=
  remove_duplicates_from ∅ representatives.

(** The result and what is printed, first by the loop over the
    records, then by the filter. *)
Definition validate_and_normalize (representatives : list rep)
  : list rep * list log_event * list filter_event :=
  match representatives with
  | [] => ([], [], [])
  | _ =>
      let validated := map validate_record representatives in
      let '(filtered, flog) := _filter_procuradores (map fst validated) in
      (_remove_duplicates filtered, concat (map snd validated), flog)
  end.

End RepresentativeValidator.

(* ===================================================================== *)
(** ** extractors/representative_extractor.py *)
(* ===================================================================== *)

Module RepresentativeExtractor.

Definition DATA_NOT_AVAILABLE : pystr := py "Dado não disponível no documento".

Definition PROCURADOR_KEYWORDS : list pystr :=
  [ py "PROCURADOR"; py "OUTORGADO"; py "MANDATÁRIO"; py "MANDATARIO" ].

Definition all_fields : list string :=
  [ "nome"; "cpf"; "cargo"; "endereco_residencia";
    "tipo_assinatura"; "origem_assinatura"; "regras_representacao";
    "origem_regras_representacao"; "data_validade_regras";
    "origem_data_validade" ].

(** [if field not in rep or not rep[field]: rep[field] = ...] *)
Definition fill_field (r : rep) (field : string) : rep :=
  if falsy_field r field then <[field := DATA_NOT_AVAILABLE]> r else r.

Definition fill_fields (r : rep) : rep := fold_left fill_field all_fields r.

Definition is_procurador (r : rep) : bool :=
  let cargo_upper := str_upper (get_or_empty r "cargo") in
  existsb (fun keyword => contains cargo_upper keyword) PROCURADOR_KEYWORDS.

(** The last loop: the records with a usable name, the first of each
    normalized name. *)
Fixpoint dedup (seen_names : gset pystr) (reps : list rep) : list rep :=
  match reps with
  | [] => []
  | r :: rest =>
      let nome := get_or_empty r "nome" in
      if negb (pystr_eqb nome []) && negb (pystr_eqb nome DATA_NOT_AVAILABLE) then
        let nome_normalized := str_upper (strip nome) in
        if bool_decide (nome_normalized ∈ seen_names) then dedup seen_names rest
        else r :: dedup ({[ nome_normalized ]} ∪ seen_names) rest
      else dedup seen_names rest
  end.

Definition validate_and_filter (representatives : list rep) : list rep :=
  match representatives with
  | [] => []
  | _ =>
      let filled := map fill_fields representatives in
      let filtered_representatives :=
        List.filter (fun r => negb (is_procurador r)) filled in
      dedup ∅ filtered_representatives
  end.

(** The loop of [calculate_count]. *)
Fixpoint count_valid (reps : list rep) (valid_count : nat) : nat :=
  match reps with
  | [] => valid_count
  | r :: rest =>
      let nome := get_or_empty r "nome" in
      count_valid rest
        (if negb (pystr_eqb nome []) && negb (pystr_eqb nome DATA_NOT_AVAILABLE)
         then S valid_count else valid_count)
  end.

Definition calculate_count (representatives : list rep) : nat :=
  match representatives with
  | [] => 0%nat
  | _ => count_valid representatives 0
  end.

(** [self.field_mappings], in the order of the dictionary. *)
Definition field_mappings : list (pystr * string) :=
  [ (py "Nome:", "nome"); (py "CPF:", "cpf"); (py "Cargo:", "cargo");
    (py "Endereço da residência:", "endereco_residencia");
    (py "Tipo de assinatura:", "tipo_assinatura");
    (py "Origem da assinatura:", "origem_assinatura");
    (py "Regras de representação:", "regras_representacao");
    (py "Origem das regras de representação:", "origem_regras_representacao");
    (py "Data de validade das regras:", "data_validade_regras");
    (py "Origem da data de validade:", "origem_data_validade") ].

(** The loop of [_update_representative_field]: the first prefix the
    line starts with gives the key, and the loop ends. *)
Fixpoint update_with (mappings : list (pystr * string)) (line : pystr)
    (current_rep : rep) : rep :=
  match mappings with
  | [] => current_rep
  | (prefix, field_key) :: rest =>
      if startswith line prefix
      then <[field_key := strip (slice_from line (length prefix))]> current_rep
      else update_with rest line current_rep
  end.

Definition _update_representative_field (line : pystr) (current_rep : rep) : rep :=
  update_with field_mappings line current_rep.

(** [line.replace('**', '')] *)
Fixpoint remove_bold (s : pystr) : pystr :=
  match s with
  | 42 :: 42 :: rest => remove_bold rest
  | c :: rest => c :: remove_bold rest
  | [] => []
  end.

(** The loop of [_find_representatives_section_start] from line [i]. *)
Fixpoint find_start (lines : list pystr) (i : nat) : option nat :=
  match lines with
  | [] => None
  | line :: rest =>
      let line_clean := str_lower (remove_bold (strip line)) in
      if startswith line_clean (py "representantes legais") then Some (S i)
      else find_start rest (S i)
  end.

Definition _find_representatives_section_start (lines : list pystr) : option nat :=
  find_start lines 0.

(** [if current_rep: representatives.append(current_rep)]: [None] and
    the empty dictionary are false. *)
Definition append_current (representatives : list rep) (current_rep : option rep)
  : list rep :=
  match current_rep with
  | Some r => if bool_decide (r = ∅) then representatives else representatives ++ [r]
  | None => representatives
  end.

(** The loop of [_parse_representatives_data] over the lines from the
    start index on. *)
Fixpoint parse_lines (lines : list pystr) (representatives : list rep)
    (current_rep : option rep) : list rep * option rep :=
  match lines with
  | [] => (representatives, current_rep)
  | raw :: rest =>
      let line := strip raw in
      match line with
      | [] => parse_lines rest representatives current_rep
      | _ =>
          if startswith line (py "Representante ")
          then parse_lines rest (append_current representatives current_rep) (Some ∅)
          else
            match current_rep with
            | Some r =>
                parse_lines rest representatives
                  (Some (_update_representative_field line r))
            | None => parse_lines rest representatives None
            end
      end
  end.

Definition _parse_representatives_data (lines : list pystr) (start_index : nat)
  : list rep :=
  let '(representatives, current_rep) :=
    parse_lines (skipn start_index lines) [] None in
  validate_and_filter (append_current representatives current_rep).

Definition extract_detailed_representatives (lines : list pystr) : list rep :=
  match _find_representatives_section_start lines with
  | None => []
  | Some start_index => _parse_representatives_data lines start_index
  end.

End RepresentativeExtractor.

(* ===================================================================== *)
(** ** Values of the output dictionary *)
(* ===================================================================== *)

(** The values a [Dict[str, Any]] of the pipeline holds: what
    [json.loads] and the extractors put under its keys. *)
Inductive pyval :=
| VNone
| VBool (b : bool)
| VInt (z : Z)
| VStr (s : pystr)
| VStrs (l : list pystr)
| VReps (l : list rep).

Abbreviation pydict := (gmap string pyval).

(** Truth value: [None], [False], [0], the empty string and the empty
    list are false. *)
Definition truthy (v : pyval) : bool :=
  match v with
  | VNone => false
  | VBool b => b
  | VInt z => negb (z =? 0)%Z
  | VStr s => negb (pystr_eqb s [])
  | VStrs l => match l with [] => false | _ => true end
  | VReps l => match l with [] => false | _ => true end
  end.

(** [len(v)] *)
Definition py_len (v : pyval) : result nat :=
  match v with
  | VStr s => Ok (length s)
  | VStrs l => Ok (length l)
  | VReps l => Ok (length l)
  | _ => Err TypeError
  end.

(** A loop over a list with a body that may raise. *)
Fixpoint fold_result {A B} (f : A -> B -> result A) (l : list B) (a : A) : result A :=
  match l with
  | [] => Ok a
  | b :: l' => a' ← f a b; fold_result f l' a'
  end.

Fixpoint map_result {A B} (f : A -> result B) (l : list A) : result (list B) :=
  match l with
  | [] => Ok []
  | a :: l' => b ← f a; bs ← map_result f l'; Ok (b :: bs)
  end.

(* ===================================================================== *)
(** ** processors/response_builder.py *)
(* ===================================================================== *)

(** [receipt.document_info], the dictionary [process_pdfs] builds with
    its five keys. *)
Record document_info := DocumentInfo {
  total_documents : nat;
  processed_documents : nat;
  is_multiple_documents : bool;
  exceeded_limit : bool;
  ignored_documents : list pystr
}.

(** The [document_metadata] block; an absent key is [None]. *)
Record metadata := Metadata {
  md_total_documents : nat;
  md_processed_documents : nat;
  md_is_multiple_documents : bool;
  md_processing_type : pystr;
  md_exceeded_limit : bool;
  md_warning : option pystr;
  md_ignored_documents : option (list pystr);
  md_priority_analysis : option pydict;
  md_changes_summary : option pystr;
  md_conflict_warnings : option (list pystr)
}.

Record response := Response {
  resp_id : pystr;
  resp_data : pydict;
  resp_document_metadata : option metadata
}.

(** [str(n)] of a non-negative integer. *)
Definition str_of_nat (n : nat) : pystr :=
  py (DecimalString.NilZero.string_of_uint (Nat.to_uint n)).

Module ResponseBuilder.

Definition DATA_NOT_AVAILABLE : pystr := py "Dado não disponível no documento".

Definition build_metadata (info : document_info)
    (priority_analysis : option pydict) (changes_summary : option pystr)
    (conflicts : option (list pystr)) : metadata :=
  let ignored := ignored_documents info in
  let over := exceeded_limit info && negb (bool_decide (ignored = [])) in
  {| md_total_documents := total_documents info;
     md_processed_documents := processed_documents info;
     md_is_multiple_documents := is_multiple_documents info;
     md_processing_type :=
       if is_multiple_documents info then py "LOTE" else py "ÚNICO";
     md_exceeded_limit := exceeded_limit info;
     md_warning :=
       if over then
         Some (py "Limite de 3 documentos excedido. Total recebido: "
               ++ str_of_nat (total_documents info) ++ py ". "
               ++ py "Processados: "
               ++ str_of_nat (processed_documents info) ++ py ". "
               ++ py "Ignorados: " ++ str_of_nat (length ignored))
       else None;
     md_ignored_documents :=
       if over then Some (map DocumentExtractor.file_name ignored) else None;
     md_priority_analysis :=
       match priority_analysis with
       | Some pa => if bool_decide (pa = ∅) then None else Some pa
       | None => None
       end;
     md_changes_summary :=
       if truthy_str changes_summary then changes_summary else None;
     md_conflict_warnings :=
       match conflicts with
       | Some (_ :: _) => conflicts
       | _ => None
       end |}.

(** The response object that [build_response] serializes with
    [json.dumps]. *)
Definition build_response (request_id : pystr) (data_out : pydict)
    (info : option document_info) (priority_analysis : option pydict)
    (changes_summary : option pystr) (conflicts : option (list pystr)) : response :=
  {| resp_id := request_id;
     resp_data := data_out;
     resp_document_metadata :=
       match info with
       | Some i => Some (build_metadata i priority_analysis changes_summary conflicts)
       | None => None
       end |}.

Definition required_fields : list string :=
  [ "junta_comercial"; "cnpj"; "razao_social"; "natureza_juridica";
    "endereco"; "cotas_societarias"; "representantes_legais";
    "referencia_da_origem"; "data_assinatura"; "poderes_e_representacao" ].

(** [if field not in data_out or not data_out[field] or
    data_out[field].strip() == ""]; only a string has [strip]. *)
Definition require_field (data_out : pydict) (field : string) : result pydict :=
  match data_out !! field with
  | None => Ok (<[field := VStr DATA_NOT_AVAILABLE]> data_out)
  | Some v =>
      if negb (truthy v) then Ok (<[field := VStr DATA_NOT_AVAILABLE]> data_out)
      else match v with
           | VStr s =>
               if pystr_eqb (strip s) []
               then Ok (<[field := VStr DATA_NOT_AVAILABLE]> data_out)
               else Ok data_out
           | _ => Err AttributeError
           end
  end.

Definition validate_required_fields (data_out : pydict) : result pydict :=
  d1 ← fold_result require_field required_fields data_out;
  let d2 := match d1 !! "representantes_detalhados" with
            | None => <["representantes_detalhados" := VReps []]> d1
            | Some _ => d1
            end in
  match d2 !! "quantidade_representantes" with
  | None =>
      n ← py_len (default (VReps []) (d2 !! "representantes_detalhados"));
      Ok (<["quantidade_representantes" := VInt (Z.of_nat n)]> d2)
  | Some _ => Ok d2
  end.

(** [cnpj_extractor.normalize(value)]: a false value gives the empty
    string before [re.sub] looks at it; [re.sub] wants a string. *)
Definition normalize_cnpj_value (v : pyval) : result pystr :=
  if negb (truthy v) then Ok []
  else match v with
       | VStr s => Ok (CNPJExtractor.normalize s)
       | _ => Err TypeError
       end.

(** [date_extractor.normalize_any(value)]: [None] unless a string. *)
Definition normalize_any_value (v : pyval) : option pystr :=
  match v with
  | VStr s => DateExtractor.normalize_any s
  | _ => None
  end.

Definition normalize_rep_date (r : rep) : rep :=
  match r !! "data_validade_regras" with
  | Some d =>
      match DateExtractor.normalize_any d with
      | Some normalized =>
          if truthy_str (Some normalized)
          then <["data_validade_regras" := normalized]> r
          else r
      | None => r
      end
  | None => r
  end.

(** The loop over [data_out["representantes_detalhados"]]: on a list
    of strings, [in] is the substring test and indexing by a key
    raises; on a string the elements are single characters. *)
Definition normalize_reps (v : pyval) : result pyval :=
  match v with
  | VReps l => Ok (VReps (map normalize_rep_date l))
  | VStrs l =>
      if existsb (fun s => contains s (py "data_validade_regras")) l
      then Err TypeError else Ok v
  | VStr _ => Ok v
  | _ => Err TypeError
  end.

Definition normalize_output (data_out : pydict) : result pydict :=
  d1 ← match data_out !! "cnpj" with
       | Some v => c ← normalize_cnpj_value v; Ok (<["cnpj" := VStr c]> data_out)
       | None => Ok data_out
       end;
  let d2 := match d1 !! "data_assinatura" with
            | Some v =>
                match normalize_any_value v with
                | Some normalized =>
                    if truthy_str (Some normalized)
                    then <["data_assinatura" := VStr normalized]> d1
                    else d1
                | None => d1
                end
            | None => d1
            end in
  match d2 !! "representantes_detalhados" with
  | Some v => v' ← normalize_reps v; Ok (<["representantes_detalhados" := v']> d2)
  | None => Ok d2
  end.

Definition string_fields : list string :=
  [ "junta_comercial"; "cnpj"; "razao_social"; "natureza_juridica";
    "endereco"; "cotas_societarias"; "representantes_legais";
    "referencia_da_origem"; "data_assinatura"; "poderes_e_representacao" ].

Definition clean_field (data_out : pydict) (field : string) : pydict :=
  match data_out !! field with
  | Some (VStr s) => <[field := VStr (join (py " ") (split_ws s))]> data_out
  | _ => data_out
  end.

Definition clean_output (data_out : pydict) : pydict :=
  fold_left clean_field string_fields data_out.

End ResponseBuilder.

(* ===================================================================== *)
(** ** processors/gemini_response_processor.py and
       processors/procuracao_processor.py *)
(* ===================================================================== *)

Module GeminiResponseProcessor.

Definition DATA_NOT_AVAILABLE : pystr := py "Dado não disponível no documento".

(** The loop of [consolidate_poderes_representacao]: one entry
    "name: rules" for each record with rules. *)
Fixpoint poderes_list (reps : list rep) : list pystr :=
  match reps with
  | [] => []
  | r :: rest =>
      let regras := get_or_empty r "regras_representacao" in
      if negb (pystr_eqb regras []) && negb (pystr_eqb regras DATA_NOT_AVAILABLE)
      then
        let nome := default (py "Representante") (r !! "nome") in
        (nome ++ py ": " ++ regras) :: poderes_list rest
      else poderes_list rest
  end.

Definition consolidate_poderes_representacao (representantes_detalhados : list rep)
  : pystr :=
  match representantes_detalhados with
  | [] => DATA_NOT_AVAILABLE
  | _ =>
      match poderes_list representantes_detalhados with
      | [] => DATA_NOT_AVAILABLE
      | l => join (py "; ") l
      end
  end.

End GeminiResponseProcessor.

Module ProcuracaoProcessor.

Definition DATA_NOT_AVAILABLE : pystr := py "Dado não disponível no documento".

Definition _get_separator_for_representatives (current_representatives : pystr) : pystr :=
  match current_representatives with
  | [] => []
  | _ =>
      if existsb (N.eqb 10) current_representatives then py (String "010"%char EmptyString)
      else py ", "
  end.

(** The string under a key of the record.  An absent key gives the
    empty string, and a false value ([None], [0], an empty list) is
    treated by both functions as the empty string is; [None] when the
    key holds a true value that is no string, which this model does
    not follow ([_process_representatives] has stored strings under
    both keys when the augmenter runs). *)
Definition text_of (data_out : pydict) (key : string) : option pystr :=
  match data_out !! key with
  | None => Some []
  | Some (VStr s) => Some s
  | Some v => if truthy v then None else Some []
  end.

Definition _add_attorneys_to_representatives (data_out : pydict)
    (nomes : list pystr) : option pydict :=
  match nomes with
  | [] => Some data_out
  | _ =>
      current_representatives ← text_of data_out "representantes_legais";
      let separator := _get_separator_for_representatives current_representatives in
      let attorneys_str :=
        join separator (map (fun nome => nome ++ py " (Procurador)") nomes) in
      match current_representatives with
      | [] => Some (<["representantes_legais" := VStr attorneys_str]> data_out)
      | _ =>
          Some (<["representantes_legais" :=
                    VStr (current_representatives ++ separator ++ attorneys_str)]> data_out)
      end
  end.

Definition _add_validity_to_rules (data_out : pydict) (validade_iso : option pystr)
  : option pydict :=
  if negb (truthy_str validade_iso) then Some data_out
  else
    let validity_note := py "Validade da procuração: " ++ default [] validade_iso in
    current_rules ← text_of data_out "poderes_e_representacao";
    if negb (pystr_eqb current_rules [])
       && negb (pystr_eqb current_rules DATA_NOT_AVAILABLE)
    then Some (<["poderes_e_representacao" :=
                   VStr (current_rules ++ py ". " ++ validity_note)]> data_out)
    else Some (<["poderes_e_representacao" := VStr validity_note]> data_out).

(** [augment_with_procuracao] after its three searches of the OCR
    text: [has_procuracao] is the result of [_has_procuracao], [nomes]
    of [_extract_attorney_names] and [validade] of
    [extract_validity_date]. *)
Definition augment (has_procuracao : bool) (nomes : list pystr)
    (validade : option pystr) (data_out : pydict) : option pydict :=
  if negb has_procuracao then Some data_out
  else
    d1 ← match nomes with
         | [] => Some data_out
         | _ => _add_attorneys_to_representatives data_out nomes
         end;
    if truthy_str validade then _add_validity_to_rules d1 validade else Some d1.

End ProcuracaoProcessor.

(* ===================================================================== *)
(** ** core/processor.py *)
(* ===================================================================== *)

Module CoreProcessor.

Definition MAX_DOCUMENTS : nat := 3.

(** [process_pdfs] from [pdf_uris = data.get('pdf_uris', [])] to the
    document info: the name [pdf_uris] is rebound to its first three
    elements before the info is built from it.  The result is the info
    and the list the processing loop runs over. *)
Definition plan_documents (pdf_uris : list pystr) : document_info * list pystr :=
  let total_docs := length pdf_uris in
  let pdf_uris :=
    if (MAX_DOCUMENTS <? total_docs)%nat then firstn MAX_DOCUMENTS pdf_uris
    else pdf_uris in
  ({| total_documents := total_docs;
      processed_documents := length pdf_uris;
      is_multiple_documents := (1 <? length pdf_uris)%nat;
      exceeded_limit := (MAX_DOCUMENTS <? total_docs)%nat;
      ignored_documents :=
        if (MAX_DOCUMENTS <? total_docs)%nat then skipn MAX_DOCUMENTS pdf_uris
        else [] |},
   pdf_uris).

(** The first three statements of [build_final_response]. *)
Definition finalize_data (data_out : pydict) : result pydict :=
  d1 ← ResponseBuilder.normalize_output data_out;
  d2 ← ResponseBuilder.validate_required_fields d1;
  Ok (ResponseBuilder.clean_output d2).

(** [rep.get('nome') and rep['nome'] != "Dado não disponível no
    documento"] *)
Definition has_name (r : rep) : bool :=
  negb (falsy_field r "nome")
  && negb (pystr_eqb (get_or_empty r "nome") (py "Dado não disponível no documento")).

(** [_process_representatives]: the four keys it writes, from the
    lines of the model's answer. *)
Definition _process_representatives (gemini_response : pystr) (data_out : pydict)
  : pydict :=
  let representatives :=
    RepresentativeExtractor.extract_detailed_representatives
      (split_char 10 gemini_response) in
  let count := RepresentativeExtractor.calculate_count representatives in
  let poderes :=
    GeminiResponseProcessor.consolidate_poderes_representacao representatives in
  let names :=
    map (fun r => get_or_empty r "nome") (List.filter has_name representatives) in
  <["representantes_legais" := VStr (join [10] names)]>
    (<["poderes_e_representacao" := VStr poderes]>
       (<["quantidade_representantes" := VInt (Z.of_nat count)]>
          (<["representantes_detalhados" := VReps representatives]> data_out))).

End CoreProcessor.

(* ===================================================================== *)
(** ** utils/formatters.py and validators/date_validator.py *)
(* ===================================================================== *)

Module Formatters.

(** [normalize_cnpj]: the text itself when its digits are not
    fourteen. *)
Definition normalize_cnpj (s : pystr) : pystr :=
  match s with
  | [] => []
  | _ =>
      let digits := CNPJExtractor.only_digits s in
      if negb (length digits =? 14)%nat then s
      else
        slice digits 0 2 ++ py "."
        ++ slice digits 2 5 ++ py "."
        ++ slice digits 5 8 ++ py "/"
        ++ slice digits 8 12 ++ py "-"
        ++ slice digits 12 14
  end.

(** [iso_to_br_date]; the unpacking of the split into three names
    raises [ValueError] on any other number of parts. *)
Definition iso_to_br_date (iso_date : pystr) : result pystr :=
  match iso_date with
  | [] => Ok iso_date
  | _ =>
      match re_match false DateExtractor.ISO_DATE_PATTERN iso_date with
      | None => Ok iso_date
      | Some _ =>
          match split_char 45 iso_date with
          | [year; month; day] => Ok (day ++ py "/" ++ month ++ py "/" ++ year)
          | _ => Err ValueError
          end
      end
  end.

End Formatters.

Module DateValidator.

(** [is_valid_date]: the conjunction is evaluated left to right, and
    a [ValueError] of [int] anywhere gives [False]. *)
Definition is_valid_date (day month year : pystr) : bool :=
  match py_int day with
  | None => false
  | Some d =>
      if negb ((1 <=? d) && (d <=? 31))%Z then false
      else
        match py_int month with
        | None => false
        | Some m =>
            if negb ((1 <=? m) && (m <=? 12))%Z then false
            else
              match py_int year with
              | None => false
              | Some y => (1900 <=? y)%Z
              end
        end
  end.

End DateValidator.

(* ===================================================================== *)
(** ** processors/multi_document_processor.py *)
(* ===================================================================== *)

(** The metadata dictionary of one processed file. *)
Record doc_meta := DocMeta {
  dm_document_index : nat;
  dm_file_name : pystr;
  dm_document_type : pystr;
  dm_signature_date : option pystr;
  dm_registration_date : option pystr;
  dm_document_number : option pystr;
  dm_priority_score : Z
}.

Module MultiDocumentProcessor.

Definition ACCESSORY_TYPES : list pystr :=
  [ py "PROCURACAO"; py "ADITAMENTO"; py "CERTIDAO"; py "FICHA_CADASTRAL" ].

Definition CORPORATE_TYPES : list pystr :=
  [ py "ESTATUTO_SOCIAL"; py "ATA_DE_ASSEMBLEIA"; py "ATA_DE_ELEICAO";
    py "CONTRATO_SOCIAL" ].

Definition _is_accessory_document (doc_type : pystr) : bool :=
  existsb (pystr_eqb doc_type) ACCESSORY_TYPES.

Definition _is_corporate_document (doc_type : pystr) : bool :=
  existsb (pystr_eqb doc_type) CORPORATE_TYPES.

Definition _determine_extraction_strategy (highest_priority_type : pystr)
    (has_corporate : bool) : pystr :=
  if _is_accessory_document highest_priority_type then
    if has_corporate
    then py "Documento mais recente é acessório - complementar dados do documento societário"
    else py "Documento acessório sem documento societário - extrair o que for possível"
  else if _is_corporate_document highest_priority_type
  then py "Documento societário mais recente - usar como fonte principal"
  else py "Documento genérico - aplicar extração padrão".

(** [sorted(processed_files, key=priority_score, reverse=True)]: the
    stable sort by decreasing score; a score is a time stamp, negative
    before 1970, or 0 for no date. *)
Fixpoint insert_by_priority (doc : doc_meta) (sorted : list doc_meta) : list doc_meta :=
  match sorted with
  | [] => [doc]
  | other :: rest =>
      if (dm_priority_score other <=? dm_priority_score doc)%Z
      then doc :: other :: rest
      else other :: insert_by_priority doc rest
  end.

Fixpoint sorted_by_priority (processed_files : list doc_meta) : list doc_meta :=
  match processed_files with
  | [] => []
  | doc :: rest => insert_by_priority doc (sorted_by_priority rest)
  end.

(** The first corporate document, in the order received. *)
Definition corporate_doc (processed_files : list doc_meta) : option doc_meta :=
  List.find (fun doc => _is_corporate_document (dm_document_type doc)) processed_files.

(** What [analyze_document_priority] reports: nothing for no file,
    else the document of highest priority, the corporate reference,
    the strategy, the flag and the documents by priority. *)
Record priority_analysis := PriorityAnalysis {
  pa_most_recent_document : doc_meta;
  pa_corporate_document_reference : option doc_meta;
  pa_extraction_strategy : pystr;
  pa_complementation_needed : bool;
  pa_documents_by_priority : list doc_meta
}.

Definition analyze_document_priority (processed_files : list doc_meta)
  : option priority_analysis :=
  match sorted_by_priority processed_files with
  | [] => None
  | highest_priority :: _ =>
      let highest_priority_type := dm_document_type highest_priority in
      let corporate := corporate_doc processed_files in
      Some {| pa_most_recent_document := highest_priority;
              pa_corporate_document_reference := corporate;
              pa_extraction_strategy :=
                _determine_extraction_strategy highest_priority_type
                  (bool_decide (is_Some corporate));
              pa_complementation_needed :=
                _is_accessory_document highest_priority_type;
              pa_documents_by_priority := sorted_by_priority processed_files |}
  end.

End MultiDocumentProcessor.

(* ===================================================================== *)
(** * Properties *)
(* ===================================================================== *)

(* ===================================================================== *)
(** ** Character classes *)
(* ===================================================================== *)

Section CharacterClasses.

Lemma in_ranges_spec (ranges : list (N * N)) (c : N) :
  in_ranges ranges c = true
  <-> exists lo hi, In (lo, hi) ranges /\ lo <= c <= hi.
Proof.
  unfold in_ranges. rewrite existsb_exists. split.
  - intros ([lo hi] & Hin & H). cbn [fst snd] in H. unfold in_range in H.
    apply andb_true_iff in H as [H1 H2]. apply N.leb_le in H1, H2.
    exists lo, hi. auto.
  - intros (lo & hi & Hin & H1 & H2). exists (lo, hi). split; [exact Hin|].
    cbn [fst snd]. unfold in_range. apply andb_true_iff.
    split; apply N.leb_le; assumption.
Qed.

(** No range of the first list meets a range of the second. *)
Definition ranges_apart (rs1 rs2 : list (N * N)) : bool :=
  forallb (fun r1 =>
             forallb (fun r2 => (snd r1 <? fst r2) || (snd r2 <? fst r1)) rs2)
    rs1.

Lemma ranges_apart_spec rs1 rs2 c :
  ranges_apart rs1 rs2 = true -> in_ranges rs1 c = true -> in_ranges rs2 c = false.
Proof.
  intros Ha H1. destruct (in_ranges rs2 c) eqn:H2; [|reflexivity].
  apply in_ranges_spec in H1 as (lo1 & hi1 & Hin1 & Hc1).
  apply in_ranges_spec in H2 as (lo2 & hi2 & Hin2 & Hc2).
  unfold ranges_apart in Ha. rewrite forallb_forall in Ha.
  specialize (Ha _ Hin1). rewrite forallb_forall in Ha. specialize (Ha _ Hin2).
  cbn [fst snd] in Ha. apply orb_true_iff in Ha as [Ha|Ha]; apply N.ltb_lt in Ha; lia.
Qed.

(** Every range of the first list lies in a range of the second. *)
Definition ranges_within (rs1 rs2 : list (N * N)) : bool :=
  forallb (fun r1 =>
             existsb (fun r2 => (fst r2 <=? fst r1) && (snd r1 <=? snd r2)) rs2)
    rs1.

Lemma ranges_within_spec rs1 rs2 c :
  ranges_within rs1 rs2 = true -> in_ranges rs1 c = true -> in_ranges rs2 c = true.
Proof.
  intros Hw H1. apply in_ranges_spec in H1 as (lo1 & hi1 & Hin1 & Hc1).
  unfold ranges_within in Hw. rewrite forallb_forall in Hw.
  specialize (Hw _ Hin1). apply existsb_exists in Hw as ([lo2 hi2] & Hin2 & H).
  cbn [fst snd] in H. apply andb_true_iff in H as [Ha Hb]. apply N.leb_le in Ha, Hb.
  apply in_ranges_spec. exists lo2, hi2. split; [exact Hin2|lia].
Qed.

(** A decimal digit is an ASCII digit or lies beyond U+0660. *)
Lemma digit_bounds c : is_digit c = true -> 48 <= c <= 57 \/ 1632 <= c.
Proof.
  intros H. apply in_ranges_spec in H as (lo & hi & Hin & Hc).
  assert (Hall : forallb (fun r => ((48 <=? fst r) && (snd r <=? 57)) || (1632 <=? fst r))
                   decimal_ranges = true) by (vm_compute; reflexivity).
  rewrite forallb_forall in Hall. specialize (Hall _ Hin). cbn [fst snd] in Hall.
  apply orb_true_iff in Hall as [Hr|Hr].
  - apply andb_true_iff in Hr as [Ha Hb]. apply N.leb_le in Ha, Hb. left. lia.
  - apply N.leb_le in Hr. right. lia.
Qed.

Lemma ascii_digit c : 48 <= c <= 57 -> is_digit c = true.
Proof.
  intros H. apply in_ranges_spec. exists 48, 57. split; [left; reflexivity|exact H].
Qed.

Lemma digit_not_space c : is_digit c = true -> is_space c = false.
Proof. apply ranges_apart_spec. vm_compute. reflexivity. Qed.

Lemma digit_is_word c : is_digit c = true -> is_word c = true.
Proof.
  intros H. unfold is_word.
  rewrite (ranges_within_spec decimal_ranges alnum_ranges c); [reflexivity| |exact H].
  vm_compute. reflexivity.
Qed.

Lemma digit_isdigit c : is_digit c = true -> char_isdigit c = true.
Proof. apply ranges_within_spec. vm_compute. reflexivity. Qed.

End CharacterClasses.

Lemma pystr_eqb_eq (a b : pystr) : pystr_eqb a b = true <-> a = b.
Proof. unfold pystr_eqb. apply bool_decide_eq_true. Qed.

Lemma pystr_eqb_neq (a b : pystr) : pystr_eqb a b = false <-> a <> b.
Proof. unfold pystr_eqb. apply bool_decide_eq_false. Qed.

(* ===================================================================== *)
(** ** The document cap *)
(* ===================================================================== *)

Section DocumentCap.
Import CoreProcessor.

(** Three documents go to the processing loop when more are received. *)
Lemma plan_documents_over_limit (pdf_uris : list pystr) :
  (MAX_DOCUMENTS < length pdf_uris)%nat ->
  snd (plan_documents pdf_uris) = firstn 3 pdf_uris
  /\ processed_documents (fst (plan_documents pdf_uris)) = 3%nat
  /\ exceeded_limit (fst (plan_documents pdf_uris)) = true.
Proof.
  intros H. unfold plan_documents, MAX_DOCUMENTS in *. cbn [fst snd].
  destruct (Nat.ltb_spec 3 (length pdf_uris)) as [_|Hle]; [|lia].
  cbn [processed_documents exceeded_limit].
  repeat split. rewrite length_firstn. lia.
Qed.

(** The list of ignored documents is cut from the list that has
    already been shortened, so it is empty for every batch. *)
Lemma plan_documents_ignored_nil (pdf_uris : list pystr) :
  ignored_documents (fst (plan_documents pdf_uris)) = [].
Proof.
  unfold plan_documents, MAX_DOCUMENTS. cbn [fst ignored_documents].
  destruct (3 <? length pdf_uris)%nat; [|reflexivity].
  apply skipn_all2. rewrite length_firstn. lia.
Qed.

(** Hence no batch gets the warning or the list of ignored names. *)
Lemma no_batch_gets_warning (pdf_uris : list pystr) pa cs cf :
  let md := ResponseBuilder.build_metadata (fst (plan_documents pdf_uris)) pa cs cf in
  md_warning md = None /\ md_ignored_documents md = None.
Proof.
  unfold ResponseBuilder.build_metadata. cbn [md_warning md_ignored_documents].
  rewrite plan_documents_ignored_nil.
  rewrite bool_decide_eq_true_2 by reflexivity.
  rewrite andb_false_r. split; reflexivity.
Qed.

(** C1: a batch of four URIs is cut to three and flagged as over the
    limit, but the metadata block carries neither the warning nor the
    ignored file name [d.pdf] that the claim expects. *)
Theorem C1_fourth_document_not_listed :
  let pdf_uris := [ py "s3://bucket/in/a.pdf"; py "s3://bucket/in/b.pdf";
                    py "s3://bucket/in/c.pdf"; py "s3://bucket/in/d.pdf" ] in
  let plan := plan_documents pdf_uris in
  let md := ResponseBuilder.build_metadata (fst plan) None None None in
  snd plan = firstn 3 pdf_uris
  /\ md_exceeded_limit md = true
  /\ md_processed_documents md = 3%nat
  /\ md_warning md = None
  /\ md_ignored_documents md = None
  /\ md_ignored_documents md <> Some [ py "d.pdf" ].
Proof. vm_compute. repeat split; discriminate. Qed.

End DocumentCap.

(* ===================================================================== *)
(** ** Signature date, level 0 *)
(* ===================================================================== *)

Section SignatureDate.
Import DateExtractor.

(** C2: on the text of the scenario neither level finds a date: after
    NFKD the cedilla is a combining mark, which [[a-z]+] does not
    match.  With the unaccented spelling the date is found. *)
Theorem C2_marco_with_cedilla_not_resolved :
  extract_signature_date_level_0 (py "assinado em 10 de março de 2023") = None
  /\ find_signature_date_by_proximity (py "assinado em 10 de março de 2023") = None
  /\ extract_signature_date_level_0 (py "assinado em 10 de marco de 2023")
     = Some (py "2023-03-10").
Proof. vm_compute. repeat split. Qed.

End SignatureDate.

(* ===================================================================== *)
(** ** Document classification *)
(* ===================================================================== *)

Section Classification.
Import DocumentExtractor.

Definition procuration_name (doc_name : pystr) : bool :=
  contains doc_name (py "Procuração")
  || contains (str_upper doc_name) (py "PROCURAÇÃO").

Lemma first_name_not_procuration text rules doc_name :
  first_name text rules = Some doc_name -> procuration_name doc_name = false.
Proof.
  induction rules as [|[[pattern name] code] rules IH]; cbn [first_name].
  - discriminate.
  - destruct (re_search false pattern text).
    + fold (procuration_name name).
      destruct (procuration_name name) eqn:E; [exact IH|].
      intros [= <-]. exact E.
    + exact IH.
Qed.

(** The names of the rules that match a normalized text. *)
Definition matching_rules (text : pystr) : list pystr :=
  map (fun rule => snd (fst rule))
    (List.filter (fun rule => bool_decide (is_Some (re_search false (fst (fst rule)) text)))
       DOCUMENT_PATTERNS).

(** C6: the display name is never that of a power of attorney, and on
    the text "PROCURAÇÃO", which only the procuration rule matches,
    the type code is still [PROCURACAO] while the display name is the
    fallback. *)
Theorem C6_display_name_never_procuration :
  (forall ocr_text, extract_document_name ocr_text <> py "Procuração")
  /\ (exists text,
        matching_rules (re_sub false (re "\s+") (py " ") (str_upper text))
          = [ py "Procuração" ]
        /\ identify_document_type text = py "PROCURACAO"
        /\ extract_document_name text = DATA_NOT_AVAILABLE).
Proof.
  split.
  - intros ocr_text H.
    assert (Hp : procuration_name (extract_document_name ocr_text) = false).
    { unfold extract_document_name. destruct ocr_text as [|c t]; [reflexivity|].
      destruct (first_name _ DOCUMENT_PATTERNS) as [n|] eqn:E.
      - eapply first_name_not_procuration; exact E.
      - reflexivity. }
    rewrite H in Hp. vm_compute in Hp. discriminate.
  - exists (py "PROCURAÇÃO"). vm_compute. repeat split.
Qed.

End Classification.

(* ===================================================================== *)
(** ** Representatives: filtering and counting *)
(* ===================================================================== *)

Section Representatives.
Import RepresentativeExtractor.

(** A record with a usable name. *)
Definition named (r : rep) : Prop :=
  exists nome, r !! "nome" = Some nome /\ nome <> [] /\ nome <> DATA_NOT_AVAILABLE.

Definition usable_name (r : rep) : bool :=
  negb (pystr_eqb (get_or_empty r "nome") [])
  && negb (pystr_eqb (get_or_empty r "nome") DATA_NOT_AVAILABLE).

Lemma usable_name_named r : usable_name r = true -> named r.
Proof.
  unfold usable_name, get_or_empty, named. intros H.
  apply andb_true_iff in H as [H1 H2].
  apply negb_true_iff in H1, H2.
  apply pystr_eqb_neq in H1, H2.
  destruct (r !! "nome") as [n|].
  - exists n. auto.
  - exfalso. apply H1. reflexivity.
Qed.

Lemma dedup_usable seen reps : Forall (fun r => usable_name r = true) (dedup seen reps).
Proof.
  revert seen. induction reps as [|r reps IH]; intros seen; cbn [dedup].
  - constructor.
  - fold (usable_name r). destruct (usable_name r) eqn:E; [|apply IH].
    case_bool_decide; [apply IH|].
    constructor; [exact E|apply IH].
Qed.

Lemma count_valid_usable reps acc :
  Forall (fun r => usable_name r = true) reps ->
  count_valid reps acc = (acc + length reps)%nat.
Proof.
  intros H. revert acc. induction H as [|r reps Hr _ IH]; intros acc; cbn [count_valid length].
  - lia.
  - fold (usable_name r). rewrite Hr, IH. lia.
Qed.

(** C9: every record that [validate_and_filter] returns has a name
    that is neither empty nor the sentinel, and [calculate_count] of
    the returned list is its length. *)
Theorem C9_filtered_records_are_named (representatives : list rep) :
  Forall named (validate_and_filter representatives)
  /\ calculate_count (validate_and_filter representatives)
     = length (validate_and_filter representatives).
Proof.
  assert (H : Forall (fun r => usable_name r = true) (validate_and_filter representatives)).
  { unfold validate_and_filter. destruct representatives; [constructor|].
    apply dedup_usable. }
  split.
  - eapply Forall_impl; [exact H|]. intros r. apply usable_name_named.
  - unfold calculate_count.
    destruct (validate_and_filter representatives) as [|r l] eqn:E; [reflexivity|].
    rewrite count_valid_usable by exact H. reflexivity.
Qed.

End Representatives.

(* ===================================================================== *)
(** ** Representatives: field and origin *)
(* ===================================================================== *)

Section Consistency.
Import RepresentativeValidator.

(** A real value: neither empty nor the sentinel. *)
Definition real_value (v : pystr) : Prop := v <> [] /\ v <> DATA_NOT_AVAILABLE.

Lemma check_pair_fix r log m o :
  get_or_empty r m = DATA_NOT_AVAILABLE ->
  get_or_empty r o <> DATA_NOT_AVAILABLE ->
  check_pair (r, log) (m, o)
  = (<[o := DATA_NOT_AVAILABLE]> r, log ++ [Inconsistency (r !! "nome") m o]).
Proof.
  intros Hm Ho. unfold check_pair.
  apply pystr_eqb_eq in Hm. apply pystr_eqb_neq in Ho.
  rewrite Hm, Ho. reflexivity.
Qed.

Lemma check_pair_flag r log m o :
  real_value (get_or_empty r m) ->
  get_or_empty r o = DATA_NOT_AVAILABLE ->
  check_pair (r, log) (m, o) = (r, log ++ [MissingOrigin (r !! "nome") m o]).
Proof.
  intros [Hne Hm] Ho. unfold check_pair.
  apply pystr_eqb_neq in Hne, Hm. apply pystr_eqb_eq in Ho.
  rewrite Hm, Hne, Ho. reflexivity.
Qed.

(** A turn of the loop leaves every key but its origin field alone
    and keeps what has been logged. *)
Lemma check_pair_other st p k :
  snd p <> k -> fst (check_pair st p) !! k = fst st !! k.
Proof.
  destruct st as [r log], p as [m o]. cbn [fst snd]. intros Hk.
  unfold check_pair.
  repeat match goal with
         | |- context [if ?b then _ else _] => destruct b
         end; cbn [fst]; try reflexivity.
  apply lookup_insert_ne. exact Hk.
Qed.

Lemma check_pair_log st p e :
  In e (snd st) -> In e (snd (check_pair st p)).
Proof.
  destruct st as [r log], p as [m o]. cbn [snd]. intros He.
  unfold check_pair.
  repeat match goal with
         | |- context [if ?b then _ else _] => destruct b
         end; cbn [snd]; try exact He; apply in_or_app; left; exact He.
Qed.

Lemma fold_check_other pairs st k :
  Forall (fun p => snd p <> k) pairs ->
  fst (fold_left check_pair pairs st) !! k = fst st !! k.
Proof.
  intros H. revert st. induction H as [|p pairs Hp _ IH]; intros st; cbn [fold_left].
  - reflexivity.
  - rewrite IH. apply check_pair_other. exact Hp.
Qed.

Lemma fold_check_log pairs st e :
  In e (snd st) -> In e (snd (fold_left check_pair pairs st)).
Proof.
  revert st. induction pairs as [|p pairs IH]; intros st He; cbn [fold_left].
  - exact He.
  - apply IH. apply check_pair_log. exact He.
Qed.

Lemma get_or_empty_lookup (r r' : rep) k :
  r' !! k = r !! k -> get_or_empty r' k = get_or_empty r k.
Proof. unfold get_or_empty. intros ->. reflexivity. Qed.

(** The pair [(m, o)] in the middle of a loop whose other turns
    write neither [m], [o] nor the name. *)
Lemma fold_check_pair_spec pre post m o (r : rep) :
  m <> o ->
  Forall (fun p => snd p <> m /\ snd p <> o /\ snd p <> "nome") pre ->
  Forall (fun p => snd p <> m /\ snd p <> o) post ->
  let st := fold_left check_pair (pre ++ (m, o) :: post) (r, []) in
  (get_or_empty r m = DATA_NOT_AVAILABLE ->
   get_or_empty r o <> DATA_NOT_AVAILABLE ->
   fst st !! o = Some DATA_NOT_AVAILABLE
   /\ fst st !! m = r !! m
   /\ In (Inconsistency (r !! "nome") m o) (snd st))
  /\ (real_value (get_or_empty r m) ->
      get_or_empty r o = DATA_NOT_AVAILABLE ->
      fst st !! m = r !! m
      /\ fst st !! o = r !! o
      /\ In (MissingOrigin (r !! "nome") m o) (snd st)).
Proof.
  intros Hmo Hpre Hpost st. subst st.
  rewrite fold_left_app. cbn [fold_left].
  destruct (fold_left check_pair pre (r, [])) as [r1 log1] eqn:E1.
  assert (Hk : forall k, Forall (fun p : string * string => snd p <> k) pre ->
                         r1 !! k = r !! k).
  { intros k Hf. change r1 with (fst (r1, log1)). rewrite <- E1.
    apply (fold_check_other pre (r, []) k Hf). }
  assert (Hm1 : r1 !! m = r !! m).
  { apply Hk. eapply Forall_impl; [exact Hpre|]. intros p Hp; apply Hp. }
  assert (Ho1 : r1 !! o = r !! o).
  { apply Hk. eapply Forall_impl; [exact Hpre|]. intros p Hp; apply Hp. }
  assert (Hn1 : r1 !! "nome" = r !! "nome").
  { apply Hk. eapply Forall_impl; [exact Hpre|]. intros p Hp; apply Hp. }
  assert (Hpm : Forall (fun p : string * string => snd p <> m) post).
  { eapply Forall_impl; [exact Hpost|]. intros p Hp; apply Hp. }
  assert (Hpo : Forall (fun p : string * string => snd p <> o) post).
  { eapply Forall_impl; [exact Hpost|]. intros p Hp; apply Hp. }
  split.
  - intros Hm Ho.
    rewrite (check_pair_fix r1 log1 m o)
      by (rewrite ?(get_or_empty_lookup r r1 m Hm1), ?(get_or_empty_lookup r r1 o Ho1);
          assumption).
    rewrite !fold_check_other by assumption. cbn [fst].
    rewrite lookup_insert_eq, lookup_insert_ne by (intros Heq; apply Hmo; symmetry; exact Heq).
    repeat split; [exact Hm1|].
    apply fold_check_log. cbn [snd]. apply in_or_app. right.
    rewrite Hn1. left. reflexivity.
  - intros Hm Ho.
    rewrite (check_pair_flag r1 log1 m o)
      by (rewrite ?(get_or_empty_lookup r r1 m Hm1), ?(get_or_empty_lookup r r1 o Ho1);
          assumption).
    rewrite !fold_check_other by assumption. cbn [fst].
    repeat split; [exact Hm1|exact Ho1|].
    apply fold_check_log. cbn [snd]. apply in_or_app. right.
    rewrite Hn1. left. reflexivity.
Qed.

(** C7: for each of the three pairs, a sentinel principal field with
    a non-sentinel origin has its origin set to the sentinel (and the
    anomaly logged); a real principal value with a sentinel origin is
    logged and both fields stay as they were. *)
Theorem C7_origin_corrected_or_only_flagged
    (r : rep) (main_field origin_field : string) :
  In (main_field, origin_field) field_pairs ->
  let st := _validate_field_consistency r in
  (get_or_empty r main_field = DATA_NOT_AVAILABLE ->
   get_or_empty r origin_field <> DATA_NOT_AVAILABLE ->
   fst st !! origin_field = Some DATA_NOT_AVAILABLE
   /\ fst st !! main_field = r !! main_field
   /\ In (Inconsistency (r !! "nome") main_field origin_field) (snd st))
  /\ (real_value (get_or_empty r main_field) ->
      get_or_empty r origin_field = DATA_NOT_AVAILABLE ->
      fst st !! main_field = r !! main_field
      /\ fst st !! origin_field = r !! origin_field
      /\ In (MissingOrigin (r !! "nome") main_field origin_field) (snd st)).
Proof.
  intros Hin. unfold _validate_field_consistency, field_pairs in *.
  destruct Hin as [E|[E|[E|[]]]]; injection E as <- <-.
  - apply (fold_check_pair_spec [] [_; _]); [discriminate| |];
      repeat constructor; discriminate.
  - apply (fold_check_pair_spec [_] [_]); [discriminate| |];
      repeat constructor; discriminate.
  - apply (fold_check_pair_spec [_; _] []); [discriminate| |];
      repeat constructor; discriminate.
Qed.

(** The theorem at a record whose signature type is missing while an
    origin is given: after the two steps of validation the origin is
    the sentinel. *)
Definition rep_missing_signature : rep :=
  _fill_empty_fields
    (<["nome" := py "Ana Lima"]> (<["origem_assinatura" := py "Cláusula 5"]> ∅)).

Lemma C7_witness :
  fst (_validate_field_consistency rep_missing_signature) !! "origem_assinatura"
  = Some DATA_NOT_AVAILABLE.
Proof.
  assert (Hin : In ("tipo_assinatura", "origem_assinatura") field_pairs)
    by (left; reflexivity).
  assert (Hm : get_or_empty rep_missing_signature "tipo_assinatura" = DATA_NOT_AVAILABLE)
    by (vm_compute; reflexivity).
  assert (Ho : get_or_empty rep_missing_signature "origem_assinatura" <> DATA_NOT_AVAILABLE)
    by (vm_compute; discriminate).
  exact (proj1 (proj1 (C7_origin_corrected_or_only_flagged
                         rep_missing_signature _ _ Hin) Hm Ho)).
Defined.

End Consistency.

(* ===================================================================== *)
(** ** Signature date by proximity *)
(* ===================================================================== *)

Section Proximity.
Import DateExtractor.









End Proximity.

(* ===================================================================== *)
(** ** Substitution of a one-character class *)
(* ===================================================================== *)

Section ClassSubstitution.
Variables (ic neg : bool) (items : list citem).

Let P (c : N) : bool := set_matches ic neg items c.
Let R : regex := RSet neg items.

Lemma match_at_class pos prev rest :
  match_at ic R pos prev rest
  = match rest with
    | c :: _ => if P c then Some (RMatch pos (S pos) []) else None
    | [] => None
    end.
Proof.
  unfold match_at, R. cbn [run]. unfold step_char. cbn [st_rest st_pos st_caps].
  destruct rest as [|c rest]; [reflexivity|].
  fold (P c). destruct (P c); reflexivity.
Qed.

(** The leftmost match of the class: after the longest prefix without
    a character of the class. *)
Lemma search_class rest pos prev :
  (search_from ic R pos prev rest = None
   /\ Forall (fun c => P c = false) rest)
  \/ (exists a c b,
        rest = a ++ c :: b
        /\ Forall (fun x => P x = false) a
        /\ P c = true
        /\ search_from ic R pos prev rest
           = Some (RMatch (pos + length a) (S (pos + length a)) [])).
Proof.
  revert pos prev. induction rest as [|c rest IH]; intros pos prev.
  - left. split; [reflexivity|constructor].
  - cbn [search_from]. rewrite match_at_class.
    destruct (P c) eqn:Hc.
    + right. exists [], c, rest. cbn [length app].
      rewrite Nat.add_0_r. split; [reflexivity|]. split; [constructor|].
      split; [exact Hc|reflexivity].
    + destruct (IH (S pos) (Some c)) as [[Hn Hall]|(a & c' & b & -> & Ha & Hc' & Hs)].
      * left. split; [exact Hn|]. constructor; assumption.
      * right. exists (c :: a), c', b. cbn [length app].
        split; [reflexivity|]. split; [constructor; assumption|].
        split; [exact Hc'|].
        rewrite Hs. f_equal. f_equal; lia.
Qed.

Definition sub_char (repl : pystr) (c : N) : pystr :=
  if P c then repl else [c].

Lemma flat_map_sub_none repl a :
  Forall (fun x => P x = false) a -> flat_map (sub_char repl) a = a.
Proof.
  induction 1 as [|x a Hx _ IH]; cbn [flat_map]; [reflexivity|].
  unfold sub_char at 1. rewrite Hx, IH. reflexivity.
Qed.

Lemma sub_class_from repl fuel suffix pre :
  (length suffix < fuel)%nat ->
  sub_matches (pre ++ suffix) repl
    (finditer_from fuel ic R (pre ++ suffix) (length pre)) (length pre)
  = flat_map (sub_char repl) suffix.
Proof.
  revert suffix pre.
  induction fuel as [|fuel IH]; intros suffix pre Hf; [lia|].
  cbn [finditer_from].
  destruct (Nat.ltb_spec (length (pre ++ suffix)) (length pre)) as [Hlt|_].
  { rewrite length_app in Hlt. lia. }
  rewrite drop_app_length.
  destruct (search_class suffix (length pre) (prev_at (pre ++ suffix) (length pre)))
    as [[-> Hall]|(a & c & b & -> & Ha & Hc & ->)].
  - cbn [sub_matches]. rewrite drop_app_length.
    symmetry. apply flat_map_sub_none. exact Hall.
  - cbn [m_start m_end sub_matches].
    destruct (Nat.eqb_spec (S (length pre + length a)) (length pre + length a)) as [E|_];
      [lia|].
    unfold slice.
    rewrite drop_app_length.
    replace (length pre + length a - length pre)%nat with (length a) by lia.
    rewrite take_app_length.
    rewrite flat_map_app. cbn [flat_map].
    rewrite (flat_map_sub_none repl a Ha).
    unfold sub_char at 1. rewrite Hc.
    f_equal. f_equal.
    specialize (IH b (pre ++ a ++ [c])).
    replace ((pre ++ a ++ [c]) ++ b) with (pre ++ a ++ c :: b) in IH
      by (rewrite <- !app_assoc; reflexivity).
    replace (length (pre ++ a ++ [c])) with (S (length pre + length a)) in IH
      by (rewrite !length_app; cbn [length]; lia).
    apply IH. rewrite length_app in Hf. cbn [length] in Hf. lia.
Qed.

(** [re.sub] of a class replaces each of its characters. *)
Lemma re_sub_class repl text :
  re_sub ic R repl text = flat_map (sub_char repl) text.
Proof.
  unfold re_sub, re_finditer.
  apply (sub_class_from repl (S (length text)) text []). lia.
Qed.

End ClassSubstitution.

(* ===================================================================== *)
(** ** CNPJ *)
(* ===================================================================== *)

Section CNPJ.
Import CNPJExtractor.

(** [re.sub(r'\D', '', s)] keeps exactly the digits. *)
Lemma only_digits_filter (s : pystr) : only_digits s = List.filter is_digit s.
Proof.
  unfold only_digits.
  change (re "\D") with (RSet false [CDigit true]).
  rewrite re_sub_class.
  induction s as [|c s IH]; cbn [flat_map List.filter]; [reflexivity|].
  rewrite IH. unfold sub_char, set_matches. cbn [existsb item_matches].
  destruct (is_digit c); reflexivity.
Qed.

(** The layout [DD.DDD.DDD/DDDD-DD], [D] a decimal digit of any
    script, as [\d] matches it. *)
Definition is_cnpj_format (s : pystr) : bool :=
  match s with
  | [a; b; p1; c; d; e; p2; f; g; h; sl; i; j; k; l; hy; m; n] =>
      forallb is_digit [a; b; c; d; e; f; g; h; i; j; k; l; m; n]
      && (p1 =? 46) && (p2 =? 46) && (sl =? 47) && (hy =? 45)
  | _ => false
  end.

(** The same layout with the digits [0] to [9] only. *)
Definition is_ascii_cnpj_format (s : pystr) : bool :=
  match s with
  | [a; b; p1; c; d; e; p2; f; g; h; sl; i; j; k; l; hy; m; n] =>
      forallb (in_range 48 57) [a; b; c; d; e; f; g; h; i; j; k; l; m; n]
      && (p1 =? 46) && (p2 =? 46) && (sl =? 47) && (hy =? 45)
  | _ => false
  end.

(** Every decimal digit of the text is one of [0] to [9]. *)
Definition ascii_digits (s : pystr) : Prop :=
  Forall (fun c => is_digit c = true -> c <= 57) s.

Lemma filter_digits_all (s : pystr) :
  Forall (fun c => is_digit c = true) (List.filter is_digit s).
Proof.
  apply List.Forall_forall. intros c Hc. apply List.filter_In in Hc. apply Hc.
Qed.


Lemma filter_digit_cons c (s : pystr) :
  is_digit c = true -> List.filter is_digit (c :: s) = c :: List.filter is_digit s.
Proof. intros H. cbn [List.filter]. rewrite H. reflexivity. Qed.

Lemma filter_nondigit_cons c (s : pystr) :
  is_digit c = false -> List.filter is_digit (c :: s) = List.filter is_digit s.
Proof. intros H. cbn [List.filter]. rewrite H. reflexivity. Qed.

(** What [normalize] returns: the empty string, or the fourteen
    digits of its argument in the layout. *)
Lemma normalize_cases (cnpj : pystr) :
  (normalize cnpj = [] /\ (cnpj = [] \/ length (List.filter is_digit cnpj) <> 14%nat))
  \/ (exists a b c d e f g h i j k l m n,
        List.filter is_digit cnpj = [a; b; c; d; e; f; g; h; i; j; k; l; m; n]
        /\ normalize cnpj = [a; b; 46; c; d; e; 46; f; g; h; 47; i; j; k; l; 45; m; n]).
Proof.
  unfold normalize. destruct cnpj as [|c0 t]; [left; auto|].
  rewrite only_digits_filter.
  destruct (Nat.eqb_spec (length (List.filter is_digit (c0 :: t))) CNPJ_LENGTH) as [E|E].
  - right. cbn [negb]. unfold CNPJ_LENGTH in E.
    destruct (List.filter is_digit (c0 :: t)) as [|a [|b [|c [|d [|e [|f [|g [|h [|i
      [|j [|k [|l [|m [|n [|x y]]]]]]]]]]]]]]]; try discriminate E.
    exists a, b, c, d, e, f, g, h, i, j, k, l, m, n. split; reflexivity.
  - left. cbn [negb]. split; [reflexivity|]. right. exact E.
Qed.

Lemma normalize_format (cnpj : pystr) :
  normalize cnpj = [] \/ is_cnpj_format (normalize cnpj) = true.
Proof.
  destruct (normalize_cases cnpj) as [[H _]|(a & b & c & d & e & f & g & h & i & j
    & k & l & m & n & Hd & ->)]; [left; exact H|right].
  pose proof (filter_digits_all cnpj) as Hall. rewrite Hd in Hall.
  repeat match goal with
         | H : Forall _ (_ :: _) |- _ => inversion_clear H
         end.
  unfold is_cnpj_format. cbn [forallb].
  repeat match goal with
         | H : is_digit _ = true |- _ => rewrite H; clear H
         end.
  reflexivity.
Qed.

(** On a text whose digits are ASCII the layout has ASCII digits. *)
Lemma normalize_ascii (cnpj : pystr) :
  ascii_digits cnpj ->
  normalize cnpj = [] \/ is_ascii_cnpj_format (normalize cnpj) = true.
Proof.
  intros Ha.
  destruct (normalize_cases cnpj) as [[H _]|(a & b & c & d & e & f & g & h & i & j
    & k & l & m & n & Hd & ->)]; [left; exact H|right].
  assert (Hall : Forall (fun x => in_range 48 57 x = true) (List.filter is_digit cnpj)).
  { apply List.Forall_forall. intros x Hx. apply List.filter_In in Hx as [Hin Hx].
    unfold ascii_digits in Ha. rewrite List.Forall_forall in Ha.
    specialize (Ha x Hin Hx). apply digit_bounds in Hx.
    unfold in_range. apply andb_true_iff. split; apply N.leb_le; lia. }
  rewrite Hd in Hall.
  repeat match goal with
         | H : Forall _ (_ :: _) |- _ => inversion_clear H
         end.
  unfold is_ascii_cnpj_format. cbn [forallb].
  repeat match goal with
         | H : in_range 48 57 _ = true |- _ => rewrite H; clear H
         end.
  reflexivity.
Qed.

(** A string in the layout is a fixed point of [normalize]. *)
Lemma normalize_of_format (s : pystr) :
  is_cnpj_format s = true -> normalize s = s.
Proof.
  unfold is_cnpj_format.
  destruct s as [|a [|b [|p1 [|c [|d [|e [|p2 [|f [|g [|h [|sl [|i [|j [|k [|l
    [|hy [|m [|n [|x y]]]]]]]]]]]]]]]]]]]; try discriminate.
  cbn [forallb]. intros H.
  repeat match goal with
         | H : (_ && _) = true |- _ => apply andb_true_iff in H; destruct H
         end.
  repeat match goal with
         | H : (_ =? _) = true |- _ => apply N.eqb_eq in H; subst
         end.
  assert (Hf : List.filter is_digit
                 [a; b; 46; c; d; e; 46; f; g; h; 47; i; j; k; l; 45; m; n]
               = [a; b; c; d; e; f; g; h; i; j; k; l; m; n]).
  { repeat first [ rewrite filter_digit_cons by assumption
                 | rewrite filter_nondigit_cons by reflexivity ].
    reflexivity. }
  unfold normalize. rewrite only_digits_filter, Hf. reflexivity.
Qed.

Lemma normalize_idempotent (cnpj : pystr) :
  normalize (normalize cnpj) = normalize cnpj.
Proof.
  destruct (normalize_format cnpj) as [->|H]; [reflexivity|].
  apply normalize_of_format. exact H.
Qed.

Lemma first_cnpj_normalized text matches cnpj :
  first_cnpj text matches = Some cnpj -> exists raw, cnpj = normalize raw.
Proof.
  induction matches as [|m ms IH]; cbn [first_cnpj]; [discriminate|].
  destruct (length (only_digits (group text m 1)) =? CNPJ_LENGTH)%nat.
  - intros [= <-]. eexists. reflexivity.
  - exact IH.
Qed.

Lemma scan_patterns_normalized text patterns cnpj :
  scan_patterns text patterns = Some cnpj -> exists raw, cnpj = normalize raw.
Proof.
  induction patterns as [|p ps IH]; cbn [scan_patterns]; [discriminate|].
  destruct (first_cnpj text (re_finditer true p text)) eqn:E.
  - intros [= <-]. eapply first_cnpj_normalized. exact E.
  - exact IH.
Qed.

(** The extractor returns the empty string or a normalized CNPJ. *)
Lemma extract_from_ocr_normalized (ocr_text : pystr) :
  exists raw, extract_from_ocr ocr_text = normalize raw.
Proof.
  unfold extract_from_ocr. destruct ocr_text as [|c t]; [exists []; reflexivity|].
  destruct (scan_patterns (c :: t) cnpj_patterns) eqn:E.
  - eapply scan_patterns_normalized. exact E.
  - exists []. reflexivity.
Qed.

(** C5: normalizing the extraction result twice is the same as
    normalizing it once; the result of the extraction is itself
    unchanged by [normalize]. *)
Theorem C5_normalize_idempotent_on_extraction (t : pystr) :
  normalize (normalize (extract_from_ocr t)) = normalize (extract_from_ocr t)
  /\ normalize (extract_from_ocr t) = extract_from_ocr t.
Proof.
  split; [apply normalize_idempotent|].
  destruct (extract_from_ocr_normalized t) as [raw ->].
  apply normalize_idempotent.
Qed.

End CNPJ.

(* ===================================================================== *)
(** ** The final record *)
(* ===================================================================== *)

Section FinalRecord.
Import ResponseBuilder CoreProcessor.

Lemma bind_ok {A B} (e : result A) (k : A -> result B) (b : B) :
  (a ← e; k a) = Ok b -> exists a, e = Ok a /\ k a = Ok b.
Proof.
  unfold mbind, result_bind, bind. destruct e as [a|x]; [|discriminate].
  intros H. exists a. auto.
Qed.

(** A string without white space is one word for [split]. *)
Lemma split_ws_aux_word (s cur : pystr) :
  Forall (fun c => is_space c = false) s ->
  rev cur ++ s <> [] ->
  split_ws_aux s cur = [rev cur ++ s].
Proof.
  intros H. revert cur. induction H as [|c s Hc _ IH]; intros cur Hne; cbn [split_ws_aux].
  - rewrite app_nil_r in *. destruct cur; [exfalso; apply Hne; reflexivity|reflexivity].
  - rewrite Hc. rewrite IH; cbn [rev]; rewrite <- app_assoc; cbn [app].
    + reflexivity.
    + destruct (rev cur); discriminate.
Qed.

Lemma clean_word (s : pystr) :
  Forall (fun c => is_space c = false) s -> s <> [] ->
  join (py " ") (split_ws s) = s.
Proof.
  intros H Hne. unfold split_ws. rewrite split_ws_aux_word by assumption.
  reflexivity.
Qed.

Lemma cnpj_format_no_space (s : pystr) :
  is_cnpj_format s = true -> Forall (fun c => is_space c = false) s /\ s <> [].
Proof.
  unfold is_cnpj_format.
  destruct s as [|a [|b [|p1 [|c [|d [|e [|p2 [|f [|g [|h [|sl [|i [|j [|k [|l
    [|hy [|m [|n [|x y]]]]]]]]]]]]]]]]]]]; try discriminate.
  cbn [forallb]. intros H.
  repeat match goal with
         | H : (_ && _) = true |- _ => apply andb_true_iff in H; destruct H
         end.
  repeat match goal with
         | H : (_ =? _) = true |- _ => apply N.eqb_eq in H; subst
         end.
  split; [|discriminate].
  repeat constructor; try (apply digit_not_space; assumption).
Qed.

(** The two admissible final values of the field. *)
Definition final_cnpj (s : pystr) : Prop :=
  is_cnpj_format s = true \/ s = DATA_NOT_AVAILABLE.

Lemma final_cnpj_clean s : final_cnpj s -> join (py " ") (split_ws s) = s.
Proof.
  intros [H| ->].
  - apply cnpj_format_no_space in H as [H1 H2]. apply clean_word; assumption.
  - vm_compute. reflexivity.
Qed.

Lemma final_cnpj_kept s :
  final_cnpj s -> pystr_eqb s [] = false /\ pystr_eqb (strip s) [] = false.
Proof.
  intros [H| ->].
  - unfold is_cnpj_format in H.
    destruct s as [|a [|b [|p1 [|c [|d [|e [|p2 [|f [|g [|h [|sl [|i [|j [|k [|l
      [|hy [|m [|n [|x y]]]]]]]]]]]]]]]]]]]; try discriminate.
    cbn [forallb] in H.
    repeat match goal with
           | H : (_ && _) = true |- _ => apply andb_true_iff in H; destruct H
           end.
    split; [apply pystr_eqb_neq; discriminate|].
    apply pystr_eqb_neq.
    unfold strip, rstrip. cbn [lstrip].
    rewrite (digit_not_space a) by assumption.
    cbn [rev app lstrip].
    rewrite (digit_not_space n) by assumption.
    cbn [rev app]. discriminate.
  - vm_compute. auto.
Qed.

(** After [normalize_output] the field is absent, empty or in the
    layout. *)
Lemma normalize_output_cnpj (data_out d1 : pydict) :
  normalize_output data_out = Ok d1 ->
  d1 !! "cnpj" = None
  \/ exists s, d1 !! "cnpj" = Some (VStr s) /\ (s = [] \/ is_cnpj_format s = true).
Proof.
  unfold normalize_output. intros H.
  apply bind_ok in H as (d0 & H0 & H).
  assert (Hc : d0 !! "cnpj" = None
               \/ exists s, d0 !! "cnpj" = Some (VStr s)
                            /\ (s = [] \/ is_cnpj_format s = true)).
  { destruct (data_out !! "cnpj") as [v|] eqn:E.
    - apply bind_ok in H0 as (c & Hv & [= <-]). right. exists c.
      rewrite lookup_insert_eq. split; [reflexivity|].
      unfold normalize_cnpj_value in Hv.
      destruct (negb (truthy v)); [injection Hv as <-; left; reflexivity|].
      destruct v; try discriminate. injection Hv as <-.
      apply normalize_format.
    - injection H0 as <-. left. exact E. }
  set (d2 := match d0 !! "data_assinatura" with
             | Some v => _
             | None => d0
             end) in H.
  assert (H2 : d2 !! "cnpj" = d0 !! "cnpj").
  { subst d2. destruct (d0 !! "data_assinatura") as [v|]; [|reflexivity].
    destruct (normalize_any_value v) as [n|]; [|reflexivity].
    destruct (truthy_str (Some n)); [|reflexivity].
    apply lookup_insert_ne. discriminate. }
  assert (H1 : d1 !! "cnpj" = d2 !! "cnpj").
  { destruct (d2 !! "representantes_detalhados") as [v|].
    - apply bind_ok in H as (v' & _ & [= <-]).
      apply lookup_insert_ne. discriminate.
    - injection H as <-. reflexivity. }
  rewrite H1, H2. exact Hc.
Qed.

Lemma require_field_other d f d' k :
  require_field d f = Ok d' -> f <> k -> d' !! k = d !! k.
Proof.
  unfold require_field. intros H Hk.
  destruct (d !! f) as [v|].
  - destruct (negb (truthy v)).
    + injection H as <-. apply lookup_insert_ne. exact Hk.
    + destruct v; try discriminate.
      destruct (pystr_eqb (strip s) []); injection H as <-;
        [apply lookup_insert_ne; exact Hk|reflexivity].
  - injection H as <-. apply lookup_insert_ne. exact Hk.
Qed.

Lemma fold_require_other fields d d' k :
  fold_result require_field fields d = Ok d' -> ~ In k fields -> d' !! k = d !! k.
Proof.
  revert d. induction fields as [|f fields IH]; intros d H Hk; cbn [fold_result] in H.
  - injection H as <-. reflexivity.
  - apply bind_ok in H as (d0 & H0 & H).
    rewrite (IH d0 H) by (intros Hin; apply Hk; right; exact Hin).
    apply (require_field_other d f d0 k H0).
    intros ->. apply Hk. left. reflexivity.
Qed.

Lemma require_field_cnpj d d' :
  require_field d "cnpj" = Ok d' ->
  (d !! "cnpj" = None
   \/ exists s, d !! "cnpj" = Some (VStr s) /\ (s = [] \/ is_cnpj_format s = true)) ->
  exists s, d' !! "cnpj" = Some (VStr s) /\ final_cnpj s.
Proof.
  unfold require_field. intros H [E|(s & E & Hs)]; rewrite E in H.
  - injection H as <-. exists DATA_NOT_AVAILABLE.
    rewrite lookup_insert_eq. split; [reflexivity|right; reflexivity].
  - destruct Hs as [->|Hf].
    + cbn in H. injection H as <-. exists DATA_NOT_AVAILABLE.
      rewrite lookup_insert_eq. split; [reflexivity|right; reflexivity].
    + destruct (final_cnpj_kept s (or_introl Hf)) as [H1 H2].
      cbn [truthy] in H. rewrite H1, H2 in H. cbn [negb] in H.
      injection H as <-. exists s. split; [exact E|left; exact Hf].
Qed.

Lemma validate_required_fields_cnpj (d1 d2 : pydict) :
  validate_required_fields d1 = Ok d2 ->
  (d1 !! "cnpj" = None
   \/ exists s, d1 !! "cnpj" = Some (VStr s) /\ (s = [] \/ is_cnpj_format s = true)) ->
  exists s, d2 !! "cnpj" = Some (VStr s) /\ final_cnpj s.
Proof.
  unfold validate_required_fields. intros H Hc.
  apply bind_ok in H as (d & Hf & H).
  assert (Hd : exists s, d !! "cnpj" = Some (VStr s) /\ final_cnpj s).
  { unfold required_fields in Hf.
    match type of Hf with
    | fold_result _ (_ :: _ :: ?t) _ = _ => remember t as rest eqn:Erest
    end.
    cbn [fold_result] in Hf.
    apply bind_ok in Hf as (da & Ha & Hf).
    apply bind_ok in Hf as (db & Hb & Hf).
    rewrite (fold_require_other _ db d "cnpj" Hf)
      by (subst rest; cbn [In]; intros Hin;
          repeat (destruct Hin as [Hin|Hin]; [discriminate Hin|]); exact Hin).
    apply (require_field_cnpj da db Hb).
    rewrite (require_field_other _ _ _ "cnpj" Ha) by discriminate.
    exact Hc. }
  set (d' := match d !! "representantes_detalhados" with
             | Some _ => d
             | None => _
             end) in H.
  assert (H' : d' !! "cnpj" = d !! "cnpj").
  { subst d'. destruct (d !! "representantes_detalhados"); [reflexivity|].
    apply lookup_insert_ne. discriminate. }
  assert (H2 : d2 !! "cnpj" = d' !! "cnpj").
  { destruct (d' !! "quantidade_representantes").
    - injection H as <-. reflexivity.
    - apply bind_ok in H as (n & _ & [= <-]).
      apply lookup_insert_ne. discriminate. }
  rewrite H2, H'. exact Hd.
Qed.

Lemma clean_field_other d f k : f <> k -> clean_field d f !! k = d !! k.
Proof.
  intros Hk. unfold clean_field.
  destruct (d !! f) as [[]|]; try reflexivity.
  apply lookup_insert_ne. exact Hk.
Qed.

Lemma clean_field_cnpj d f s :
  d !! "cnpj" = Some (VStr s) -> final_cnpj s ->
  clean_field d f !! "cnpj" = Some (VStr s).
Proof.
  intros E Hs. destruct (String.eqb_spec f "cnpj") as [->|Hne].
  - unfold clean_field. rewrite E, lookup_insert_eq, final_cnpj_clean by exact Hs.
    reflexivity.
  - rewrite clean_field_other by exact Hne. exact E.
Qed.

Lemma clean_output_cnpj d s :
  d !! "cnpj" = Some (VStr s) -> final_cnpj s ->
  clean_output d !! "cnpj" = Some (VStr s).
Proof.
  unfold clean_output. generalize string_fields as fields.
  intros fields. revert d. induction fields as [|f fields IH]; intros d E Hs;
    cbn [fold_left].
  - exact E.
  - apply IH; [|exact Hs]. apply clean_field_cnpj; assumption.
Qed.

(** The shape of the record that the earlier stages hand over: each
    of the ten string fields, when present, is a string or a false
    value, and the representatives, when present, are a list of
    records. *)
Definition field_typed (d : pydict) (f : string) : Prop :=
  match d !! f with
  | None => True
  | Some v => truthy v = false \/ exists s, v = VStr s
  end.

Definition schema_typed (d : pydict) : Prop :=
  Forall (field_typed d) required_fields
  /\ match d !! "representantes_detalhados" with
     | None => True
     | Some (VReps _) => True
     | Some _ => False
     end.

Lemma field_typed_insert_str d f k s :
  field_typed d f -> field_typed (<[k := VStr s]> d) f.
Proof.
  unfold field_typed. destruct (String.eqb_spec k f) as [->|Hne].
  - rewrite lookup_insert_eq. intros _. right. eexists. reflexivity.
  - rewrite lookup_insert_ne by exact Hne. auto.
Qed.

Lemma field_typed_insert_other d f k v :
  k <> f -> field_typed d f -> field_typed (<[k := v]> d) f.
Proof.
  unfold field_typed. intros Hne. rewrite lookup_insert_ne by exact Hne. auto.
Qed.

Lemma require_field_typed d f :
  field_typed d f ->
  exists d', require_field d f = Ok d'
             /\ (forall g, field_typed d g -> field_typed d' g).
Proof.
  unfold require_field. intros Hf. unfold field_typed in Hf.
  destruct (d !! f) as [v|].
  - destruct Hf as [Hv|[s ->]].
    + rewrite Hv. cbn [negb]. eexists. split; [reflexivity|].
      intros g. apply field_typed_insert_str.
    + destruct (negb (truthy (VStr s))).
      * eexists. split; [reflexivity|]. intros g. apply field_typed_insert_str.
      * destruct (pystr_eqb (strip s) []); eexists; (split; [reflexivity|]);
          intros g; [apply field_typed_insert_str|auto].
  - eexists. split; [reflexivity|]. intros g. apply field_typed_insert_str.
Qed.

Lemma fold_require_typed fields d :
  Forall (field_typed d) fields ->
  exists d', fold_result require_field fields d = Ok d'.
Proof.
  revert d. induction fields as [|f fields IH]; intros d H; cbn [fold_result].
  - eexists. reflexivity.
  - inversion_clear H as [|? ? Hf Hrest].
    destruct (require_field_typed d f Hf) as (d0 & -> & Hkeep).
    unfold mbind, result_bind, bind. apply IH.
    eapply Forall_impl; [exact Hrest|]. exact Hkeep.
Qed.

Lemma typed_insert_reps d v :
  Forall (field_typed d) required_fields ->
  Forall (field_typed (<["representantes_detalhados" := v]> d)) required_fields.
Proof.
  intros H. apply List.Forall_forall. intros g Hg.
  apply field_typed_insert_other.
  - intros <-. unfold required_fields in Hg. cbn [In] in Hg.
    repeat (destruct Hg as [Hg|Hg]; [discriminate Hg|]). exact Hg.
  - apply (proj1 (List.Forall_forall _ _) H g Hg).
Qed.

Lemma normalize_output_typed d :
  schema_typed d ->
  exists d1, normalize_output d = Ok d1 /\ schema_typed d1.
Proof.
  intros [Hf Hr]. unfold normalize_output.
  assert (H0 : exists d0,
             match d !! "cnpj" with
             | Some v => c ← normalize_cnpj_value v; Ok (<["cnpj" := VStr c]> d)
             | None => Ok d
             end = Ok d0
             /\ Forall (field_typed d0) required_fields
             /\ d0 !! "representantes_detalhados" = d !! "representantes_detalhados").
  { destruct (d !! "cnpj") as [v|] eqn:E.
    - assert (Hv : truthy v = false \/ exists s, v = VStr s).
      { apply List.Forall_forall with (x := "cnpj") in Hf.
        - unfold field_typed in Hf. rewrite E in Hf. exact Hf.
        - right. left. reflexivity. }
      assert (Hn : exists c, normalize_cnpj_value v = Ok c).
      { unfold normalize_cnpj_value. destruct Hv as [Hv|[s ->]].
        - rewrite Hv. eexists. reflexivity.
        - destruct (negb (truthy (VStr s))); eexists; reflexivity. }
      destruct Hn as [c ->]. eexists. split; [reflexivity|]. split.
      + eapply Forall_impl; [exact Hf|]. intros g. apply field_typed_insert_str.
      + apply lookup_insert_ne. discriminate.
    - eexists. split; [reflexivity|]. split; [exact Hf|reflexivity]. }
  destruct H0 as (d0 & -> & Hf0 & Hr0).
  unfold mbind at 1, result_bind at 1, bind at 1.
  set (d2 := match d0 !! "data_assinatura" with
             | Some v => _
             | None => d0
             end).
  assert (H2 : Forall (field_typed d2) required_fields
               /\ d2 !! "representantes_detalhados" = d0 !! "representantes_detalhados").
  { subst d2. destruct (d0 !! "data_assinatura") as [v|]; [|auto].
    destruct (normalize_any_value v) as [n|]; [|auto].
    destruct (truthy_str (Some n)); [|auto]. split.
    - eapply Forall_impl; [exact Hf0|]. intros g. apply field_typed_insert_str.
    - apply lookup_insert_ne. discriminate. }
  destruct H2 as [Hf2 Hr2]. rewrite Hr2, Hr0.
  destruct (d !! "representantes_detalhados") as [v|] eqn:Er.
  - destruct v; try contradiction. cbn [normalize_reps].
    eexists. split; [reflexivity|]. split.
    + apply typed_insert_reps. exact Hf2.
    + rewrite lookup_insert_eq. exact I.
  - eexists. split; [reflexivity|]. split; [exact Hf2|].
    rewrite Hr2, Hr0. exact I.
Qed.

Lemma validate_required_fields_typed d :
  schema_typed d -> exists d', validate_required_fields d = Ok d'.
Proof.
  intros [Hf Hr]. unfold validate_required_fields.
  destruct (fold_require_typed required_fields d Hf) as [d1 H1].
  rewrite H1. unfold mbind at 1, result_bind at 1, bind at 1.
  assert (Hr1 : d1 !! "representantes_detalhados" = d !! "representantes_detalhados").
  { apply (fold_require_other _ _ _ _ H1). unfold required_fields. cbn [In].
    intros Hin. repeat (destruct Hin as [Hin|Hin]; [discriminate Hin|]). exact Hin. }
  rewrite Hr1.
  destruct (d !! "representantes_detalhados") as [v|] eqn:Er.
  - destruct (d1 !! "quantidade_representantes"); [eexists; reflexivity|].
    destruct v; try contradiction.
    rewrite Hr1. eexists. reflexivity.
  - destruct (<["representantes_detalhados" := VReps []]> d1 !! "quantidade_representantes");
      [eexists; reflexivity|].
    rewrite lookup_insert_eq. eexists. reflexivity.
Qed.

(** The value of the field after each step. *)
Lemma normalize_output_cnpj_value (data_out d1 : pydict) :
  normalize_output data_out = Ok d1 ->
  d1 !! "cnpj" = match data_out !! "cnpj" with
                 | Some (VStr s0) => Some (VStr (CNPJExtractor.normalize s0))
                 | Some _ => Some (VStr [])
                 | None => None
                 end.
Proof.
  unfold normalize_output. intros H.
  apply bind_ok in H as (d0 & H0 & H).
  assert (Hc : d0 !! "cnpj" = match data_out !! "cnpj" with
                              | Some (VStr s0) => Some (VStr (CNPJExtractor.normalize s0))
                              | Some _ => Some (VStr [])
                              | None => None
                              end).
  { destruct (data_out !! "cnpj") as [v|] eqn:E.
    - apply bind_ok in H0 as (c & Hv & [= <-]). rewrite lookup_insert_eq.
      unfold normalize_cnpj_value in Hv.
      destruct (negb (truthy v)) eqn:Et.
      + injection Hv as <-. destruct v; try reflexivity.
        cbn [truthy] in Et. apply negb_true_iff, negb_false_iff in Et.
        unfold pystr_eqb in Et. apply bool_decide_eq_true in Et. subst s.
        reflexivity.
      + destruct v; try discriminate. injection Hv as <-. reflexivity.
    - injection H0 as <-. exact E. }
  set (d2 := match d0 !! "data_assinatura" with
             | Some v => _
             | None => d0
             end) in H.
  assert (H2 : d2 !! "cnpj" = d0 !! "cnpj").
  { subst d2. destruct (d0 !! "data_assinatura") as [v|]; [|reflexivity].
    destruct (normalize_any_value v) as [n|]; [|reflexivity].
    destruct (truthy_str (Some n)); [|reflexivity].
    apply lookup_insert_ne. discriminate. }
  assert (H1 : d1 !! "cnpj" = d2 !! "cnpj").
  { destruct (d2 !! "representantes_detalhados") as [v|].
    - apply bind_ok in H as (v' & _ & [= <-]).
      apply lookup_insert_ne. discriminate.
    - injection H as <-. reflexivity. }
  rewrite H1, H2. exact Hc.
Qed.

(** The sentinel for the empty string, the string itself otherwise. *)
Definition or_sentinel (c : pystr) : pystr :=
  if pystr_eqb c [] then DATA_NOT_AVAILABLE else c.

Lemma or_sentinel_nil : or_sentinel [] = DATA_NOT_AVAILABLE.
Proof.
  unfold or_sentinel, pystr_eqb. rewrite bool_decide_eq_true_2 by reflexivity.
  reflexivity.
Qed.

Lemma require_field_cnpj_value d d' c :
  require_field d "cnpj" = Ok d' ->
  (d !! "cnpj" = None /\ c = [])
  \/ (d !! "cnpj" = Some (VStr c) /\ (c = [] \/ is_cnpj_format c = true)) ->
  d' !! "cnpj" = Some (VStr (or_sentinel c)).
Proof.
  unfold require_field. intros H [[E ->]|(E & Hs)]; rewrite E in H.
  - injection H as <-. rewrite lookup_insert_eq, or_sentinel_nil. reflexivity.
  - destruct Hs as [->|Hf].
    + cbn in H. injection H as <-. rewrite lookup_insert_eq, or_sentinel_nil.
      reflexivity.
    + destruct (final_cnpj_kept c (or_introl Hf)) as [H1 H2].
      cbn [truthy] in H. rewrite H1, H2 in H. cbn [negb] in H.
      injection H as <-. unfold or_sentinel. rewrite H1. exact E.
Qed.

Lemma validate_required_fields_cnpj_value (d1 d2 : pydict) c :
  validate_required_fields d1 = Ok d2 ->
  (d1 !! "cnpj" = None /\ c = [])
  \/ (d1 !! "cnpj" = Some (VStr c) /\ (c = [] \/ is_cnpj_format c = true)) ->
  d2 !! "cnpj" = Some (VStr (or_sentinel c)).
Proof.
  unfold validate_required_fields. intros H Hc.
  apply bind_ok in H as (d & Hf & H).
  assert (Hd : d !! "cnpj" = Some (VStr (or_sentinel c))).
  { unfold required_fields in Hf.
    match type of Hf with
    | fold_result _ (_ :: _ :: ?t) _ = _ => remember t as rest eqn:Erest
    end.
    cbn [fold_result] in Hf.
    apply bind_ok in Hf as (da & Ha & Hf).
    apply bind_ok in Hf as (db & Hb & Hf).
    rewrite (fold_require_other _ db d "cnpj" Hf)
      by (subst rest; cbn [In]; intros Hin;
          repeat (destruct Hin as [Hin|Hin]; [discriminate Hin|]); exact Hin).
    apply (require_field_cnpj_value da db c Hb).
    rewrite (require_field_other _ _ _ "cnpj" Ha) by discriminate.
    exact Hc. }
  set (d' := match d !! "representantes_detalhados" with
             | Some _ => d
             | None => _
             end) in H.
  assert (H' : d' !! "cnpj" = d !! "cnpj").
  { subst d'. destruct (d !! "representantes_detalhados"); [reflexivity|].
    apply lookup_insert_ne. discriminate. }
  assert (H2 : d2 !! "cnpj" = d' !! "cnpj").
  { destruct (d' !! "quantidade_representantes").
    - injection H as <-. reflexivity.
    - apply bind_ok in H as (n & _ & [= <-]).
      apply lookup_insert_ne. discriminate. }
  rewrite H2, H'. exact Hd.
Qed.

(** The string of the input under [cnpj], the empty string for any
    other input. *)
Definition cnpj_text (data_out : pydict) : pystr :=
  match data_out !! "cnpj" with
  | Some (VStr s0) => s0
  | _ => []
  end.

(** The final field is the normalized input, or the sentinel when
    that is empty. *)
Lemma final_cnpj_value (data_out d' : pydict) :
  finalize_data data_out = Ok d' ->
  d' !! "cnpj" = Some (VStr (or_sentinel (CNPJExtractor.normalize (cnpj_text data_out)))).
Proof.
  unfold finalize_data. intros H.
  apply bind_ok in H as (d1 & H1 & H).
  apply bind_ok in H as (d2 & H2 & [= <-]).
  apply normalize_output_cnpj_value in H1.
  assert (Hc : (d1 !! "cnpj" = None /\ CNPJExtractor.normalize (cnpj_text data_out) = [])
               \/ (d1 !! "cnpj" = Some (VStr (CNPJExtractor.normalize (cnpj_text data_out)))
                   /\ (CNPJExtractor.normalize (cnpj_text data_out) = []
                       \/ is_cnpj_format (CNPJExtractor.normalize (cnpj_text data_out)) = true))).
  { unfold cnpj_text. destruct (data_out !! "cnpj") as [v|].
    - right. destruct v; (split; [exact H1|]); try (left; reflexivity).
      apply normalize_format.
    - left. split; [exact H1|reflexivity]. }
  pose proof (validate_required_fields_cnpj_value d1 d2 _ H2 Hc) as Hv.
  apply clean_output_cnpj; [exact Hv|].
  unfold or_sentinel.
  destruct (normalize_format (cnpj_text data_out)) as [E|E].
  - rewrite E. right. reflexivity.
  - destruct (final_cnpj_kept _ (or_introl E)) as [Hk _]. rewrite Hk. left. exact E.
Qed.

Lemma or_sentinel_cases c :
  (c = [] /\ or_sentinel c = DATA_NOT_AVAILABLE) \/ (c <> [] /\ or_sentinel c = c).
Proof.
  unfold or_sentinel. destruct (pystr_eqb c []) eqn:E.
  - left. apply pystr_eqb_eq in E. auto.
  - right. apply pystr_eqb_neq in E. auto.
Qed.

Lemma finalize_typed (data_out : pydict) :
  schema_typed data_out -> exists d', finalize_data data_out = Ok d'.
Proof.
  intros Ht. unfold finalize_data.
  destruct (normalize_output_typed data_out Ht) as (d1 & -> & Ht1).
  destruct (validate_required_fields_typed d1 Ht1) as (d2 & H2).
  unfold mbind, result_bind, bind. rewrite H2. eexists. reflexivity.
Qed.

(** C10 (as corrected): whenever the final build sequence returns,
    the [cnpj] field of its result is the sentinel or a string in the
    layout DD.DDD.DDD/DDDD-DD whose digits are the fourteen decimal
    digits of the input string, a decimal digit being what [\D] leaves
    in place, of any script; when the digits of the input are all
    among 0 to 9, so are those of the result.  And the sequence does
    return on every record of the shape the earlier stages produce. *)
Theorem C10_final_cnpj_formatted_or_sentinel (data_out : pydict) :
  (forall d', finalize_data data_out = Ok d' ->
     exists s, d' !! "cnpj" = Some (VStr s)
               /\ (s = DATA_NOT_AVAILABLE
                   \/ (is_cnpj_format s = true
                       /\ s = CNPJExtractor.normalize (cnpj_text data_out)
                       /\ (ascii_digits (cnpj_text data_out) ->
                           is_ascii_cnpj_format s = true))))
  /\ (schema_typed data_out -> exists d', finalize_data data_out = Ok d').
Proof.
  split; [|apply finalize_typed].
  intros d' H. apply final_cnpj_value in H.
  eexists. split; [exact H|].
  destruct (or_sentinel_cases (CNPJExtractor.normalize (cnpj_text data_out))) as [[_ ->]|[Hne ->]];
    [left; reflexivity|right].
  split; [|split; [reflexivity|]].
  - destruct (normalize_format (cnpj_text data_out)) as [E|E]; [contradiction|exact E].
  - intros Ha. destruct (normalize_ascii _ Ha) as [E|E]; [contradiction|exact E].
Qed.

(** The theorem at a record whose CNPJ arrives as bare digits. *)
Definition record_with_raw_cnpj : pydict :=
  <["cnpj" := VStr (py "12345678000199")]>
    (<["razao_social" := VStr (py "ACME LTDA")]>
       (<["representantes_detalhados" := VReps []]> ∅)).

Lemma record_with_raw_cnpj_typed : schema_typed record_with_raw_cnpj.
Proof.
  split.
  - apply List.Forall_forall. intros g Hg.
    unfold required_fields in Hg. cbn [In] in Hg. unfold field_typed.
    repeat (destruct Hg as [<-|Hg];
            [vm_compute; first [exact I | right; eexists; reflexivity]|]).
    destruct Hg.
  - vm_compute. exact I.
Qed.

Lemma C10_witness :
  exists d', finalize_data record_with_raw_cnpj = Ok d'
             /\ d' !! "cnpj" = Some (VStr (py "12.345.678/0001-99")).
Proof.
  destruct (C10_final_cnpj_formatted_or_sentinel record_with_raw_cnpj) as [Hres Htot].
  destruct (Htot record_with_raw_cnpj_typed) as [d' Hd'].
  exists d'. split; [exact Hd'|].
  destruct (Hres d' Hd') as (s & Hs & [E|(_ & E & _)]); rewrite Hs; f_equal; f_equal;
    rewrite E.
  - exfalso. subst s.
    pose proof (final_cnpj_value _ _ Hd') as Hv. rewrite Hs in Hv.
    injection Hv as Hv. revert Hv. vm_compute. discriminate.
  - vm_compute. reflexivity.
Defined.

(** Fourteen fullwidth digits, which [\D] leaves in place. *)
Definition record_with_fullwidth_cnpj : pydict :=
  <["cnpj" := VStr (py "１２３４５６７８０００１９９")]> ∅.

(** C10 (counterexample): for a [cnpj] of fourteen fullwidth digits
    the sequence returns, and the field of the result is the layout
    written with fullwidth digits: neither the layout DD.DDD.DDD/DDDD-DD
    of digits 0 to 9 nor the sentinel. *)
Theorem C10_fullwidth_digits_kept :
  exists d',
    finalize_data record_with_fullwidth_cnpj = Ok d'
    /\ d' !! "cnpj" = Some (VStr (py "１２.３４５.６７８/０００１-９９"))
    /\ is_ascii_cnpj_format (py "１２.３４５.６７８/０００１-９９") = false
    /\ py "１２.３４５.６７８/０００１-９９" <> DATA_NOT_AVAILABLE.
Proof.
  destruct (finalize_typed record_with_fullwidth_cnpj) as [d' Hd'].
  { split.
    - apply List.Forall_forall. intros g Hg.
      unfold required_fields in Hg. cbn [In] in Hg. unfold field_typed.
      repeat (destruct Hg as [<-|Hg];
              [vm_compute; first [exact I | right; eexists; reflexivity]|]).
      destruct Hg.
    - vm_compute. exact I. }
  exists d'. split; [exact Hd'|].
  split; [|split; [vm_compute; reflexivity|vm_compute; discriminate]].
  rewrite (final_cnpj_value _ _ Hd').
  apply (f_equal (fun x => Some (VStr x))). vm_compute. reflexivity.
Qed.

End FinalRecord.

(* ===================================================================== *)
(** ** Matching does not look past the classes of the pattern

    Two texts whose characters, position by position, are told apart
    by no test of a pattern (and by no test of [\b], [.] and [$])
    have the same matches.  With the relation "both are digits, or
    equal" this turns a statement about all digit strings of a shape
    into a computation on one of them. *)
(* ===================================================================== *)

(** [$]: at the end, or before a newline that ends the text. *)
Definition eol_ok (rest : pystr) : bool :=
  match rest with
  | [] => true
  | [c] => c =? 10
  | _ => false
  end.

Lemma run_eol ic st k :
  run ic REol st k = if eol_ok (st_rest st) then k st else None.
Proof.
  cbn [run]. destruct (st_rest st) as [|x [|y rest]]; try reflexivity.
  - destruct x as [|p]; [reflexivity|].
    do 4 (destruct p as [p|p|]; try reflexivity).
  - destruct x as [|p]; [reflexivity|].
    do 4 (destruct p as [p|p|]; try reflexivity).
Qed.

Section Congruence.
Variable ic : bool.
Variable E : N -> N -> Prop.

Fixpoint respects (r : regex) : Prop :=
  match r with
  | REps => True
  | RChr c => forall x y, E x y -> item_matches ic (CLit c) x = item_matches ic (CLit c) y
  | RSet neg items =>
      forall x y, E x y -> set_matches ic neg items x = set_matches ic neg items y
  | RDot => True
  | RCat r1 r2 => respects r1 /\ respects r2
  | RAlt r1 r2 => respects r1 /\ respects r2
  | RRep _ _ r1 => respects r1
  | RGroup _ r1 => respects r1
  | RBoundary => True
  | RBol => True
  | REol => True
  end.

(** What every pattern may look at: word characters and newlines. *)
Hypothesis E_word : forall x y, E x y -> is_word x = is_word y.
Hypothesis E_newline : forall x y, E x y -> (x =? 10) = (y =? 10).

Definition st_rel (s1 s2 : mstate) : Prop :=
  st_pos s1 = st_pos s2
  /\ st_caps s1 = st_caps s2
  /\ Forall2 E (st_rest s1) (st_rest s2)
  /\ option_Forall2 E (st_prev s1) (st_prev s2).

(** What is seen of a result: where it ends and the groups. *)
Definition obs (o : option mstate) : option (nat * list (nat * (nat * nat))) :=
  option_map (fun s => (st_pos s, st_caps s)) o.

Definition k_rel (k1 k2 : mstate -> option mstate) : Prop :=
  forall t1 t2, st_rel t1 t2 -> obs (k1 t1) = obs (k2 t2).

Lemma obs_none o1 o2 : obs o1 = obs o2 -> o1 = None -> o2 = None.
Proof. destruct o1, o2; cbn; congruence. Qed.

Lemma step_char_congr ok1 ok2 s1 s2 k1 k2 :
  (forall x y, E x y -> ok1 x = ok2 y) ->
  st_rel s1 s2 -> k_rel k1 k2 ->
  obs (step_char s1 ok1 k1) = obs (step_char s2 ok2 k2).
Proof.
  intros Hok (Hp & Hc & Hr & _) Hk. unfold step_char.
  destruct Hr as [|x y r1 r2 Hxy Hr]; [reflexivity|].
  rewrite (Hok x y Hxy). destruct (ok2 y); [|reflexivity].
  apply Hk. repeat split; cbn; try congruence; try assumption.
  constructor. exact Hxy.
Qed.

Lemma at_boundary_congr s1 s2 : st_rel s1 s2 -> at_boundary s1 = at_boundary s2.
Proof.
  intros (_ & _ & Hr & Hp). unfold at_boundary. f_equal.
  - destruct Hp as [x y Hxy|]; [apply E_word; exact Hxy|reflexivity].
  - destruct Hr as [|x y ? ? Hxy _]; [reflexivity|apply E_word; exact Hxy].
Qed.

Lemma run_congr r :
  respects r ->
  forall s1 s2 k1 k2, st_rel s1 s2 -> k_rel k1 k2 ->
                      obs (run ic r s1 k1) = obs (run ic r s2 k2).
Proof.
  induction r as [|c|neg items| |r1 IH1 r2 IH2|r1 IH1 r2 IH2|lo hi r1 IH1|g r1 IH1| | |];
    intros Hr s1 s2 k1 k2 Hs Hk; try rewrite !run_eol; cbn [run].
  - apply Hk. exact Hs.
  - apply step_char_congr; assumption.
  - apply step_char_congr; assumption.
  - apply step_char_congr; try assumption.
    intros x y Hxy. rewrite (E_newline x y Hxy). reflexivity.
  - destruct Hr as [Hr1 Hr2]. apply IH1; try assumption.
    intros t1 t2 Ht. apply IH2; assumption.
  - destruct Hr as [Hr1 Hr2].
    pose proof (IH1 Hr1 s1 s2 k1 k2 Hs Hk) as H1.
    destruct (run ic r1 s1 k1) as [m1|] eqn:E1.
    + destruct (run ic r1 s2 k2) as [m2|]; [exact H1|discriminate H1].
    + rewrite (obs_none _ _ H1 eq_refl). apply IH2; assumption.
  - cbn [respects] in Hr.
    assert (Hlen : length (st_rest s1) = length (st_rest s2)).
    { destruct Hs as (_ & _ & Hrest & _). eapply Forall2_length. exact Hrest. }
    rewrite Hlen.
    generalize (S (length (st_rest s2))) as fuel. generalize 0%nat as n.
    intros n fuel. clear Hlen. revert n s1 s2 Hs.
    induction fuel as [|fuel IHf]; intros n s1 s2 Hs; cbn [rep_loop].
    + destruct (lo <=? n)%nat; [apply Hk; exact Hs|reflexivity].
    + assert (Hstop : obs (if (lo <=? n)%nat then k1 s1 else None)
                      = obs (if (lo <=? n)%nat then k2 s2 else None)).
      { destruct (lo <=? n)%nat; [apply Hk; exact Hs|reflexivity]. }
      destruct (below n hi); [|exact Hstop].
      match goal with
      | |- obs match ?a with _ => _ end = obs match ?b with _ => _ end =>
          assert (Hab : obs a = obs b)
      end.
      { apply IH1; try assumption.
        intros t1 t2 Ht.
        destruct Hs as (Hp & _). pose proof Ht as (Hp' & _).
        rewrite Hp, Hp'.
        destruct (st_pos t2 =? st_pos s2)%nat; [reflexivity|].
        apply IHf. exact Ht. }
      match goal with
      | |- obs match ?a with _ => _ end = obs match ?b with _ => _ end =>
          destruct a as [m1|] eqn:Ea; destruct b as [m2|] eqn:Eb;
          try discriminate Hab; [exact Hab|exact Hstop]
      end.
  - cbn [respects] in Hr. apply IH1; try assumption.
    intros t1 t2 Ht. apply Hk.
    destruct Hs as (Hp & _). destruct Ht as (Hp' & Hc' & Hr' & Hv').
    repeat split; cbn [st_pos st_caps st_rest st_prev]; try assumption.
    congruence.
  - rewrite (at_boundary_congr s1 s2 Hs).
    destruct (at_boundary s2); [apply Hk; exact Hs|reflexivity].
  - destruct Hs as (Hp & Hs'). rewrite Hp.
    destruct (st_pos s2 =? 0)%nat; [|reflexivity].
    apply Hk. split; assumption.
  - assert (He : eol_ok (st_rest s1) = eol_ok (st_rest s2)).
    { destruct Hs as (_ & _ & Hrest & _).
      destruct Hrest as [|x y r1 r2 Hxy Hrest]; [reflexivity|].
      destruct Hrest; [|reflexivity]. cbn [eol_ok]. apply E_newline. exact Hxy. }
    rewrite He. destruct (eol_ok (st_rest s2)); [apply Hk; exact Hs|reflexivity].
Qed.

Lemma match_at_congr r pos prev1 prev2 rest1 rest2 :
  respects r -> Forall2 E rest1 rest2 -> option_Forall2 E prev1 prev2 ->
  match_at ic r pos prev1 rest1 = match_at ic r pos prev2 rest2.
Proof.
  intros Hr Hrest Hprev. unfold match_at.
  assert (H : obs (run ic r (MState pos prev1 rest1 []) Some)
              = obs (run ic r (MState pos prev2 rest2 []) Some)).
  { apply run_congr; [exact Hr| |].
    - repeat split; assumption.
    - intros t1 t2 (Hp & Hc & _). cbn. congruence. }
  destruct (run ic r (MState pos prev1 rest1 []) Some) as [a|],
           (run ic r (MState pos prev2 rest2 []) Some) as [b|];
    try discriminate H; [|reflexivity].
  injection H as -> ->. reflexivity.
Qed.

Lemma search_from_congr r rest1 rest2 :
  respects r -> Forall2 E rest1 rest2 ->
  forall pos prev1 prev2, option_Forall2 E prev1 prev2 ->
  search_from ic r pos prev1 rest1 = search_from ic r pos prev2 rest2.
Proof.
  intros Hr Hrest. induction Hrest as [|x y r1 r2 Hxy Hrest IH];
    intros pos prev1 prev2 Hprev; cbn [search_from].
  - rewrite (match_at_congr r pos prev1 prev2 [] []) by (assumption || constructor).
    reflexivity.
  - rewrite (match_at_congr r pos prev1 prev2 (x :: r1) (y :: r2))
      by (assumption || (constructor; assumption)).
    destruct (match_at ic r pos prev2 (y :: r2)); [reflexivity|].
    apply IH. constructor. exact Hxy.
Qed.

Lemma re_search_congr r text1 text2 :
  respects r -> Forall2 E text1 text2 ->
  re_search ic r text1 = re_search ic r text2.
Proof.
  intros Hr Ht. unfold re_search. apply search_from_congr; try assumption.
  constructor.
Qed.

Lemma re_match_congr r text1 text2 :
  respects r -> Forall2 E text1 text2 ->
  re_match ic r text1 = re_match ic r text2.
Proof.
  intros Hr Ht. unfold re_match. apply match_at_congr; try assumption.
  constructor.
Qed.



End Congruence.

(** *** Digits

    Two characters are alike when both are digits or they are equal. *)
Definition digit_alike (x y : N) : Prop :=
  (is_digit x = true /\ is_digit y = true) \/ x = y.

Lemma digit_lower c : is_digit c = true -> char_lower c = c.
Proof.
  intros H. apply digit_bounds in H. unfold char_lower, in_range.
  repeat match goal with
         | |- context [(?a <=? ?b)] => destruct (N.leb_spec a b)
         | |- context [(?a =? ?b)] => destruct (N.eqb_spec a b)
         end; cbn; try reflexivity; lia.
Qed.

Lemma digit_upper c : is_digit c = true -> char_upper c = c.
Proof.
  intros H. apply digit_bounds in H. unfold char_upper, in_range.
  repeat match goal with
         | |- context [(?a <=? ?b)] => destruct (N.leb_spec a b)
         | |- context [(?a =? ?b)] => destruct (N.eqb_spec a b)
         end; cbn; try reflexivity; lia.
Qed.

Lemma digit_alike_word x y : digit_alike x y -> is_word x = is_word y.
Proof.
  intros [[Hx Hy]| ->]; [|reflexivity].
  rewrite (digit_is_word x Hx), (digit_is_word y Hy). reflexivity.
Qed.

Lemma digit_alike_newline x y : digit_alike x y -> (x =? 10) = (y =? 10).
Proof.
  intros [[Hx Hy]| ->]; [|reflexivity].
  apply digit_bounds in Hx, Hy.
  destruct (N.eqb_spec x 10), (N.eqb_spec y 10); try reflexivity; lia.
Qed.

(** An item whose test gives the same answer on all digits. *)
Definition blind_item (ic : bool) (it : citem) : bool :=
  match it with
  | CLit c => negb (is_digit (if ic then char_lower c else c))
  | CRange lo hi => (hi <? 48) || ((57 <? lo) && (hi <? 1632))
  | CDigit _ => true
  | CSpace _ => true
  | CWord _ => true
  end.

Lemma blind_item_spec ic it x y :
  blind_item ic it = true -> is_digit x = true -> is_digit y = true ->
  item_matches ic it x = item_matches ic it y.
Proof.
  intros Hb Hx Hy. destruct it as [c|lo hi|neg|neg|neg]; cbn [item_matches blind_item] in *.
  - rewrite (digit_lower x Hx), (digit_lower y Hy).
    apply negb_true_iff in Hb.
    destruct ic.
    + destruct (N.eqb_spec x (char_lower c)) as [->|_]; [congruence|].
      destruct (N.eqb_spec y (char_lower c)) as [->|_]; [congruence|reflexivity].
    + destruct (N.eqb_spec x c) as [->|_]; [congruence|].
      destruct (N.eqb_spec y c) as [->|_]; [congruence|reflexivity].
  - rewrite (digit_lower x Hx), (digit_lower y Hy), (digit_upper x Hx), (digit_upper y Hy).
    rewrite !orb_diag.
    assert (H : in_range lo hi x = in_range lo hi y).
    { apply digit_bounds in Hx, Hy. unfold in_range.
      repeat match goal with
             | H : context [(?a <? ?b)] |- _ => destruct (N.ltb_spec a b)
             | H : context [(?a <=? ?b)] |- _ => destruct (N.leb_spec a b)
             | |- context [(?a <=? ?b)] => destruct (N.leb_spec a b)
             end; cbn in *; try reflexivity; try discriminate; lia. }
    rewrite H. reflexivity.
  - rewrite Hx, Hy. reflexivity.
  - rewrite (digit_not_space x Hx), (digit_not_space y Hy). reflexivity.
  - rewrite (digit_is_word x Hx), (digit_is_word y Hy). reflexivity.
Qed.

Fixpoint blind (ic : bool) (r : regex) : bool :=
  match r with
  | RChr c => blind_item ic (CLit c)
  | RSet _ items => forallb (blind_item ic) items
  | RCat r1 r2 => blind ic r1 && blind ic r2
  | RAlt r1 r2 => blind ic r1 && blind ic r2
  | RRep _ _ r1 => blind ic r1
  | RGroup _ r1 => blind ic r1
  | _ => true
  end.

Lemma blind_respects ic r : blind ic r = true -> respects ic digit_alike r.
Proof.
  induction r as [|c|neg items| |r1 IH1 r2 IH2|r1 IH1 r2 IH2|lo hi r1 IH1|g r1 IH1| | |];
    cbn [blind respects]; intros Hb; try exact I; auto.
  - intros x y [[Hx Hy]| ->]; [|reflexivity]. apply blind_item_spec; assumption.
  - intros x y [[Hx Hy]| ->]; [|reflexivity]. unfold set_matches. f_equal.
    induction items as [|it items IH]; cbn [existsb forallb] in *; [reflexivity|].
    apply andb_true_iff in Hb as [Hi Hb].
    rewrite (blind_item_spec ic it x y Hi Hx Hy), (IH Hb). reflexivity.
  - apply andb_true_iff in Hb as [H1 H2]. auto.
  - apply andb_true_iff in Hb as [H1 H2]. auto.
Qed.

(** The matches of a digit-blind pattern on two texts that differ
    only in which digits they show. *)
Lemma blind_search ic r text1 text2 :
  blind ic r = true -> Forall2 digit_alike text1 text2 ->
  re_search ic r text1 = re_search ic r text2.
Proof.
  intros Hb. apply re_search_congr;
    [apply digit_alike_word|apply digit_alike_newline|apply blind_respects; exact Hb].
Qed.

Lemma blind_match ic r text1 text2 :
  blind ic r = true -> Forall2 digit_alike text1 text2 ->
  re_match ic r text1 = re_match ic r text2.
Proof.
  intros Hb. apply re_match_congr;
    [apply digit_alike_word|apply digit_alike_newline|apply blind_respects; exact Hb].
Qed.


(* ===================================================================== *)
(** ** The three lexical forms of a date *)
(* ===================================================================== *)

Definition digits (s : pystr) : Prop := Forall (fun c => is_digit c = true) s.

Lemma digit_not_slash c : is_digit c = true -> (c =? 47) = false.
Proof. intros H. apply digit_bounds in H. apply N.eqb_neq. lia. Qed.

Lemma split_slash_digit c s cur :
  is_digit c = true -> split_char_aux 47 (c :: s) cur = split_char_aux 47 s (c :: cur).
Proof. intros H. cbn [split_char_aux]. rewrite (digit_not_slash c H). reflexivity. Qed.

Lemma split_slash_slash s cur :
  split_char_aux 47 (47 :: s) cur = rev cur :: split_char_aux 47 s [].
Proof. reflexivity. Qed.

(** Literals of the source in the goal, evaluated. *)
Ltac eval_py :=
  repeat match goal with
         | |- context [py ?s] =>
             let v := eval vm_compute in (py s) in change (py s) with v
         end.

(** A text and the same text with every digit replaced by a zero. *)
Ltac alike :=
  repeat match goal with
         | |- Forall2 _ [] [] => constructor
         | |- Forall2 _ (_ :: _) (_ :: _) =>
             constructor;
             [ first [ right; reflexivity | left; split; [assumption|reflexivity] ] | ]
         end.

(** [strip] of an explicit text that begins and ends with a digit. *)
Ltac strip_digits :=
  unfold strip, rstrip; cbn [lstrip];
  rewrite digit_not_space by assumption;
  cbn [rev app lstrip];
  rewrite digit_not_space by assumption;
  cbn [rev app].

(** The lists of known length, written out. *)
Ltac explicit s :=
  repeat (destruct s as [|? s]; cbn [length] in *; try lia; try discriminate).

Ltac split_digits :=
  repeat match goal with
         | H : digits (_ :: _) |- _ => inversion_clear H
         | H : Forall _ (_ :: _) |- _ => inversion_clear H
         | H : digits [] |- _ => clear H
         | H : Forall _ [] |- _ => clear H
         end.

(** The text of the goal with a zero for each unknown character. *)
Ltac template_of t :=
  lazymatch t with
  | @nil _ => constr:(@nil N)
  | ?c :: ?rest =>
      let r := template_of rest in
      let c' := match c with
                | _ => let _ := match goal with _ => is_var c end in constr:(48)
                | _ => constr:(c)
                end in
      constr:(c' :: r)
  end.

(** A search of the goal is computed on the template of its text.
    [f] is [re_search], [re_match] or [re_finditer] and [Hf] the
    lemma that moves it to a text that is alike. *)
Ltac by_template f Hf :=
  match goal with
  | |- context [f ?ic ?p ?t] =>
      let t0 := template_of t in
      let H := fresh in
      assert (H : f ic p t = f ic p t0)
        by (apply Hf; [vm_compute; reflexivity|alike]);
      rewrite H; clear H;
      let v := eval vm_compute in (f ic p t0) in
      replace (f ic p t0) with v by (vm_compute; reflexivity)
  end.

Ltac split_slashes :=
  unfold split_char;
  repeat first [ rewrite split_slash_digit by assumption
               | rewrite split_slash_slash ];
  cbn [split_char_aux rev app].

Section DateForms.
Import DateExtractor.

Lemma normalize_any_numeric (day month year : pystr) :
  digits day -> digits month -> digits year ->
  (length day = 1 \/ length day = 2)%nat ->
  (length month = 1 \/ length month = 2)%nat ->
  length year = 4%nat ->
  normalize_any (day ++ py "/" ++ month ++ py "/" ++ year)
  = if _is_valid_date day month year
    then Some (year ++ py "-" ++ zfill 2 month ++ py "-" ++ zfill 2 day)
    else None.
Proof.
  intros Hd Hm Hy Ld Lm Ly.
  destruct Ld as [Ld|Ld], Lm as [Lm|Lm];
    explicit day; explicit month; explicit year; split_digits; eval_py;
    cbn [app]; unfold normalize_any; strip_digits;
    by_template re_match blind_match;
    unfold normalize_simple; by_template re_search blind_search;
    cbn [group List.find fst snd Nat.eqb m_caps slice firstn skipn Nat.sub];
    split_slashes;
    (match goal with
     | |- context [_is_valid_date ?d ?m ?y] => destruct (_is_valid_date d m y)
     end; [reflexivity|]);
    unfold normalize_extended; by_template re_search blind_search; reflexivity.
Qed.

(** A string in ISO form goes through as it is, whatever the date. *)
Lemma normalize_any_iso (year month day : pystr) :
  digits year -> digits month -> digits day ->
  length year = 4%nat -> length month = 2%nat -> length day = 2%nat ->
  normalize_any (year ++ py "-" ++ month ++ py "-" ++ day)
  = Some (year ++ py "-" ++ month ++ py "-" ++ day).
Proof.
  intros Hy Hm Hd Ly Lm Ld.
  explicit day; explicit month; explicit year; split_digits; eval_py;
    cbn [app]; unfold normalize_any; strip_digits;
    by_template re_match blind_match. reflexivity.
Qed.








End DateForms.

(* ===================================================================== *)
(** ** The order of the CNPJ patterns *)
(* ===================================================================== *)

Section CNPJOrder.
Import CNPJExtractor.








End CNPJOrder.

(* ===================================================================== *)
(** * Further properties of the extractors and builders *)
(* ===================================================================== *)

(* ===================================================================== *)
(** ** CNPJ: format, validation, the two normalizers *)
(* ===================================================================== *)

Section CNPJFacts.
Import CNPJExtractor.

(** X1: [normalize] and [extract_from_ocr] return the empty string or
    a string in the layout DD.DDD.DDD/DDDD-DD, on every input. *)
Theorem X1_cnpj_empty_or_formatted (text : pystr) :
  (normalize text = [] \/ is_cnpj_format (normalize text) = true)
  /\ (extract_from_ocr text = [] \/ is_cnpj_format (extract_from_ocr text) = true).
Proof.
  split; [apply normalize_format|].
  destruct (extract_from_ocr_normalized text) as [raw ->].
  apply normalize_format.
Qed.

(** X2: [validate] accepts exactly the strings that [normalize] can
    format, the non-empty strings with fourteen digits. *)
Theorem X2_validate_iff_normalizes (cnpj : pystr) :
  validate cnpj = true <-> normalize cnpj <> [].
Proof.
  unfold validate.
  destruct (normalize_cases cnpj) as [[Hn Hc]|(a & b & c & d & e & f & g & h & i & j
    & k & l & m & n & Hd & Hn)].
  - rewrite Hn. split; [|congruence].
    destruct cnpj as [|c0 t]; [discriminate|].
    destruct Hc as [Hc|Hc]; [discriminate Hc|].
    rewrite only_digits_filter. intros H. apply andb_true_iff in H as [H _].
    apply Nat.eqb_eq in H. contradiction.
  - rewrite Hn. split; [discriminate|]. intros _.
    destruct cnpj as [|c0 t]; [discriminate Hd|].
    rewrite only_digits_filter.
    pose proof (filter_digits_all (c0 :: t)) as Hall.
    rewrite Hd in *. apply andb_true_iff. split; [reflexivity|].
    cbn [str_isdigit]. apply forallb_forall. intros x Hx.
    apply digit_isdigit. apply (proj1 (List.Forall_forall _ _) Hall x Hx).
Qed.

(** X3: a formatted CNPJ still has the digits of the input, in order;
    and [normalize] looks at nothing but the digits. *)
Theorem X3_normalize_keeps_the_digits (cnpj other : pystr) :
  (normalize cnpj <> [] -> only_digits (normalize cnpj) = only_digits cnpj)
  /\ (cnpj <> [] -> other <> [] -> only_digits cnpj = only_digits other ->
      normalize cnpj = normalize other).
Proof.
  split.
  - intros Hne.
    destruct (normalize_cases cnpj) as [[Hn _]|(a & b & c & d & e & f & g & h & i & j
      & k & l & m & n & Hd & Hn)]; [contradiction|].
    pose proof (filter_digits_all cnpj) as Hall. rewrite Hd in Hall.
    rewrite Hn, !only_digits_filter, Hd.
    repeat match goal with
           | H : Forall _ (_ :: _) |- _ => inversion_clear H
           end.
    repeat first [ rewrite filter_digit_cons by assumption
                 | rewrite filter_nondigit_cons by reflexivity ].
    reflexivity.
  - intros H1 H2 Hd. unfold normalize.
    destruct cnpj; [contradiction|]. destruct other; [contradiction|].
    rewrite Hd. reflexivity.
Qed.

(** X4: [Formatters.normalize_cnpj] agrees with the extractor's
    [normalize] on what can be formatted and gives the text back
    otherwise; applying it twice is applying it once. *)
Theorem X4_formatter_returns_input_when_not_a_cnpj (s : pystr) :
  Formatters.normalize_cnpj s = (if pystr_eqb (normalize s) [] then s else normalize s)
  /\ Formatters.normalize_cnpj (Formatters.normalize_cnpj s) = Formatters.normalize_cnpj s.
Proof.
  assert (H : forall x, Formatters.normalize_cnpj x
                        = if pystr_eqb (normalize x) [] then x else normalize x).
  { intros x. unfold Formatters.normalize_cnpj.
    destruct (normalize_cases x) as [[Hn Hc]|(a & b & c & d & e & f & g & h & i & j
      & k & l & m & n & Hd & Hn)]; rewrite Hn.
    - destruct x as [|c0 t]; [reflexivity|].
      destruct Hc as [Hc|Hc]; [discriminate Hc|].
      rewrite only_digits_filter.
      destruct (Nat.eqb_spec (length (List.filter is_digit (c0 :: t))) 14); [contradiction|].
      reflexivity.
    - destruct x as [|c0 t]; [discriminate Hd|].
      rewrite only_digits_filter, Hd. reflexivity. }
  split; [apply H|].
  rewrite !H.
  destruct (pystr_eqb (normalize s) []) eqn:E; [rewrite E; reflexivity|].
  rewrite normalize_idempotent, E. reflexivity.
Qed.

End CNPJFacts.

(* ===================================================================== *)
(** ** Dates: round trip and the two validators *)
(* ===================================================================== *)

Lemma digit_not_hyphen c : is_digit c = true -> (c =? 45) = false.
Proof. intros H. apply digit_bounds in H. apply N.eqb_neq. lia. Qed.

Lemma split_hyphen_digit c s cur :
  is_digit c = true -> split_char_aux 45 (c :: s) cur = split_char_aux 45 s (c :: cur).
Proof. intros H. cbn [split_char_aux]. rewrite (digit_not_hyphen c H). reflexivity. Qed.

Lemma split_hyphen_hyphen s cur :
  split_char_aux 45 (45 :: s) cur = rev cur :: split_char_aux 45 s [].
Proof. reflexivity. Qed.

Section DateRoundTrip.
Import DateExtractor.

(** X5: a date in ISO form is turned by [iso_to_br_date] into
    DD/MM/YYYY, and when it is a date of the calendar [normalize_any]
    brings the Brazilian form back to the same ISO string. *)
Theorem X5_iso_br_round_trip (year month day : pystr) :
  digits year -> digits month -> digits day ->
  length year = 4%nat -> length month = 2%nat -> length day = 2%nat ->
  Formatters.iso_to_br_date (year ++ py "-" ++ month ++ py "-" ++ day)
  = Ok (day ++ py "/" ++ month ++ py "/" ++ year)
  /\ (_is_valid_date day month year = true ->
      normalize_any (day ++ py "/" ++ month ++ py "/" ++ year)
      = Some (year ++ py "-" ++ month ++ py "-" ++ day)).
Proof.
  intros Hy Hm Hd Ly Lm Ld. split.
  - explicit day; explicit month; explicit year; split_digits; eval_py; cbn [app].
    unfold Formatters.iso_to_br_date.
    by_template re_match blind_match.
    unfold split_char.
    repeat first [ rewrite split_hyphen_digit by assumption
                 | rewrite split_hyphen_hyphen ].
    reflexivity.
  - intros Hv.
    rewrite normalize_any_numeric by (auto; lia).
    rewrite Hv. unfold zfill. rewrite Lm, Ld. reflexivity.
Qed.

Lemma digits_py_15 : digits (py "15").
Proof. repeat constructor. Qed.

Lemma digits_py_08 : digits (py "08").
Proof. repeat constructor. Qed.

Lemma digits_py_2024 : digits (py "2024").
Proof. repeat constructor. Qed.

(** The theorem at 15 August 2024. *)
Lemma X5_witness :
  Formatters.iso_to_br_date (py "2024" ++ py "-" ++ py "08" ++ py "-" ++ py "15")
  = Ok (py "15" ++ py "/" ++ py "08" ++ py "/" ++ py "2024").
Proof.
  exact (proj1 (X5_iso_br_round_trip (py "2024") (py "08") (py "15")
                  digits_py_2024 digits_py_08 digits_py_15 eq_refl eq_refl eq_refl)).
Defined.

(** X6: [DateValidator.is_valid_date] accepts every date from 1900 on
    that the extractor's calendar check accepts, and it accepts more:
    31 February passes it. *)
Theorem X6_date_validator_is_weaker (day month year : pystr) :
  (_is_valid_date day month year = true ->
   (exists y, py_int year = Some y /\ (1900 <= y)%Z) ->
   DateValidator.is_valid_date day month year = true)
  /\ DateValidator.is_valid_date (py "31") (py "02") (py "2023") = true
  /\ _is_valid_date (py "31") (py "02") (py "2023") = false.
Proof.
  split; [|vm_compute; split; reflexivity].
  unfold _is_valid_date, DateValidator.is_valid_date, datetime_ok.
  intros H (y & Hy & Hge). rewrite Hy in *.
  destruct (py_int month) as [m|]; [|destruct (py_int day); discriminate].
  destruct (py_int day) as [d|]; [|discriminate].
  repeat match type of H with
         | (_ && _) = true => apply andb_true_iff in H; destruct H as [H ?]
         end.
  match goal with
  | H : (d <=? days_in_month y m)%Z = true |- _ =>
      apply Z.leb_le in H;
      assert (Hdm : (days_in_month y m <= 31)%Z)
        by (unfold days_in_month;
            repeat match goal with
                   | |- context [if ?b then _ else _] => destruct b
                   end; lia)
  end.
  repeat match goal with
         | H : (_ <=? _)%Z = true |- _ => apply Z.leb_le in H
         end.
  repeat match goal with
         | |- context [(?a <=? ?b)%Z] => destruct (Z.leb_spec a b); try lia
         end.
  reflexivity.
Qed.

Lemma X6_witness :
  DateValidator.is_valid_date (py "29") (py "02") (py "2024") = true.
Proof.
  apply (proj1 (X6_date_validator_is_weaker (py "29") (py "02") (py "2024"))).
  - vm_compute. reflexivity.
  - exists 2024%Z. split; [vm_compute; reflexivity|lia].
Defined.

End DateRoundTrip.

(* ===================================================================== *)
(** ** Documents: classes, names and file names *)
(* ===================================================================== *)

Section DocumentFacts.
Import DocumentExtractor.

Lemma first_type_in text rules doc_type :
  first_type text rules = Some doc_type ->
  In doc_type (map snd rules).
Proof.
  induction rules as [|[[pattern name] code] rules IH]; cbn [first_type map In snd];
    [discriminate|].
  destruct (re_search false pattern text); [intros [= <-]; left; reflexivity|].
  intros H. right. apply IH. exact H.
Qed.

(** The class of a type code: accessory, corporate, or neither. *)
Definition type_class (doc_type : pystr) : bool * bool :=
  (is_accessory_document doc_type, is_corporate_document doc_type).

(** X7: the type code of every text is accessory, corporate or the
    generic code, and exactly one of the three. *)
Theorem X7_every_type_has_one_class (text : pystr) :
  let doc_type := identify_document_type text in
  (type_class doc_type = (true, false) /\ doc_type <> py "DOCUMENTO_GENERICO")
  \/ (type_class doc_type = (false, true) /\ doc_type <> py "DOCUMENTO_GENERICO")
  \/ (type_class doc_type = (false, false) /\ doc_type = py "DOCUMENTO_GENERICO").
Proof.
  cbn zeta. unfold identify_document_type.
  destruct text as [|c t]; [right; right; vm_compute; auto|].
  destruct (first_type _ DOCUMENT_PATTERNS) as [doc_type|] eqn:E;
    [|right; right; vm_compute; auto].
  apply first_type_in in E. unfold DOCUMENT_PATTERNS in E. cbn [map snd In] in E.
  repeat (destruct E as [<-|E];
          [first [ left; vm_compute; split; [reflexivity|discriminate]
                 | right; left; vm_compute; split; [reflexivity|discriminate] ]|]).
  destruct E.
Qed.

(** Every rule with the display name of a power of attorney has the
    type code of one. *)
Lemma procuration_rules_typed :
  Forall (fun rule : regex * pystr * pystr =>
            procuration_name (snd (fst rule)) = true -> snd rule = py "PROCURACAO")
    DOCUMENT_PATTERNS.
Proof.
  unfold DOCUMENT_PATTERNS.
  repeat (constructor; [cbn [fst snd]; first [ reflexivity | vm_compute; discriminate ]|]).
  constructor.
Qed.

Lemma first_name_follows_type text rules :
  Forall (fun rule : regex * pystr * pystr =>
            procuration_name (snd (fst rule)) = true -> snd rule = py "PROCURACAO")
    rules ->
  match first_type text rules with
  | None => first_name text rules = None
  | Some doc_type =>
      doc_type <> py "PROCURACAO" ->
      exists pattern doc_name,
        In (pattern, doc_name, doc_type) rules
        /\ first_name text rules = Some doc_name
  end.
Proof.
  induction 1 as [|[[pattern name] code] rules Hr _ IH]; cbn [first_type first_name].
  - reflexivity.
  - cbn [fst snd] in Hr.
    destruct (re_search false pattern text).
    + intros Hne. exists pattern, name. split; [left; reflexivity|].
      fold (procuration_name name).
      destruct (procuration_name name); [exfalso; apply Hne, Hr; reflexivity|reflexivity].
    + destruct (first_type text rules) as [t|]; [|exact IH].
      intros Hne. destruct (IH Hne) as (p & n & Hin & Hn).
      exists p, n. split; [right; exact Hin|exact Hn].
Qed.

(** X8: unless the type code is that of a power of attorney, the
    display name and the type code of a text come from one and the
    same rule of the table, or both are the fallback. *)
Theorem X8_name_and_type_from_one_rule (text : pystr) :
  identify_document_type text <> py "PROCURACAO" ->
  (exists pattern,
      In (pattern, extract_document_name text, identify_document_type text)
        DOCUMENT_PATTERNS)
  \/ (extract_document_name text = DATA_NOT_AVAILABLE
      /\ identify_document_type text = py "DOCUMENTO_GENERICO").
Proof.
  unfold identify_document_type, extract_document_name.
  destruct text as [|c t]; [intros _; right; split; reflexivity|].
  pose proof (first_name_follows_type
                (re_sub false (re "\s+") (py " ") (str_upper (c :: t)))
                DOCUMENT_PATTERNS procuration_rules_typed) as H.
  destruct (first_type _ DOCUMENT_PATTERNS) as [doc_type|].
  - intros Hne. destruct (H Hne) as (p & n & Hin & ->).
    left. exists p. exact Hin.
  - intros _. rewrite H. right. split; reflexivity.
Qed.

Lemma X8_witness :
  exists pattern,
    In (pattern, extract_document_name (py "Estatuto  Social consolidado"),
        identify_document_type (py "Estatuto  Social consolidado")) DOCUMENT_PATTERNS.
Proof.
  destruct (X8_name_and_type_from_one_rule (py "Estatuto  Social consolidado"))
    as [H|[H _]].
  - vm_compute. discriminate.
  - exact H.
  - vm_compute in H. discriminate H.
Defined.

Lemma split_char_aux_nonempty sep s cur : split_char_aux sep s cur <> [].
Proof.
  revert cur. induction s as [|c s IH]; intros cur; cbn [split_char_aux]; [discriminate|].
  destruct (c =? sep); [discriminate|apply IH].
Qed.

Lemma last_cons_nonempty {A} (x : A) (l : list A) d :
  l <> [] -> List.last (x :: l) d = List.last l d.
Proof. destruct l; [congruence|reflexivity]. Qed.

Lemma split_char_last sep s cur :
  ~ In sep cur ->
  let tail := List.last (split_char_aux sep s cur) [] in
  ~ In sep tail /\ exists pre, rev cur ++ s = pre ++ tail.
Proof.
  revert cur. induction s as [|c s IH]; intros cur Hcur; cbn [split_char_aux].
  - cbn [List.last]. split.
    + rewrite <- in_rev. exact Hcur.
    + exists []. rewrite app_nil_r. reflexivity.
  - destruct (N.eqb_spec c sep) as [->|Hne].
    + rewrite last_cons_nonempty by apply split_char_aux_nonempty.
      destruct (IH [] (fun H => H)) as [H1 [pre H2]].
      split; [exact H1|]. cbn [rev app] in H2.
      exists (rev cur ++ sep :: pre). rewrite <- app_assoc. cbn [app].
      rewrite <- H2. reflexivity.
    + destruct (IH (c :: cur)) as [H1 [pre H2]].
      { intros [H|H]; [congruence|exact (Hcur H)]. }
      split; [exact H1|]. exists pre. rewrite <- H2.
      cbn [rev]. rewrite <- app_assoc. reflexivity.
Qed.

Lemma file_name_spec (uri : pystr) :
  ~ In 47 (file_name uri) /\ exists pre, uri = pre ++ file_name uri.
Proof.
  unfold file_name. destruct (existsb (N.eqb 47) uri) eqn:E.
  - apply (split_char_last 47 uri []). intros [].
  - split; [|exists []; reflexivity].
    intros Hin. apply not_true_iff_false in E. apply E.
    apply existsb_exists. exists 47. split; [exact Hin|reflexivity].
Qed.

(** X9: the file name taken from a URI has no slash in it and is the
    end of the URI. *)
Theorem X9_file_name_is_last_segment (uri : pystr) :
  ~ In 47 (file_name uri) /\ exists pre, uri = pre ++ file_name uri.
Proof. apply file_name_spec. Qed.

End DocumentFacts.

(* ===================================================================== *)
(** ** Representatives: what the two filters return *)
(* ===================================================================== *)

Lemma filter_all_id {A} (f : A -> bool) (l : list A) :
  Forall (fun x => f x = true) l -> List.filter f l = l.
Proof.
  induction 1 as [|x l Hx Hl IH]; cbn [List.filter]; [reflexivity|].
  rewrite Hx, IH. reflexivity.
Qed.

Lemma map_all_id {A} (f : A -> A) (l : list A) :
  Forall (fun x => f x = x) l -> map f l = l.
Proof.
  induction 1 as [|x l Hx Hl IH]; cbn [map]; [reflexivity|].
  rewrite Hx, IH. reflexivity.
Qed.

Lemma filter_sublist {A} (f : A -> bool) (l : list A) : sublist (List.filter f l) l.
Proof.
  induction l as [|x l IH]; cbn [List.filter]; [constructor|].
  destruct (f x); constructor; exact IH.
Qed.

Lemma sublist_forall {A} (P : A -> Prop) (l1 l2 : list A) :
  sublist l1 l2 -> Forall P l2 -> Forall P l1.
Proof.
  induction 1 as [|x l1 l2 Hs IH|x l1 l2 Hs IH]; intros H.
  - constructor.
  - inversion H; subst. constructor; auto.
  - inversion H; subst. auto.
Qed.

Section ExtractorFilter.
Import RepresentativeExtractor.

(** All ten fields of the record hold a non-empty string. *)
Definition filled (r : rep) : Prop :=
  Forall (fun field => falsy_field r field = false) all_fields.

(** The key under which the last loop remembers a name. *)
Definition name_key (r : rep) : pystr := str_upper (strip (get_or_empty r "nome")).

Lemma fill_field_keeps r field other :
  falsy_field r other = false -> falsy_field (fill_field r field) other = false.
Proof.
  unfold fill_field. destruct (falsy_field r field); [|auto].
  intros H. unfold falsy_field. destruct (decide (field = other)) as [->|Hne].
  - rewrite lookup_insert_eq. reflexivity.
  - rewrite lookup_insert_ne by exact Hne. exact H.
Qed.

Lemma fill_field_self r field : falsy_field (fill_field r field) field = false.
Proof.
  unfold fill_field. destruct (falsy_field r field) eqn:E; [|exact E].
  unfold falsy_field. rewrite lookup_insert_eq. reflexivity.
Qed.

Lemma fold_fill_keeps fields r other :
  falsy_field r other = false ->
  falsy_field (fold_left fill_field fields r) other = false.
Proof.
  revert r. induction fields as [|f fields IH]; intros r H; cbn [fold_left]; [exact H|].
  apply IH, fill_field_keeps, H.
Qed.

Lemma fold_fill_filled fields r :
  Forall (fun field => falsy_field (fold_left fill_field fields r) field = false) fields.
Proof.
  revert r. induction fields as [|f fields IH]; intros r; cbn [fold_left]; constructor.
  - apply fold_fill_keeps, fill_field_self.
  - apply IH.
Qed.

Lemma fill_fields_filled r : filled (fill_fields r).
Proof. apply fold_fill_filled. Qed.

Lemma fold_fill_id fields r :
  Forall (fun field => falsy_field r field = false) fields ->
  fold_left fill_field fields r = r.
Proof.
  induction 1 as [|f fields Hf _ IH]; cbn [fold_left]; [reflexivity|].
  unfold fill_field at 2. rewrite Hf. exact IH.
Qed.

Lemma fill_fields_id r : filled r -> fill_fields r = r.
Proof. apply fold_fill_id. Qed.

Lemma dedup_sublist seen reps : sublist (dedup seen reps) reps.
Proof.
  revert seen. induction reps as [|r reps IH]; intros seen; cbn [dedup]; [constructor|].
  destruct (_ && _); [|constructor; apply IH].
  case_bool_decide; constructor; apply IH.
Qed.

Lemma dedup_keys seen reps :
  Forall (fun r => name_key r ∉ seen) (dedup seen reps)
  /\ NoDup (map name_key (dedup seen reps)).
Proof.
  revert seen. induction reps as [|r reps IH]; intros seen; cbn [dedup].
  - split; constructor.
  - destruct (_ && _); [|apply IH].
    fold (name_key r). case_bool_decide as Hin; [apply IH|].
    destruct (IH ({[ name_key r ]} ∪ seen)) as [Hout Hnd].
    split.
    + constructor; [exact Hin|].
      eapply Forall_impl; [exact Hout|]. cbn beta. intros x Hx Hs.
      apply Hx, elem_of_union_r, Hs.
    + cbn [map]. constructor; [|exact Hnd].
      intros Hmem. apply list_elem_of_In, List.in_map_iff in Hmem as (x & Hk & Hx).
      rewrite List.Forall_forall in Hout. apply (Hout x Hx).
      apply elem_of_union_l, elem_of_singleton. exact Hk.
Qed.

Lemma dedup_idempotent seen reps : dedup seen (dedup seen reps) = dedup seen reps.
Proof.
  revert seen. induction reps as [|r reps IH]; intros seen; cbn [dedup]; [reflexivity|].
  destruct (_ && _) eqn:E; [|apply IH].
  case_bool_decide as Hin; [apply IH|].
  cbn [dedup]. rewrite E. rewrite bool_decide_eq_false_2 by exact Hin.
  rewrite IH. reflexivity.
Qed.

(** What [validate_and_filter] is before its last loop. *)
Definition filtered_representatives (representatives : list rep) : list rep :=
  List.filter (fun r => negb (is_procurador r)) (map fill_fields representatives).

Lemma validate_and_filter_eq representatives :
  validate_and_filter representatives = dedup ∅ (filtered_representatives representatives).
Proof. destruct representatives; reflexivity. Qed.

Lemma filtered_representatives_ok representatives :
  Forall (fun r => filled r /\ is_procurador r = false)
    (filtered_representatives representatives).
Proof.
  apply List.Forall_forall. intros r Hr. apply List.filter_In in Hr as [Hr Hp].
  apply List.in_map_iff in Hr as (r0 & <- & _).
  split; [apply fill_fields_filled|]. apply negb_true_iff. exact Hp.
Qed.

(** X10: every record [validate_and_filter] returns has a non-empty
    string under each of its ten fields and a post without an
    attorney keyword; the upper-cased, stripped names of the records
    are pairwise distinct; and the records are, in their order, among
    the filled input records. *)
Theorem X10_filter_result_is_filled_and_distinct (representatives : list rep) :
  Forall (fun r => filled r /\ is_procurador r = false)
    (validate_and_filter representatives)
  /\ NoDup (map name_key (validate_and_filter representatives))
  /\ sublist (validate_and_filter representatives) (map fill_fields representatives).
Proof.
  rewrite validate_and_filter_eq.
  assert (Hsub : sublist (dedup ∅ (filtered_representatives representatives))
                   (filtered_representatives representatives))
    by apply dedup_sublist.
  split; [|split].
  - eapply sublist_forall; [exact Hsub|apply filtered_representatives_ok].
  - apply dedup_keys.
  - etransitivity; [exact Hsub|apply filter_sublist].
Qed.

(** X11: [validate_and_filter] changes nothing in a list it has
    returned. *)
Theorem X11_filter_is_idempotent (representatives : list rep) :
  validate_and_filter (validate_and_filter representatives)
  = validate_and_filter representatives.
Proof.
  rewrite !validate_and_filter_eq.
  set (out := dedup ∅ (filtered_representatives representatives)).
  assert (Hok : Forall (fun r => filled r /\ is_procurador r = false) out).
  { eapply sublist_forall; [apply dedup_sublist|apply filtered_representatives_ok]. }
  unfold filtered_representatives at 1.
  rewrite map_all_id
    by (eapply Forall_impl; [exact Hok|]; intros r [Hf _]; apply fill_fields_id, Hf).
  rewrite filter_all_id
    by (eapply Forall_impl; [exact Hok|]; cbn beta; intros r [_ Hp]; rewrite Hp; reflexivity).
  apply dedup_idempotent.
Qed.

End ExtractorFilter.

Section ValidatorFilter.
Import RepresentativeValidator.

(** A field of the record holds a string that is not blank. *)
Definition present (r : rep) (field : string) : Prop :=
  exists value, r !! field = Some value /\ strip value <> [].

(** What [_fill_empty_fields] establishes. *)
Definition complete (r : rep) : Prop :=
  Forall (present r) required_fields /\ r !! "endereco" = None.

Lemma sentinel_not_blank : strip DATA_NOT_AVAILABLE <> [].
Proof. vm_compute. discriminate. Qed.

Lemma present_insert_sentinel r field other :
  present r other -> present (<[field := DATA_NOT_AVAILABLE]> r) other.
Proof.
  intros (v & Hv & Hs). unfold present. destruct (decide (field = other)) as [->|Hne].
  - exists DATA_NOT_AVAILABLE. rewrite lookup_insert_eq. split; [reflexivity|].
    apply sentinel_not_blank.
  - exists v. rewrite lookup_insert_ne by exact Hne. auto.
Qed.

Lemma validator_fill_keeps r field other :
  present r other -> present (fill_field r field) other.
Proof.
  unfold fill_field. destruct (_ || _); [apply present_insert_sentinel|auto].
Qed.

Lemma validator_fill_self r field : present (fill_field r field) field.
Proof.
  unfold fill_field. destruct (_ || _) eqn:E.
  - exists DATA_NOT_AVAILABLE. rewrite lookup_insert_eq. split; [reflexivity|].
    apply sentinel_not_blank.
  - apply orb_false_iff in E as [E1 E2]. unfold falsy_field in E1.
    unfold get_or_empty in E2. destruct (r !! field) as [v|] eqn:Ev; [|discriminate].
    exists v. split; [exact Ev|]. cbn [default] in E2.
    apply pystr_eqb_neq. exact E2.
Qed.

Lemma validator_fold_fill_keeps fields r other :
  present r other -> present (fold_left fill_field fields r) other.
Proof.
  revert r. induction fields as [|f fields IH]; intros r H; cbn [fold_left]; [exact H|].
  apply IH, validator_fill_keeps, H.
Qed.

Lemma validator_fold_fill fields r :
  Forall (present (fold_left fill_field fields r)) fields.
Proof.
  revert r. induction fields as [|f fields IH]; intros r; cbn [fold_left]; constructor.
  - apply validator_fold_fill_keeps, validator_fill_self.
  - apply IH.
Qed.

Lemma fill_empty_fields_complete r : complete (_fill_empty_fields r).
Proof.
  unfold _fill_empty_fields. split.
  - apply List.Forall_forall. intros field Hin.
    pose proof (validator_fold_fill required_fields r) as H.
    rewrite List.Forall_forall in H. destruct (H field Hin) as (v & Hv & Hs).
    exists v. split; [|exact Hs].
    rewrite lookup_delete_ne; [exact Hv|].
    intros <-. revert Hin. unfold required_fields. cbn [In]. intuition discriminate.
  - apply lookup_delete_eq.
Qed.

Lemma check_pair_complete st pair :
  In pair field_pairs -> complete (fst st) -> complete (fst (check_pair st pair)).
Proof.
  destruct st as [r log], pair as [main_field origin_field]. cbn [fst].
  intros Hin [Hall Hend].
  assert (Hne : origin_field <> "endereco").
  { unfold field_pairs in Hin. cbn [In] in Hin.
    repeat (destruct Hin as [[= <- <-]|Hin]; [discriminate|]). destruct Hin. }
  assert (Hins : complete (<[origin_field := DATA_NOT_AVAILABLE]> r)).
  { split.
    - eapply Forall_impl; [exact Hall|]. intros f. apply present_insert_sentinel.
    - rewrite lookup_insert_ne by exact Hne. exact Hend. }
  unfold check_pair.
  repeat match goal with
         | |- context [if ?b then _ else _] => destruct b
         end; cbn [fst]; first [exact Hins | split; assumption].
Qed.

Lemma fold_check_complete pairs st :
  (forall pair, In pair pairs -> In pair field_pairs) ->
  complete (fst st) -> complete (fst (fold_left check_pair pairs st)).
Proof.
  revert st. induction pairs as [|pair pairs IH]; intros st Hin H; cbn [fold_left];
    [exact H|].
  apply IH; [intros p Hp; apply Hin; right; exact Hp|].
  apply check_pair_complete; [apply Hin; left; reflexivity|exact H].
Qed.

Lemma validate_record_complete r : complete (fst (validate_record r)).
Proof.
  unfold validate_record, _validate_field_consistency.
  apply fold_check_complete; [auto|]. apply fill_empty_fields_complete.
Qed.

Lemma filter_procuradores_spec representatives :
  sublist (fst (_filter_procuradores representatives)) representatives
  /\ Forall (fun r => is_procurador r = false) (fst (_filter_procuradores representatives))
  /\ (length (fst (_filter_procuradores representatives))
      + length (snd (_filter_procuradores representatives))
      = length representatives)%nat.
Proof.
  induction representatives as [|r l (IH1 & IH2 & IH3)]; cbn [_filter_procuradores].
  - repeat split; constructor.
  - destruct (_filter_procuradores l) as [filtered log]. cbn [fst snd] in *.
    destruct (is_procurador r) eqn:E; cbn [fst snd length].
    + split; [constructor; exact IH1|]. split; [exact IH2|lia].
    + split; [constructor; exact IH1|]. split; [constructor; assumption|lia].
Qed.

Lemma remove_duplicates_sublist seen representatives :
  sublist (remove_duplicates_from seen representatives) representatives.
Proof.
  revert seen. induction representatives as [|r l IH]; intros seen;
    cbn [remove_duplicates_from]; [constructor|].
  destruct (_ && _ && _); [constructor; apply IH|].
  destruct (_ || _); constructor; apply IH.
Qed.

(** The records [validate_and_normalize] returns. *)
Definition normalized (representatives : list rep) : list rep :=
  fst (fst (validate_and_normalize representatives)).

(** X12: every record [validate_and_normalize] returns has a string
    that is not blank under each of its ten fields, has no key
    [endereco] and has a post without an attorney term; and the
    records returned and the lines printed for the attorneys dropped
    are together no more than the records given. *)
Theorem X12_normalized_records_are_complete (representatives : list rep) :
  Forall (fun r => complete r /\ is_procurador r = false) (normalized representatives)
  /\ (length (normalized representatives)
      + length (snd (validate_and_normalize representatives))
      <= length representatives)%nat.
Proof.
  unfold normalized, validate_and_normalize.
  destruct representatives as [|r0 l0]; [split; [constructor|reflexivity]|].
  set (validated := map validate_record (r0 :: l0)).
  assert (Hlen : length (map fst validated) = length (r0 :: l0))
    by (unfold validated; rewrite !length_map; reflexivity).
  destruct (filter_procuradores_spec (map fst validated)) as (Hsub & Hnp & Hcount).
  destruct (_filter_procuradores (map fst validated)) as [filtered flog].
  cbn [fst snd] in *. split.
  2: { pose proof (sublist_length _ _ (remove_duplicates_sublist ∅ filtered)) as Hle.
       unfold _remove_duplicates. lia. }
  eapply sublist_forall; [apply remove_duplicates_sublist|].
  apply List.Forall_forall. intros r Hr. split.
  - eapply sublist_forall in Hsub; [rewrite List.Forall_forall in Hsub; apply (Hsub r Hr)|].
    unfold validated. rewrite List.map_map. apply List.Forall_forall. intros x Hx.
    apply List.in_map_iff in Hx as (y & <- & _). apply validate_record_complete.
  - rewrite List.Forall_forall in Hnp. apply Hnp, Hr.
Qed.

(** X13: a record the extractor's filter takes for an attorney is one
    for the validator's filter too; a post that mentions a
    [procuracao] is one for the validator only. *)
Theorem X13_validator_filter_is_stricter (r : rep) :
  (RepresentativeExtractor.is_procurador r = true -> is_procurador r = true)
  /\ (let r' : rep := {[ "cargo" := py "Representante por procuracao" ]} in
      RepresentativeExtractor.is_procurador r' = false /\ is_procurador r' = true).
Proof.
  split; [|vm_compute; split; reflexivity].
  unfold RepresentativeExtractor.is_procurador, is_procurador,
    RepresentativeExtractor.PROCURADOR_KEYWORDS, procurador_terms.
  cbn [existsb]. intros H.
  repeat (apply orb_true_iff in H as [H|H]; [rewrite H, ?orb_true_r; reflexivity|]).
  discriminate H.
Qed.

End ValidatorFilter.

(* ===================================================================== *)
(** ** The final record: all required fields *)
(* ===================================================================== *)

Section Words.

(** A space-free, non-empty run of characters. *)
Definition word (w : pystr) : Prop :=
  w <> [] /\ Forall (fun c => is_space c = false) w.

Lemma rev_nonspace (w : pystr) :
  Forall (fun c => is_space c = false) w -> Forall (fun c => is_space c = false) (rev w).
Proof.
  intros H. apply List.Forall_forall. intros c Hc.
  rewrite List.Forall_forall in H. apply H, in_rev, Hc.
Qed.

Lemma split_ws_aux_words (s cur : pystr) :
  Forall (fun c => is_space c = false) cur -> Forall word (split_ws_aux s cur).
Proof.
  revert cur. induction s as [|c s IH]; intros cur Hcur; cbn [split_ws_aux].
  - destruct cur as [|c0 cur0] eqn:E; [constructor|]. rewrite <- E in *.
    constructor; [|constructor]. split; [|apply rev_nonspace, Hcur].
    subst cur. cbn [rev]. intros H. apply app_eq_nil in H as [_ H]. discriminate.
  - destruct (is_space c) eqn:Ec.
    + destruct cur as [|c0 cur0] eqn:E; [apply IH; constructor|]. rewrite <- E in *.
      constructor; [|apply IH; constructor]. split; [|apply rev_nonspace, Hcur].
      subst cur. cbn [rev]. intros H. apply app_eq_nil in H as [_ H]. discriminate.
    + apply IH. constructor; assumption.
Qed.

Lemma split_ws_words (s : pystr) : Forall word (split_ws s).
Proof. apply split_ws_aux_words. constructor. Qed.

Lemma split_ws_aux_app (w rest cur : pystr) :
  Forall (fun c => is_space c = false) w ->
  split_ws_aux (w ++ rest) cur = split_ws_aux rest (rev w ++ cur).
Proof.
  intros H. revert cur. induction H as [|c w Hc Hw IH]; intros cur; [reflexivity|].
  cbn [app split_ws_aux rev]. rewrite Hc, IH, <- app_assoc. reflexivity.
Qed.

Lemma py_space : py " " = [32].
Proof. reflexivity. Qed.

(** Splitting the words joined by one space gives the words back. *)
Lemma split_ws_join (ws : list pystr) :
  Forall word ws -> split_ws (join (py " ") ws) = ws.
Proof.
  rewrite py_space. unfold split_ws.
  induction 1 as [|w ws [Hne Hw] Hws IH]; [reflexivity|].
  destruct ws as [|w2 ws].
  - cbn [join]. rewrite (split_ws_aux_word w []) by (cbn [rev app]; assumption).
    reflexivity.
  - change (join [32] (w :: w2 :: ws)) with (w ++ 32 :: join [32] (w2 :: ws)).
    rewrite split_ws_aux_app by exact Hw. rewrite app_nil_r.
    cbn [split_ws_aux]. change (is_space 32) with true. cbv iota.
    destruct (rev w) as [|c0 r0] eqn:E.
    + exfalso. apply Hne. rewrite <- (rev_involutive w), E. reflexivity.
    + rewrite <- E, rev_involutive, IH. reflexivity.
Qed.

(** [" ".join(s.split())] *)
Definition tidy (s : pystr) : pystr := join (py " ") (split_ws s).

Lemma tidy_idempotent (s : pystr) : tidy (tidy s) = tidy s.
Proof. unfold tidy. rewrite split_ws_join by apply split_ws_words. reflexivity. Qed.

Lemma lstrip_nonempty (s : pystr) :
  lstrip s <> [] -> Exists (fun c => is_space c = false) s.
Proof.
  induction s as [|c s IH]; cbn [lstrip]; [congruence|].
  destruct (is_space c) eqn:E; [intros H; right; apply IH, H|].
  intros _. left. exact E.
Qed.

Lemma strip_nonempty (s : pystr) :
  strip s <> [] -> Exists (fun c => is_space c = false) s.
Proof.
  intros H. apply lstrip_nonempty. intros E. apply H.
  unfold strip. rewrite E. reflexivity.
Qed.

Lemma split_ws_aux_nonempty (s cur : pystr) :
  cur <> [] \/ Exists (fun c => is_space c = false) s -> split_ws_aux s cur <> [].
Proof.
  revert cur. induction s as [|c s IH]; intros cur H; cbn [split_ws_aux].
  - destruct H as [H|H]; [|inversion H]. destruct cur; [congruence|discriminate].
  - destruct (is_space c) eqn:E.
    + destruct cur; [|discriminate].
      apply IH. right. destruct H as [H|H]; [congruence|].
      inversion H; subst; [congruence|assumption].
    + apply IH. left. discriminate.
Qed.

Lemma join_words_nonempty sep (ws : list pystr) :
  Forall word ws -> ws <> [] -> join sep ws <> [].
Proof.
  intros H Hne. destruct H as [|w ws [Hw _] _]; [congruence|].
  destruct ws; cbn [join]; [exact Hw|].
  intros E. apply app_eq_nil in E as [E _]. exact (Hw E).
Qed.

Lemma tidy_nonempty (s : pystr) : strip s <> [] -> tidy s <> [].
Proof.
  intros H. apply join_words_nonempty; [apply split_ws_words|].
  apply split_ws_aux_nonempty. right. apply strip_nonempty, H.
Qed.

End Words.

Section FinalFields.
Import ResponseBuilder CoreProcessor.

Lemma ok_bind {A B} (a : A) (k : A -> result B) : (x ← Ok a; k x) = k a.
Proof. reflexivity. Qed.

Lemma err_bind {A B} (e : exn) (k : A -> result B) : (x ← Err e; k x) = Err e.
Proof. reflexivity. Qed.

Lemma bind_err {A B} (m : result A) (k : A -> result B) (e : exn) :
  (x ← m; k x) = Err e -> m = Err e \/ exists a, m = Ok a /\ k a = Err e.
Proof.
  destruct m as [a|e']; intros H; [right; exists a; auto|left].
  rewrite err_bind in H. injection H as ->. reflexivity.
Qed.

(** The key holds a string that is not blank. *)
Definition has_text (d : pydict) (field : string) : Prop :=
  exists s, d !! field = Some (VStr s) /\ strip s <> [].

(** The key holds a non-empty string with single spaces between its
    words and none at its ends. *)
Definition has_tidy_text (d : pydict) (field : string) : Prop :=
  exists s, d !! field = Some (VStr s) /\ s <> [] /\ tidy s = s.

Lemma strip_nonempty_truthy (s : pystr) : strip s <> [] -> pystr_eqb s [] = false.
Proof. intros H. destruct s; [exfalso; apply H; reflexivity|reflexivity]. Qed.

Lemma has_text_sentinel (d : pydict) field other :
  has_text d other -> has_text (<[field := VStr DATA_NOT_AVAILABLE]> d) other.
Proof.
  intros (s & Hs & Hn). unfold has_text. destruct (decide (field = other)) as [->|Hne].
  - exists DATA_NOT_AVAILABLE. rewrite lookup_insert_eq. split; [reflexivity|].
    vm_compute. discriminate.
  - exists s. rewrite lookup_insert_ne by exact Hne. auto.
Qed.

Lemma require_field_has_text d field d' :
  require_field d field = Ok d' ->
  has_text d' field /\ (forall other, has_text d other -> has_text d' other).
Proof.
  unfold require_field. intros H.
  assert (Hs : has_text (<[field := VStr DATA_NOT_AVAILABLE]> d) field).
  { exists DATA_NOT_AVAILABLE. rewrite lookup_insert_eq. split; [reflexivity|].
    vm_compute. discriminate. }
  destruct (d !! field) as [v|] eqn:Ev.
  - destruct (truthy v).
    + cbn [negb] in H. destruct v; try discriminate.
      destruct (pystr_eqb (strip s) []) eqn:Es; injection H as <-.
      * split; [exact Hs|]. intros other. apply has_text_sentinel.
      * split; [|auto]. exists s. split; [exact Ev|]. apply pystr_eqb_neq, Es.
    + cbn [negb] in H. injection H as <-.
      split; [exact Hs|]. intros other. apply has_text_sentinel.
  - injection H as <-. split; [exact Hs|]. intros other. apply has_text_sentinel.
Qed.

Lemma fold_require_has_text fields d d' :
  fold_result require_field fields d = Ok d' ->
  Forall (has_text d') fields /\ (forall other, has_text d other -> has_text d' other).
Proof.
  revert d. induction fields as [|f fields IH]; intros d H; cbn [fold_result] in H.
  - injection H as <-. split; [constructor|auto].
  - apply bind_ok in H as (d1 & H1 & H).
    apply require_field_has_text in H1 as [Hf Hk].
    destruct (IH d1 H) as [Hall Hk'].
    split; [constructor; [apply Hk', Hf|exact Hall]|auto].
Qed.

Lemma has_text_insert_other d field k v :
  k <> field -> has_text d field -> has_text (<[k := v]> d) field.
Proof.
  intros Hne (s & Hs & Hn). exists s. rewrite lookup_insert_ne by exact Hne. auto.
Qed.

Lemma required_not_extra field :
  In field required_fields ->
  "representantes_detalhados" <> field /\ "quantidade_representantes" <> field.
Proof.
  unfold required_fields. cbn [In]. intros H.
  repeat (destruct H as [<-|H]; [split; discriminate|]). destruct H.
Qed.

(** What [validate_required_fields] establishes when it returns. *)
Lemma validate_required_fields_post d d' :
  validate_required_fields d = Ok d' ->
  Forall (has_text d') required_fields
  /\ is_Some (d' !! "representantes_detalhados")
  /\ is_Some (d' !! "quantidade_representantes").
Proof.
  unfold validate_required_fields. intros H.
  apply bind_ok in H as (d1 & H1 & H).
  apply fold_require_has_text in H1 as [Hall _].
  set (d2 := match d1 !! "representantes_detalhados" with
             | None => <["representantes_detalhados" := VReps []]> d1
             | Some _ => d1
             end) in *.
  assert (Hall2 : Forall (has_text d2) required_fields).
  { unfold d2. destruct (d1 !! "representantes_detalhados"); [exact Hall|].
    apply List.Forall_forall. intros f Hf. rewrite List.Forall_forall in Hall.
    apply has_text_insert_other; [apply required_not_extra, Hf|apply Hall, Hf]. }
  assert (Hreps : is_Some (d2 !! "representantes_detalhados")).
  { unfold d2. destruct (d1 !! "representantes_detalhados") eqn:E.
    - rewrite E. eexists. reflexivity.
    - rewrite lookup_insert_eq. eexists. reflexivity. }
  destruct (d2 !! "quantidade_representantes") eqn:Eq.
  - injection H as <-. rewrite Eq. repeat split; [exact Hall2|exact Hreps|eexists; reflexivity].
  - apply bind_ok in H as (n & _ & [= <-]). split; [|split].
    + apply List.Forall_forall. intros f Hf. rewrite List.Forall_forall in Hall2.
      apply has_text_insert_other; [apply required_not_extra, Hf|apply Hall2, Hf].
    + rewrite lookup_insert_ne by discriminate. exact Hreps.
    + rewrite lookup_insert_eq. eexists. reflexivity.
Qed.

(** The value [clean_output] leaves under a key of its list. *)
Definition cleaned (v : option pyval) : option pyval :=
  match v with
  | Some (VStr s) => Some (VStr (tidy s))
  | _ => v
  end.

Lemma clean_field_self d field : clean_field d field !! field = cleaned (d !! field).
Proof.
  unfold clean_field, cleaned. destruct (d !! field) as [[| | |s| |]|] eqn:E;
    try (rewrite E; reflexivity).
  rewrite lookup_insert_eq. reflexivity.
Qed.

Lemma fold_clean_other fields d k :
  ~ In k fields -> fold_left clean_field fields d !! k = d !! k.
Proof.
  revert d. induction fields as [|f fields IH]; intros d Hk; cbn [fold_left]; [reflexivity|].
  rewrite IH by (intros H; apply Hk; right; exact H).
  apply clean_field_other. intros ->. apply Hk. left. reflexivity.
Qed.

Lemma fold_clean_lookup fields d k :
  List.NoDup fields -> In k fields ->
  fold_left clean_field fields d !! k = cleaned (d !! k).
Proof.
  intros Hnd. revert d. induction Hnd as [|f fields Hf Hnd IH]; intros d Hk; [destruct Hk|].
  cbn [fold_left]. destruct Hk as [->|Hk].
  - rewrite fold_clean_other by exact Hf. apply clean_field_self.
  - rewrite IH by exact Hk. f_equal. apply clean_field_other.
    intros ->. exact (Hf Hk).
Qed.

Lemma string_fields_nodup : List.NoDup string_fields.
Proof.
  unfold string_fields.
  repeat (constructor; [cbn [In]; intuition discriminate|]). constructor.
Qed.

Lemma clean_output_lookup d k :
  clean_output d !! k = if bool_decide (In k string_fields) then cleaned (d !! k) else d !! k.
Proof.
  unfold clean_output. case_bool_decide as H.
  - apply fold_clean_lookup; [apply string_fields_nodup|exact H].
  - apply fold_clean_other, H.
Qed.

Lemma cleaned_idempotent v : cleaned (cleaned v) = cleaned v.
Proof.
  destruct v as [[| | |s| |]|]; try reflexivity.
  cbn [cleaned]. rewrite tidy_idempotent. reflexivity.
Qed.

(** X14: [clean_output] changes nothing in a record it has cleaned,
    and it leaves every key outside its list of ten, and every value
    that is no string, as it was. *)
Theorem X14_clean_output_idempotent (data_out : pydict) :
  clean_output (clean_output data_out) = clean_output data_out
  /\ (forall key, ~ In key string_fields -> clean_output data_out !! key = data_out !! key)
  /\ (forall key v, data_out !! key = Some v -> (forall s, v <> VStr s) ->
                    clean_output data_out !! key = Some v).
Proof.
  split; [|split].
  - apply map_eq. intros k. rewrite !clean_output_lookup.
    case_bool_decide; [apply cleaned_idempotent|reflexivity].
  - intros k Hk. rewrite clean_output_lookup.
    rewrite bool_decide_eq_false_2 by exact Hk. reflexivity.
  - intros k v Hv Hns. rewrite clean_output_lookup, Hv.
    destruct (bool_decide _); [|reflexivity].
    destruct v; try reflexivity. exfalso. eapply Hns. reflexivity.
Qed.

(** X15: when [build_final_response] gets through its three steps,
    each of the ten required keys of the record holds a non-empty
    string with single spaces between its words and none at its ends,
    and the keys of the detailed representatives and of their number
    are there. *)
Theorem X15_final_record_has_all_fields (data_out d' : pydict) :
  finalize_data data_out = Ok d' ->
  Forall (has_tidy_text d') required_fields
  /\ is_Some (d' !! "representantes_detalhados")
  /\ is_Some (d' !! "quantidade_representantes").
Proof.
  unfold finalize_data. intros H.
  apply bind_ok in H as (d1 & _ & H).
  apply bind_ok in H as (d2 & H2 & [= <-]).
  apply validate_required_fields_post in H2 as (Hall & Hreps & Hn).
  split; [|split].
  - apply List.Forall_forall. intros f Hf. rewrite List.Forall_forall in Hall.
    destruct (Hall f Hf) as (s & Hs & Hne).
    exists (tidy s). rewrite clean_output_lookup.
    rewrite bool_decide_eq_true_2 by exact Hf. rewrite Hs.
    split; [reflexivity|]. split; [apply tidy_nonempty, Hne|apply tidy_idempotent].
  - rewrite clean_output_lookup, bool_decide_eq_false_2; [exact Hreps|].
    unfold string_fields. cbn [In]. intuition discriminate.
  - rewrite clean_output_lookup, bool_decide_eq_false_2; [exact Hn|].
    unfold string_fields. cbn [In]. intuition discriminate.
Qed.

(** A record as the model may return it: a padded company name, a
    date in Brazilian form and nothing else. *)
Definition record_with_padding : pydict :=
  <["razao_social" := VStr (py "  ACME   COMERCIO  LTDA ")]>
    (<["data_assinatura" := VStr (py "05/03/2021")]> ∅).

Lemma finalize_data_total (data_out : pydict) :
  schema_typed data_out -> exists d', finalize_data data_out = Ok d'.
Proof.
  intros Ht. destruct (normalize_output_typed data_out Ht) as (d1 & H1 & Ht1).
  destruct (validate_required_fields_typed d1 Ht1) as (d2 & H2).
  unfold finalize_data. rewrite H1, ok_bind, H2, ok_bind. eexists. reflexivity.
Qed.

Lemma record_with_padding_typed : schema_typed record_with_padding.
Proof.
  split.
  - apply List.Forall_forall. intros g Hg.
    unfold required_fields in Hg. cbn [In] in Hg. unfold field_typed.
    repeat (destruct Hg as [<-|Hg];
            [vm_compute; first [exact I | right; eexists; reflexivity]|]).
    destruct Hg.
  - vm_compute. exact I.
Qed.

Lemma X15_witness :
  exists d', finalize_data record_with_padding = Ok d'
             /\ Forall (has_tidy_text d') required_fields.
Proof.
  destruct (finalize_data_total record_with_padding record_with_padding_typed)
    as [d' Hd'].
  exists d'. split; [exact Hd'|].
  exact (proj1 (X15_final_record_has_all_fields record_with_padding d' Hd')).
Defined.

Lemma require_field_error d field e :
  require_field d field = Err e -> e = AttributeError.
Proof.
  unfold require_field. destruct (d !! field) as [v|]; [|discriminate].
  destruct (negb (truthy v)); [discriminate|].
  destruct v; try (intros [= <-]; reflexivity).
  destruct (pystr_eqb _ _); discriminate.
Qed.

Lemma require_field_rejects d field v :
  d !! field = Some v -> truthy v = true -> (forall s, v <> VStr s) ->
  require_field d field = Err AttributeError.
Proof.
  intros Hv Ht Hns. unfold require_field. rewrite Hv, Ht. cbn [negb].
  destruct v; try reflexivity. exfalso. eapply Hns. reflexivity.
Qed.

Lemma fold_require_rejects fields d field v :
  In field fields ->
  d !! field = Some v -> truthy v = true -> (forall s, v <> VStr s) ->
  fold_result require_field fields d = Err AttributeError.
Proof.
  intros Hin Hv Ht Hns. revert d Hv.
  induction fields as [|f fields IH]; intros d Hv; [destruct Hin|].
  cbn [fold_result]. destruct (require_field d f) as [d1|e] eqn:E.
  - destruct (decide (f = field)) as [->|Hne].
    + rewrite (require_field_rejects d field v Hv Ht Hns) in E. discriminate E.
    + destruct Hin as [Heq|Hin]; [contradiction|].
      cbn. apply IH; [exact Hin|].
      rewrite (require_field_other d f d1 field E Hne). exact Hv.
  - apply require_field_error in E. subst e. reflexivity.
Qed.

Lemma normalize_output_keeps d d1 field v :
  normalize_output d = Ok d1 ->
  In field required_fields ->
  d !! field = Some v -> truthy v = true -> (forall s, v <> VStr s) ->
  d1 !! field = Some v.
Proof.
  intros H Hin Hv Ht Hns. unfold normalize_output in H.
  apply bind_ok in H as (c1 & H1 & H).
  assert (Hc1 : c1 !! field = Some v).
  { destruct (d !! "cnpj") as [vc|] eqn:Ec; [|injection H1 as <-; exact Hv].
    apply bind_ok in H1 as (c & Hc & [= <-]).
    destruct (decide ("cnpj" = field)) as [<-|Hne].
    - exfalso. rewrite Ec in Hv. injection Hv as ->.
      unfold normalize_cnpj_value in Hc. rewrite Ht in Hc. cbn [negb] in Hc.
      destruct v; try discriminate. eapply Hns. reflexivity.
    - rewrite lookup_insert_ne by exact Hne. exact Hv. }
  set (c2 := match c1 !! "data_assinatura" with
             | Some v0 =>
                 match normalize_any_value v0 with
                 | Some normalized =>
                     if truthy_str (Some normalized)
                     then <["data_assinatura" := VStr normalized]> c1
                     else c1
                 | None => c1
                 end
             | None => c1
             end) in *.
  assert (Hc2 : c2 !! field = Some v).
  { unfold c2. destruct (c1 !! "data_assinatura") as [v0|] eqn:Ed; [|exact Hc1].
    destruct (normalize_any_value v0) as [n|] eqn:En; [|exact Hc1].
    destruct (truthy_str (Some n)); [|exact Hc1].
    destruct (decide ("data_assinatura" = field)) as [<-|Hne].
    - exfalso. rewrite Ed in Hc1. injection Hc1 as ->.
      destruct v; try discriminate. eapply Hns. reflexivity.
    - rewrite lookup_insert_ne by exact Hne. exact Hc1. }
  destruct (c2 !! "representantes_detalhados") as [vr|]; [|injection H as <-; exact Hc2].
  apply bind_ok in H as (v' & _ & [= <-]).
  rewrite lookup_insert_ne; [exact Hc2|]. apply required_not_extra, Hin.
Qed.

Lemma normalize_cnpj_value_error v e : normalize_cnpj_value v = Err e -> e = TypeError.
Proof.
  unfold normalize_cnpj_value. destruct (negb (truthy v)); [discriminate|].
  destruct v; first [discriminate | intros [= <-]; reflexivity].
Qed.

Lemma normalize_reps_error v e : normalize_reps v = Err e -> e = TypeError.
Proof.
  destruct v; cbn [normalize_reps]; try discriminate; try (intros [= <-]; reflexivity).
  destruct (existsb _ _); [intros [= <-]; reflexivity|discriminate].
Qed.

Lemma normalize_output_error d e : normalize_output d = Err e -> e = TypeError.
Proof.
  unfold normalize_output. intros H. apply bind_err in H as [H|(c1 & _ & H)].
  - destruct (d !! "cnpj"); [|discriminate].
    apply bind_err in H as [H|(c & _ & H)]; [|discriminate].
    eapply normalize_cnpj_value_error, H.
  - match type of H with
    | match ?x with _ => _ end = _ => destruct x
    end; [|discriminate].
    apply bind_err in H as [H|(c & _ & H)]; [|discriminate].
    eapply normalize_reps_error, H.
Qed.

(** X16: when one of the ten required keys holds a true value that is
    no string (a number, a non-empty list), [build_final_response]
    raises: a [TypeError] from the normalization of the CNPJ or of the
    representatives, or else an [AttributeError] from the call of
    [strip] in [validate_required_fields]. *)
Theorem X16_non_string_field_raises (data_out : pydict) (field : string) (v : pyval) :
  In field required_fields ->
  data_out !! field = Some v -> truthy v = true -> (forall s, v <> VStr s) ->
  (finalize_data data_out = Err TypeError \/ finalize_data data_out = Err AttributeError)
  /\ (field = "cnpj" -> finalize_data data_out = Err TypeError)
  /\ (forall d1, normalize_output data_out = Ok d1 ->
                 finalize_data data_out = Err AttributeError).
Proof.
  intros Hin Hv Ht Hns.
  assert (Hstep : forall d1, normalize_output data_out = Ok d1 ->
                             finalize_data data_out = Err AttributeError).
  { intros d1 H1. unfold finalize_data. rewrite H1, ok_bind.
    unfold validate_required_fields.
    rewrite (fold_require_rejects required_fields d1 field v Hin
               (normalize_output_keeps _ _ _ _ H1 Hin Hv Ht Hns) Ht Hns).
    rewrite !err_bind. reflexivity. }
  assert (Hcnpj : field = "cnpj" -> finalize_data data_out = Err TypeError).
  { intros ->. unfold finalize_data, normalize_output. rewrite Hv.
    unfold normalize_cnpj_value. rewrite Ht. cbn [negb].
    destruct v; try (rewrite !err_bind; reflexivity).
    exfalso. eapply Hns. reflexivity. }
  split; [|split; assumption].
  destruct (normalize_output data_out) as [d1|e] eqn:E1.
  - right. apply (Hstep d1). reflexivity.
  - left. unfold finalize_data. rewrite E1, err_bind.
    apply normalize_output_error in E1. subst e. reflexivity.
Qed.

(** The theorem at a record whose representatives arrive as a list. *)
Definition record_with_list : pydict :=
  <["representantes_legais" := VStrs [py "Ana"; py "Rui"]]> ∅.

Lemma X16_witness : finalize_data record_with_list = Err AttributeError.
Proof.
  destruct (X16_non_string_field_raises record_with_list "representantes_legais"
              (VStrs [py "Ana"; py "Rui"])) as (_ & _ & H).
  - unfold required_fields. cbn [In]. tauto.
  - reflexivity.
  - reflexivity.
  - intros s. discriminate.
  - apply (H record_with_list). unfold normalize_output.
    assert (L : forall key, key <> "representantes_legais" ->
                            record_with_list !! key = None).
    { intros key Hk. unfold record_with_list.
      rewrite lookup_insert_ne by congruence. apply lookup_empty. }
    rewrite (L "cnpj") by discriminate. rewrite ok_bind.
    rewrite (L "data_assinatura") by discriminate.
    rewrite (L "representantes_detalhados") by discriminate. reflexivity.
Defined.

End FinalFields.

(* ===================================================================== *)
(** ** The document cap and the metadata block *)
(* ===================================================================== *)

Section Metadata.
Import ResponseBuilder CoreProcessor.

(** X17: of any list of URIs the first three are processed and
    counted, the flag of the limit is set exactly for more than three
    and the processing type is [LOTE] exactly from two on; and, as the
    ignored documents are cut from the shortened list, the metadata
    block of no batch carries the warning or the ignored names. *)
Theorem X17_plan_of_any_batch (pdf_uris : list pystr)
    (priority_analysis : option pydict) (changes_summary : option pystr)
    (conflicts : option (list pystr)) :
  let plan := plan_documents pdf_uris in
  let md := build_metadata (fst plan) priority_analysis changes_summary conflicts in
  snd plan = firstn 3 pdf_uris
  /\ md_total_documents md = length pdf_uris
  /\ md_processed_documents md = Nat.min 3 (length pdf_uris)
  /\ (md_exceeded_limit md = true <-> (3 < length pdf_uris)%nat)
  /\ (md_processing_type md = py "LOTE" <-> (2 <= length pdf_uris)%nat)
  /\ md_warning md = None
  /\ md_ignored_documents md = None.
Proof.
  cbn zeta.
  pose proof (no_batch_gets_warning pdf_uris priority_analysis changes_summary conflicts)
    as [Hw Hi]. cbn zeta in Hw, Hi.
  split; [|split; [|split; [|split; [|split; [|split; assumption]]]]].
  - unfold plan_documents, MAX_DOCUMENTS. cbn [snd].
    destruct (Nat.ltb_spec 3 (length pdf_uris)); [reflexivity|].
    symmetry. apply firstn_all2. lia.
  - reflexivity.
  - unfold plan_documents, build_metadata, MAX_DOCUMENTS.
    cbn [fst md_processed_documents processed_documents].
    destruct (Nat.ltb_spec 3 (length pdf_uris)); [rewrite length_firstn|]; lia.
  - unfold plan_documents, build_metadata, MAX_DOCUMENTS.
    cbn [fst md_exceeded_limit exceeded_limit]. apply Nat.ltb_lt.
  - unfold plan_documents, build_metadata, MAX_DOCUMENTS.
    cbn [fst md_processing_type is_multiple_documents].
    destruct (Nat.ltb_spec 3 (length pdf_uris)).
    + rewrite length_firstn.
      replace (1 <? Nat.min 3 (length pdf_uris))%nat with true
        by (symmetry; apply Nat.ltb_lt; lia).
      split; [lia|reflexivity].
    + destruct (Nat.ltb_spec 1 (length pdf_uris)).
      * split; [lia|reflexivity].
      * split; [vm_compute; discriminate|lia].
Qed.

(** X18: for a document info over the limit with ignored documents,
    the metadata block has the warning and lists one name for each
    ignored document, none of them with a slash. *)
Theorem X18_ignored_documents_by_base_name (info : document_info)
    (priority_analysis : option pydict) (changes_summary : option pystr)
    (conflicts : option (list pystr)) :
  exceeded_limit info = true -> ignored_documents info <> [] ->
  let md := build_metadata info priority_analysis changes_summary conflicts in
  is_Some (md_warning md)
  /\ exists names,
       md_ignored_documents md = Some names
       /\ length names = length (ignored_documents info)
       /\ Forall (fun name => ~ In 47 name) names.
Proof.
  intros He Hi. cbn zeta. unfold build_metadata.
  cbn [md_warning md_ignored_documents].
  rewrite He, bool_decide_eq_false_2 by exact Hi. cbn [andb negb].
  split; [eexists; reflexivity|].
  eexists. split; [reflexivity|]. split; [apply length_map|].
  apply List.Forall_forall. intros name Hn.
  apply List.in_map_iff in Hn as (uri & <- & _).
  apply file_name_spec.
Qed.

(** The theorem at an info that lists one ignored document. *)
Definition info_with_ignored : document_info :=
  {| total_documents := 4; processed_documents := 3;
     is_multiple_documents := true; exceeded_limit := true;
     ignored_documents := [ py "s3://bucket/in/d.pdf" ] |}.

Lemma X18_witness :
  exists names,
    md_ignored_documents (build_metadata info_with_ignored None None None) = Some names
    /\ length names = 1%nat
    /\ Forall (fun name => ~ In 47 name) names.
Proof.
  apply (X18_ignored_documents_by_base_name info_with_ignored None None None).
  - reflexivity.
  - discriminate.
Defined.

End Metadata.

(* ===================================================================== *)
(** ** Powers of attorney added to the record *)
(* ===================================================================== *)

Lemma join_cons sep (p : pystr) (rest : list pystr) :
  rest <> [] -> join sep (p :: rest) = p ++ sep ++ join sep rest.
Proof. destruct rest; [congruence|reflexivity]. Qed.

(** Every part of a joined string occurs in it. *)
Lemma join_has_part sep (parts : list pystr) (x : pystr) :
  In x parts -> exists pre post, join sep parts = pre ++ x ++ post.
Proof.
  induction parts as [|p parts IH]; [intros []|].
  destruct parts as [|q parts].
  - intros [->|[]]. exists [], []. cbn [join app]. rewrite app_nil_r. reflexivity.
  - intros [->|Hin].
    + exists [], (sep ++ join sep (q :: parts)). reflexivity.
    + destruct (IH Hin) as (pre & post & E).
      exists (p ++ sep ++ pre), post.
      rewrite join_cons by discriminate. rewrite E, <- !app_assoc. reflexivity.
Qed.

Lemma join_nil_sep (parts : list pystr) : join [] parts = concat parts.
Proof.
  induction parts as [|p parts IH]; [reflexivity|].
  destruct parts as [|q parts]; [cbn [join concat]; rewrite app_nil_r; reflexivity|].
  rewrite join_cons by discriminate. cbn [concat app] in *. rewrite IH. reflexivity.
Qed.

Section Procuracao.
Import ProcuracaoProcessor.

(** What is written after an attorney's name. *)
Definition tagged (nome : pystr) : pystr := nome ++ py " (Procurador)".

Lemma add_attorneys_spec d nomes d' :
  nomes <> [] ->
  _add_attorneys_to_representatives d nomes = Some d' ->
  exists old,
    text_of d "representantes_legais" = Some old
    /\ d' = <["representantes_legais" :=
               VStr (old ++ _get_separator_for_representatives old
                         ++ join (_get_separator_for_representatives old)
                              (map tagged nomes))]> d.
Proof.
  intros Hne. unfold _add_attorneys_to_representatives.
  destruct nomes as [|n ns]; [congruence|].
  destruct (text_of d "representantes_legais") as [old|]; [|discriminate].
  cbn [mbind option_bind]. intros H. exists old. split; [reflexivity|].
  destruct old as [|c old]; injection H as <-; reflexivity.
Qed.

Lemma add_validity_spec d validade d' :
  truthy_str validade = true ->
  _add_validity_to_rules d validade = Some d' ->
  exists v pre,
    validade = Some v
    /\ d' = <["poderes_e_representacao" :=
               VStr (pre ++ py "Validade da procuração: " ++ v)]> d.
Proof.
  intros Ht. unfold _add_validity_to_rules. rewrite Ht. cbn [negb].
  destruct validade as [v|]; [|discriminate]. cbn [default].
  destruct (text_of d "poderes_e_representacao") as [rules|]; [|discriminate].
  cbn [mbind option_bind]. exists v.
  destruct (_ && _); injection H as <-.
  - exists (rules ++ py ". "). rewrite <- app_assoc. split; reflexivity.
  - exists []. split; reflexivity.
Qed.

Lemma augment_spec (has_procuracao : bool) (nomes : list pystr)
    (validade : option pystr) (data_out d' : pydict) :
  augment has_procuracao nomes validade data_out = Some d' ->
  (forall key, key <> "representantes_legais" -> key <> "poderes_e_representacao" ->
               d' !! key = data_out !! key)
  /\ (has_procuracao = false -> d' = data_out)
  /\ (has_procuracao = true -> nomes <> [] ->
      exists old text,
        text_of data_out "representantes_legais" = Some old
        /\ d' !! "representantes_legais" = Some (VStr text)
        /\ (exists rest, text = old ++ rest)
        /\ Forall (fun nome => exists pre post, text = pre ++ tagged nome ++ post) nomes
        /\ (old = [] -> text = concat (map tagged nomes)))
  /\ (has_procuracao = true -> truthy_str validade = true ->
      exists v pre,
        validade = Some v
        /\ d' !! "poderes_e_representacao"
           = Some (VStr (pre ++ py "Validade da procuração: " ++ v))).
Proof.
  unfold augment. destruct has_procuracao; cbn [negb].
  2: { intros [= <-]. repeat split; try discriminate; auto. }
  intros H.
  assert (Hd1 : exists d1,
             match nomes with
             | [] => Some data_out
             | _ => _add_attorneys_to_representatives data_out nomes
             end = Some d1
             /\ (if truthy_str validade then _add_validity_to_rules d1 validade
                 else Some d1) = Some d').
  { destruct (match nomes with [] => _ | _ => _ end) as [d1|]; [|discriminate H].
    exists d1. split; [reflexivity|exact H]. }
  clear H. destruct Hd1 as (d1 & H1 & H2).
  assert (Hleg : d' !! "representantes_legais" = d1 !! "representantes_legais").
  { destruct (truthy_str validade) eqn:Ht; [|injection H2 as <-; reflexivity].
    apply add_validity_spec in H2 as (v & pre & _ & ->); [|exact Ht].
    apply lookup_insert_ne. discriminate. }
  split; [|split; [discriminate|split]].
  - intros key Hk1 Hk2.
    assert (E1 : d1 !! key = data_out !! key).
    { destruct nomes as [|n ns]; [injection H1 as <-; reflexivity|].
      apply add_attorneys_spec in H1 as (old & _ & ->); [|discriminate].
      apply lookup_insert_ne. congruence. }
    rewrite <- E1.
    destruct (truthy_str validade) eqn:Ht; [|injection H2 as <-; reflexivity].
    apply add_validity_spec in H2 as (v & pre & _ & ->); [|exact Ht].
    apply lookup_insert_ne. congruence.
  - intros _ Hne.
    destruct nomes as [|n ns] eqn:En; [congruence|]. rewrite <- En in *.
    apply add_attorneys_spec in H1 as (old & Hold & ->); [|exact Hne].
    exists old. eexists. split; [exact Hold|].
    split; [rewrite Hleg; apply lookup_insert_eq|].
    split; [eexists; reflexivity|]. split.
    + apply List.Forall_forall. intros nome Hin.
      destruct (join_has_part (_get_separator_for_representatives old)
                  (map tagged nomes) (tagged nome)) as (pre & post & E).
      { apply List.in_map. exact Hin. }
      exists (old ++ _get_separator_for_representatives old ++ pre), post.
      rewrite E, <- !app_assoc. reflexivity.
    + intros ->. cbn [_get_separator_for_representatives app]. apply join_nil_sep.
  - intros _ Ht. rewrite Ht in H2.
    apply add_validity_spec in H2 as (v & pre & Hv & ->); [|exact Ht].
    exists v, pre. split; [exact Hv|]. apply lookup_insert_eq.
Qed.

(** X19: the augmenter leaves every key but [representantes_legais]
    and [poderes_e_representacao] as it was, and the whole record when
    the text mentions no power of attorney.  With attorneys found,
    the representatives' text begins with the earlier text and has
    every attorney's name followed by [(Procurador)]; when there was
    no earlier text the tagged names are written one after the other
    with nothing between them.  With a validity date found, the
    powers' text ends with the note of the validity. *)
Theorem X19_augmenter_touches_two_keys (has_procuracao : bool) (nomes : list pystr)
    (validade : option pystr) (data_out d' : pydict) :
  augment has_procuracao nomes validade data_out = Some d' ->
  (forall key, key <> "representantes_legais" -> key <> "poderes_e_representacao" ->
               d' !! key = data_out !! key)
  /\ (has_procuracao = false -> d' = data_out)
  /\ (has_procuracao = true -> nomes <> [] ->
      exists old text,
        text_of data_out "representantes_legais" = Some old
        /\ d' !! "representantes_legais" = Some (VStr text)
        /\ (exists rest, text = old ++ rest)
        /\ Forall (fun nome => exists pre post, text = pre ++ tagged nome ++ post) nomes
        /\ (old = [] -> text = concat (map tagged nomes)))
  /\ (has_procuracao = true -> truthy_str validade = true ->
      exists v pre,
        validade = Some v
        /\ d' !! "poderes_e_representacao"
           = Some (VStr (pre ++ py "Validade da procuração: " ++ v))).
Proof. apply augment_spec. Qed.

(** A record with one representative and no powers yet. *)
Definition record_before_augment : pydict :=
  <["representantes_legais" := VStr (py "Ana Souza")]>
    (<["cnpj" := VStr (py "12.345.678/0001-99")]> ∅).

Lemma text_of_insert_ne (d : pydict) key other v :
  other <> key -> text_of (<[other := v]> d) key = text_of d key.
Proof. intros H. unfold text_of. rewrite lookup_insert_ne by exact H. reflexivity. Qed.

(** The augmenter is defined on a record with texts under its two
    keys. *)
Lemma augment_defined has_procuracao nomes validade (d : pydict) :
  is_Some (text_of d "representantes_legais") ->
  is_Some (text_of d "poderes_e_representacao") ->
  is_Some (augment has_procuracao nomes validade d).
Proof.
  intros [old Hold] [rules Hrules]. unfold augment.
  destruct has_procuracao; cbn [negb]; [|eexists; reflexivity].
  assert (H1 : exists d1,
             match nomes with
             | [] => Some d
             | _ => _add_attorneys_to_representatives d nomes
             end = Some d1
             /\ text_of d1 "poderes_e_representacao" = Some rules).
  { destruct nomes as [|n ns]; [exists d; auto|].
    unfold _add_attorneys_to_representatives. rewrite Hold. cbn [mbind option_bind].
    destruct old; eexists; (split; [reflexivity|]);
      rewrite text_of_insert_ne by discriminate; exact Hrules. }
  destruct H1 as (d1 & -> & Hr1). cbn [mbind option_bind].
  destruct (truthy_str validade) eqn:Ht; [|eexists; reflexivity].
  unfold _add_validity_to_rules. rewrite Ht, Hr1. cbn [negb mbind option_bind].
  destruct (_ && _); eexists; reflexivity.
Qed.

Lemma X19_witness :
  exists d',
    augment true [ py "Rui Lima" ] (Some (py "2030-01-31")) record_before_augment = Some d'
    /\ d' !! "cnpj" = Some (VStr (py "12.345.678/0001-99")).
Proof.
  destruct (augment_defined true [ py "Rui Lima" ] (Some (py "2030-01-31"))
              record_before_augment) as [d' E].
  - eexists. unfold text_of, record_before_augment. rewrite lookup_insert_eq. reflexivity.
  - eexists. unfold text_of, record_before_augment.
    rewrite !lookup_insert_ne by discriminate. rewrite lookup_empty. reflexivity.
  - exists d'. split; [exact E|].
    rewrite (proj1 (X19_augmenter_touches_two_keys _ _ _ _ _ E) "cnpj")
      by discriminate.
    unfold record_before_augment.
    rewrite lookup_insert_ne by discriminate. apply lookup_insert_eq.
Defined.

End Procuracao.

(* ===================================================================== *)
(** ** Consolidated powers *)
(* ===================================================================== *)

Section Consolidation.
Import GeminiResponseProcessor.

(** The record has rules of representation. *)
Definition has_rules (r : rep) : bool :=
  negb (pystr_eqb (get_or_empty r "regras_representacao") [])
  && negb (pystr_eqb (get_or_empty r "regras_representacao") DATA_NOT_AVAILABLE).

(** The entry of a record in the consolidated text. *)
Definition entry (r : rep) : pystr :=
  default (py "Representante") (r !! "nome") ++ py ": "
  ++ get_or_empty r "regras_representacao".

Lemma poderes_list_entries reps :
  poderes_list reps = map entry (List.filter has_rules reps).
Proof.
  induction reps as [|r reps IH]; [reflexivity|].
  cbn [poderes_list List.filter]. fold (has_rules r).
  destruct (has_rules r); cbn [map]; rewrite IH; reflexivity.
Qed.

Lemma entry_has_colon r : In 58 (entry r).
Proof.
  unfold entry. apply in_or_app. right. apply in_or_app. left.
  vm_compute. left. reflexivity.
Qed.

Lemma join_first_char sep (p : pystr) (parts : list pystr) c :
  In c p -> In c (join sep (p :: parts)).
Proof.
  intros H. destruct parts; [exact H|].
  rewrite join_cons by discriminate. apply in_or_app. left. exact H.
Qed.

(** X20: the consolidated text is never empty; it is the sentinel
    exactly when no record has rules, and otherwise it holds the entry
    [name: rules] of every record that has rules. *)
Theorem X20_consolidated_powers (representantes_detalhados : list rep) :
  consolidate_poderes_representacao representantes_detalhados <> []
  /\ (consolidate_poderes_representacao representantes_detalhados = DATA_NOT_AVAILABLE
      <-> Forall (fun r => has_rules r = false) representantes_detalhados)
  /\ Forall (fun r => has_rules r = true ->
                      exists pre post,
                        consolidate_poderes_representacao representantes_detalhados
                        = pre ++ entry r ++ post)
       representantes_detalhados.
Proof.
  assert (Hc : consolidate_poderes_representacao representantes_detalhados
               = match List.filter has_rules representantes_detalhados with
                 | [] => DATA_NOT_AVAILABLE
                 | l => join (py "; ") (map entry l)
                 end).
  { unfold consolidate_poderes_representacao.
    destruct representantes_detalhados as [|r0 l0]; [cbn [List.filter]; reflexivity|].
    rewrite poderes_list_entries.
    destruct (List.filter has_rules (r0 :: l0)); cbn [map]; reflexivity. }
  rewrite Hc. clear Hc.
  destruct (List.filter has_rules representantes_detalhados) as [|r l] eqn:E.
  - split; [vm_compute; discriminate|]. split.
    + split; [intros _|reflexivity].
      apply List.Forall_forall. intros x Hx.
      destruct (has_rules x) eqn:Ex; [|reflexivity].
      assert (Hin : In x (List.filter has_rules representantes_detalhados))
        by (apply List.filter_In; auto).
      rewrite E in Hin. destruct Hin.
    + apply List.Forall_forall. intros x Hx Ex.
      assert (Hin : In x (List.filter has_rules representantes_detalhados))
        by (apply List.filter_In; auto).
      rewrite E in Hin. destruct Hin.
  - assert (Hcolon : In 58 (join (py "; ") (map entry (r :: l))))
      by (apply join_first_char, entry_has_colon).
    split; [intros H; rewrite H in Hcolon; destruct Hcolon|]. split.
    + split.
      * intros H. exfalso. rewrite H in Hcolon. revert Hcolon. vm_compute.
        intuition discriminate.
      * intros H. exfalso.
        assert (Hin : In r (List.filter has_rules representantes_detalhados))
          by (rewrite E; left; reflexivity).
        apply List.filter_In in Hin as [Hin Hr].
        rewrite List.Forall_forall in H. rewrite (H r Hin) in Hr. discriminate.
    + apply List.Forall_forall. intros x Hx Ex.
      apply join_has_part. apply List.in_map. rewrite <- E.
      apply List.filter_In. auto.
Qed.

End Consolidation.

(* ===================================================================== *)
(** ** Documents by priority *)
(* ===================================================================== *)

Section Priority.
Import MultiDocumentProcessor.

(** [a] comes before [b] in an order of decreasing score. *)
Definition not_below (a b : doc_meta) : Prop :=
  (dm_priority_score b <= dm_priority_score a)%Z.

Lemma insert_by_priority_perm doc sorted :
  Permutation (insert_by_priority doc sorted) (doc :: sorted).
Proof.
  induction sorted as [|other rest IH]; cbn [insert_by_priority]; [reflexivity|].
  destruct (_ <=? _)%Z; [reflexivity|].
  rewrite IH. apply perm_swap.
Qed.

Lemma sorted_by_priority_perm files : Permutation (sorted_by_priority files) files.
Proof.
  induction files as [|doc rest IH]; cbn [sorted_by_priority]; [reflexivity|].
  rewrite insert_by_priority_perm, IH. reflexivity.
Qed.

Lemma insert_by_priority_sorted doc sorted :
  StronglySorted not_below sorted -> StronglySorted not_below (insert_by_priority doc sorted).
Proof.
  induction 1 as [|other rest Hs IH Hall]; cbn [insert_by_priority].
  - constructor; constructor.
  - destruct (Z.leb_spec (dm_priority_score other) (dm_priority_score doc)) as [Hle|Hlt].
    + constructor; [constructor; assumption|].
      constructor; [exact Hle|].
      eapply Forall_impl; [exact Hall|]. unfold not_below. cbn beta. intros; lia.
    + constructor; [exact IH|].
      apply List.Forall_forall. intros x Hx.
      apply (Permutation_in _ (insert_by_priority_perm doc rest)) in Hx as [<-|Hx].
      * unfold not_below. lia.
      * rewrite List.Forall_forall in Hall. apply Hall, Hx.
Qed.

Lemma sorted_by_priority_sorted files : StronglySorted not_below (sorted_by_priority files).
Proof.
  induction files as [|doc rest IH]; cbn [sorted_by_priority]; [constructor|].
  apply insert_by_priority_sorted, IH.
Qed.

(** The head of the sorted list is the first document, in the order
    received, among those of the highest score. *)
Lemma sorted_by_priority_head files :
  files <> [] ->
  exists best others before after,
    sorted_by_priority files = best :: others
    /\ files = before ++ best :: after
    /\ Forall (fun doc => (dm_priority_score doc < dm_priority_score best)%Z) before
    /\ Forall (fun doc => (dm_priority_score doc <= dm_priority_score best)%Z) after.
Proof.
  induction files as [|doc rest IH]; [congruence|]. intros _.
  cbn [sorted_by_priority].
  destruct rest as [|doc2 rest2] eqn:Er.
  - exists doc, [], [], []. repeat split; constructor.
  - rewrite <- Er in *.
    destruct IH as (best & others & before & after & Hs & Hf & Hb & Ha);
      [subst rest; discriminate|].
    rewrite Hs. cbn [insert_by_priority].
    destruct (Z.leb_spec (dm_priority_score best) (dm_priority_score doc)) as [Hle|Hlt].
    + exists doc, (best :: others), [], rest.
      split; [reflexivity|]. split; [reflexivity|]. split; [constructor|].
      rewrite Hf. apply Forall_app. split; [|constructor].
      * eapply Forall_impl; [exact Hb|]. cbn beta. intros; lia.
      * exact Hle.
      * eapply Forall_impl; [exact Ha|]. cbn beta. intros; lia.
    + exists best, (insert_by_priority doc others), (doc :: before), after.
      split; [reflexivity|]. split; [rewrite Hf; reflexivity|].
      split; [constructor; assumption|exact Ha].
Qed.

(** X21: [analyze_document_priority] reports nothing exactly for no
    file.  Otherwise the documents by priority are the files
    received, in an order of decreasing score, and the most recent
    document is the first file, in the order received, among those of
    the highest score; the complementation is needed exactly when its
    type is an accessory one. *)
Theorem X21_priority_analysis (processed_files : list doc_meta) :
  match analyze_document_priority processed_files with
  | None => processed_files = []
  | Some pa =>
      Permutation (pa_documents_by_priority pa) processed_files
      /\ StronglySorted not_below (pa_documents_by_priority pa)
      /\ (exists before after,
             processed_files = before ++ pa_most_recent_document pa :: after
             /\ Forall (fun doc => (dm_priority_score doc
                                    < dm_priority_score (pa_most_recent_document pa))%Z)
                  before
             /\ Forall (fun doc => (dm_priority_score doc
                                    <= dm_priority_score (pa_most_recent_document pa))%Z)
                  after)
      /\ pa_complementation_needed pa
         = _is_accessory_document (dm_document_type (pa_most_recent_document pa))
  end.
Proof.
  unfold analyze_document_priority.
  destruct processed_files as [|doc rest] eqn:E; [reflexivity|]. rewrite <- E.
  destruct (sorted_by_priority_head processed_files)
    as (best & others & before & after & Hs & Hf & Hb & Ha); [subst; discriminate|].
  rewrite Hs.
  cbn [pa_documents_by_priority pa_most_recent_document pa_complementation_needed].
  split; [rewrite <- Hs; apply sorted_by_priority_perm|].
  split; [rewrite <- Hs; apply sorted_by_priority_sorted|].
  split; [|reflexivity].
  exists before, after. auto.
Qed.

End Priority.

(* ===================================================================== *)
(** ** What a match of the matcher is *)
(* ===================================================================== *)

Section MatcherSoundness.
Variable ic : bool.

Definition advance (st : mstate) (c : N) (rest : pystr) : mstate :=
  MState (S (st_pos st)) (Some c) rest (st_caps st).

(** One character that [ok] accepts is read. *)
Definition reads (ok : N -> bool) (st st' : mstate) : Prop :=
  exists c rest, st_rest st = c :: rest /\ ok c = true /\ st' = advance st c rest.

Fixpoint iterated (R : mstate -> mstate -> Prop) (n : nat) (st st' : mstate) : Prop :=
  match n with
  | O => st' = st
  | S n' => exists st1, R st st1 /\ iterated R n' st1 st'
  end.

Definition within (n : nat) (hi : option nat) : Prop :=
  match hi with
  | Some h => (n <= h)%nat
  | None => True
  end.

Definition close_group (g : nat) (st st1 : mstate) : mstate :=
  MState (st_pos st1) (st_prev st1) (st_rest st1)
    ((g, (st_pos st, st_pos st1)) :: st_caps st1).

(** The pattern takes the matcher from one state to another. *)
Fixpoint matches (r : regex) (st st' : mstate) {struct r} : Prop :=
  match r with
  | REps => st' = st
  | RChr c => reads (item_matches ic (CLit c)) st st'
  | RSet neg items => reads (set_matches ic neg items) st st'
  | RDot => reads (fun c => negb (c =? 10)) st st'
  | RCat r1 r2 => exists st1, matches r1 st st1 /\ matches r2 st1 st'
  | RAlt r1 r2 => matches r1 st st' \/ matches r2 st st'
  | RRep lo hi r1 =>
      exists n, (lo <= n)%nat /\ within n hi /\ iterated (matches r1) n st st'
  | RGroup g r1 => exists st1, matches r1 st st1 /\ st' = close_group g st st1
  | RBoundary => at_boundary st = true /\ st' = st
  | RBol => st_pos st = 0%nat /\ st' = st
  | REol => eol_ok (st_rest st) = true /\ st' = st
  end.

Lemma step_char_sound st ok k m :
  step_char st ok k = Some m -> exists st', reads ok st st' /\ k st' = Some m.
Proof.
  unfold step_char. destruct (st_rest st) as [|c rest] eqn:E; [discriminate|].
  destruct (ok c) eqn:Ec; [|discriminate]. intros H.
  exists (advance st c rest). split; [|exact H]. exists c, rest. auto.
Qed.

Lemma rep_loop_sound body (R : mstate -> mstate -> Prop) lo hi k :
  (forall st k m, body st k = Some m -> exists st', R st st' /\ k st' = Some m) ->
  forall fuel n st m,
    rep_loop body lo hi k fuel n st = Some m ->
    exists j st',
      iterated R j st st' /\ (lo <= n + j)%nat
      /\ (j = 0%nat \/ within (n + j) hi) /\ k st' = Some m.
Proof.
  intros Hb.
  assert (Hstop : forall n st m,
             (if (lo <=? n)%nat then k st else None) = Some m ->
             exists j st',
               iterated R j st st' /\ (lo <= n + j)%nat
               /\ (j = 0%nat \/ within (n + j) hi) /\ k st' = Some m).
  { intros n st m H. destruct (Nat.leb_spec lo n); [|discriminate].
    exists 0%nat, st. split; [reflexivity|]. split; [lia|]. auto. }
  induction fuel as [|fuel IH]; intros n st m H; cbn [rep_loop] in H.
  - apply Hstop, H.
  - destruct (below n hi) eqn:Eb; [|apply Hstop, H].
    match type of H with
    | match ?x with _ => _ end = _ => destruct x as [m0|] eqn:E
    end; [|apply Hstop, H].
    injection H as ->. apply Hb in E as (st1 & HR & Hk).
    destruct (st_pos st1 =? st_pos st)%nat; [discriminate|].
    apply IH in Hk as (j & st' & Hit & Hlo & Hhi & Hk).
    exists (S j), st'. split; [exists st1; auto|]. split; [lia|].
    split; [|exact Hk]. right.
    destruct Hhi as [->|Hhi].
    + unfold below in Eb. unfold within. destruct hi as [h|]; [|exact I].
      apply Nat.ltb_lt in Eb. lia.
    + replace (n + S j)%nat with (S n + j)%nat by lia. exact Hhi.
Qed.

(** Whatever the matcher returns comes from a match of the pattern
    followed by the continuation. *)
Lemma run_sound r :
  forall st k m,
    run ic r st k = Some m -> exists st', matches r st st' /\ k st' = Some m.
Proof.
  induction r as [|c|neg items| |r1 IH1 r2 IH2|r1 IH1 r2 IH2|lo hi r1 IH1|g r1 IH1| | |];
    intros st k m H; try rewrite run_eol in H; cbn [run matches] in *.
  - exists st. auto.
  - apply step_char_sound, H.
  - apply step_char_sound, H.
  - apply step_char_sound, H.
  - apply IH1 in H as (st1 & H1 & H). apply IH2 in H as (st2 & H2 & H).
    exists st2. split; [exists st1; auto|exact H].
  - destruct (run ic r1 st k) as [m0|] eqn:E.
    + injection H as ->. apply IH1 in E as (st' & H1 & Hk).
      exists st'. auto.
    + apply IH2 in H as (st' & H2 & Hk). exists st'. auto.
  - apply (rep_loop_sound (run ic r1) (matches r1)) in H; [|exact IH1].
    destruct H as (j & st' & Hit & Hlo & Hhi & Hk).
    exists st'. split; [|exact Hk]. exists j. split; [lia|]. split; [|exact Hit].
    destruct Hhi as [->|Hhi]; [|exact Hhi].
    unfold within. destruct hi; [lia|exact I].
  - apply IH1 in H as (st1 & H1 & H). exists (close_group g st st1).
    split; [exists st1; auto|exact H].
  - destruct (at_boundary st) eqn:E; [|discriminate]. exists st. auto.
  - destruct (Nat.eqb_spec (st_pos st) 0); [|discriminate]. exists st. auto.
  - destruct (eol_ok (st_rest st)) eqn:E; [|discriminate]. exists st. auto.
Qed.

(** The words of a pattern, whatever stands around them. *)
Fixpoint lang (r : regex) (w : pystr) {struct r} : Prop :=
  match r with
  | REps => w = []
  | RChr c => exists x, w = [x] /\ item_matches ic (CLit c) x = true
  | RSet neg items => exists x, w = [x] /\ set_matches ic neg items x = true
  | RDot => exists x, w = [x] /\ negb (x =? 10) = true
  | RCat r1 r2 => exists w1 w2, w = w1 ++ w2 /\ lang r1 w1 /\ lang r2 w2
  | RAlt r1 r2 => lang r1 w \/ lang r2 w
  | RRep lo hi r1 =>
      exists ws, w = concat ws /\ Forall (lang r1) ws
                 /\ (lo <= length ws)%nat /\ within (length ws) hi
  | RGroup _ r1 => lang r1 w
  | RBoundary => w = []
  | RBol => w = []
  | REol => w = []
  end.

(** The bodies of the groups numbered [g]. *)
Fixpoint group_bodies (r : regex) (g : nat) : list regex :=
  match r with
  | RCat r1 r2 => group_bodies r1 g ++ group_bodies r2 g
  | RAlt r1 r2 => group_bodies r1 g ++ group_bodies r2 g
  | RRep _ _ r1 => group_bodies r1 g
  | RGroup g' r1 => (if (g' =? g)%nat then [r1] else []) ++ group_bodies r1 g
  | _ => []
  end.

(** A recorded span lies in the word [w] read from position [p] on and
    holds a word of a body of its group. *)
Definition span_ok (bodies : nat -> list regex) (p : nat) (w : pystr)
    (cap : nat * (nat * nat)) : Prop :=
  let '(g, (s, e)) := cap in
  (p <= s)%nat /\ (s <= e)%nat /\ (e <= p + length w)%nat
  /\ exists body, In body (bodies g) /\ lang body (slice w (s - p) (e - p)).

Lemma slice_app_l (w1 w2 : pystr) s e :
  (e <= length w1)%nat -> slice (w1 ++ w2) s e = slice w1 s e.
Proof.
  intros H. unfold slice. rewrite skipn_app, firstn_app, length_skipn.
  replace (e - s - (length w1 - s))%nat with 0%nat by lia.
  cbn [firstn]. apply app_nil_r.
Qed.

Lemma slice_app_r (w1 w2 : pystr) s e :
  (length w1 <= s)%nat ->
  slice (w1 ++ w2) s e = slice w2 (s - length w1) (e - length w1).
Proof.
  intros H. unfold slice. rewrite skipn_app, skipn_all2 by exact H.
  cbn [app]. f_equal. lia.
Qed.

Lemma slice_all (w : pystr) : slice w 0 (length w) = w.
Proof. unfold slice. rewrite Nat.sub_0_r. cbn [skipn]. apply firstn_all. Qed.

Lemma span_ok_bodies (b1 b2 : nat -> list regex) p w cap :
  (forall g body, In body (b1 g) -> In body (b2 g)) ->
  span_ok b1 p w cap -> span_ok b2 p w cap.
Proof.
  destruct cap as [g [s e]]. intros Hb (H1 & H2 & H3 & body & Hin & Hl).
  repeat split; try assumption. exists body. auto.
Qed.

Lemma span_ok_left bodies p w1 w2 cap :
  span_ok bodies p w1 cap -> span_ok bodies p (w1 ++ w2) cap.
Proof.
  destruct cap as [g [s e]]. intros (H1 & H2 & H3 & body & Hin & Hl).
  split; [exact H1|]. split; [exact H2|]. split; [rewrite length_app; lia|].
  exists body. split; [exact Hin|]. rewrite slice_app_l by lia. exact Hl.
Qed.

Lemma span_ok_right bodies p w1 w2 cap :
  span_ok bodies (p + length w1) w2 cap -> span_ok bodies p (w1 ++ w2) cap.
Proof.
  destruct cap as [g [s e]]. intros (H1 & H2 & H3 & body & Hin & Hl).
  split; [lia|]. split; [exact H2|]. split; [rewrite length_app; lia|].
  exists body. split; [exact Hin|]. rewrite slice_app_r by lia.
  replace (s - p - length w1)%nat with (s - (p + length w1))%nat by lia.
  replace (e - p - length w1)%nat with (e - (p + length w1))%nat by lia.
  exact Hl.
Qed.

(** What a step of the matcher does to the state. *)
Definition step_ok (bodies : nat -> list regex) (st st' : mstate) (w : pystr) : Prop :=
  st_rest st = w ++ st_rest st'
  /\ st_pos st' = (st_pos st + length w)%nat
  /\ exists new,
       st_caps st' = new ++ st_caps st
       /\ Forall (span_ok bodies (st_pos st) w) new.

Lemma step_ok_refl bodies st : step_ok bodies st st [].
Proof.
  split; [reflexivity|]. split; [cbn [length]; lia|].
  exists []. split; [reflexivity|constructor].
Qed.

Lemma step_ok_trans b1 b2 b st st1 st2 w1 w2 :
  (forall g body, In body (b1 g) -> In body (b g)) ->
  (forall g body, In body (b2 g) -> In body (b g)) ->
  step_ok b1 st st1 w1 -> step_ok b2 st1 st2 w2 -> step_ok b st st2 (w1 ++ w2).
Proof.
  intros Hb1 Hb2 (Hr1 & Hp1 & new1 & Hc1 & Hs1) (Hr2 & Hp2 & new2 & Hc2 & Hs2).
  split; [rewrite Hr1, Hr2, app_assoc; reflexivity|].
  split; [rewrite Hp2, Hp1, length_app; lia|].
  exists (new2 ++ new1). split; [rewrite Hc2, Hc1, app_assoc; reflexivity|].
  apply Forall_app. split.
  - eapply Forall_impl; [exact Hs2|]. intros cap Hcap.
    apply span_ok_right. rewrite <- Hp1.
    eapply span_ok_bodies; [apply Hb2|exact Hcap].
  - eapply Forall_impl; [exact Hs1|]. intros cap Hcap.
    apply span_ok_left. eapply span_ok_bodies; [apply Hb1|exact Hcap].
Qed.

Lemma reads_spec bodies ok st st' :
  reads ok st st' -> exists x, ok x = true /\ step_ok bodies st st' [x].
Proof.
  intros (c & rest & Hr & Hok & ->). exists c. split; [exact Hok|].
  split; [exact Hr|]. split; [cbn; lia|].
  exists []. split; [reflexivity|constructor].
Qed.

Lemma iterated_spec (r1 : regex) :
  (forall st st', matches r1 st st' ->
                  exists w, lang r1 w /\ step_ok (group_bodies r1) st st' w) ->
  forall n st st',
    iterated (matches r1) n st st' ->
    exists ws, length ws = n /\ Forall (lang r1) ws
               /\ step_ok (group_bodies r1) st st' (concat ws).
Proof.
  intros IH. induction n as [|n IHn]; intros st st' H; cbn [iterated] in H.
  - subst st'. exists []. split; [reflexivity|]. split; [constructor|].
    apply step_ok_refl.
  - destruct H as (st1 & H1 & H). apply IH in H1 as (w & Hw & Hs).
    apply IHn in H as (ws & Hlen & Hall & Hss).
    exists (w :: ws). split; [cbn [length]; lia|]. split; [constructor; assumption|].
    cbn [concat]. eapply step_ok_trans; [| |exact Hs|exact Hss]; auto.
Qed.

(** A match reads a word of the pattern, and the spans it records
    hold words of the groups' bodies. *)
Lemma matches_spec r :
  forall st st',
    matches r st st' -> exists w, lang r w /\ step_ok (group_bodies r) st st' w.
Proof.
  induction r as [|c|neg items| |r1 IH1 r2 IH2|r1 IH1 r2 IH2|lo hi r1 IH1|g r1 IH1| | |];
    intros st st' H; cbn [matches lang] in *.
  - subst st'. exists []. split; [reflexivity|apply step_ok_refl].
  - apply (reads_spec (group_bodies (RChr c))) in H as (x & Hx & Hs).
    exists [x]. split; [exists x; auto|exact Hs].
  - apply (reads_spec (group_bodies (RSet neg items))) in H as (x & Hx & Hs).
    exists [x]. split; [exists x; auto|exact Hs].
  - apply (reads_spec (group_bodies RDot)) in H as (x & Hx & Hs).
    exists [x]. split; [exists x; auto|exact Hs].
  - destruct H as (st1 & H1 & H2).
    apply IH1 in H1 as (w1 & Hw1 & Hs1). apply IH2 in H2 as (w2 & Hw2 & Hs2).
    exists (w1 ++ w2). split; [exists w1, w2; auto|].
    eapply step_ok_trans; [| |exact Hs1|exact Hs2];
      intros g body Hin; cbn [group_bodies]; apply in_or_app; auto.
  - destruct H as [H|H].
    + apply IH1 in H as (w & Hw & Hs). exists w. split; [left; exact Hw|].
      destruct Hs as (Hr & Hp & new & Hc & Hsp).
      split; [exact Hr|]. split; [exact Hp|]. exists new. split; [exact Hc|].
      eapply Forall_impl; [exact Hsp|]. intros cap. apply span_ok_bodies.
      intros g body Hin. cbn [group_bodies]. apply in_or_app. auto.
    + apply IH2 in H as (w & Hw & Hs). exists w. split; [right; exact Hw|].
      destruct Hs as (Hr & Hp & new & Hc & Hsp).
      split; [exact Hr|]. split; [exact Hp|]. exists new. split; [exact Hc|].
      eapply Forall_impl; [exact Hsp|]. intros cap. apply span_ok_bodies.
      intros g body Hin. cbn [group_bodies]. apply in_or_app. auto.
  - destruct H as (n & Hlo & Hhi & Hit).
    apply (iterated_spec r1 IH1) in Hit as (ws & Hlen & Hall & Hs).
    exists (concat ws). split; [|exact Hs].
    exists ws. rewrite Hlen. auto.
  - destruct H as (st1 & H1 & ->).
    apply IH1 in H1 as (w & Hw & Hr & Hp & new & Hc & Hsp).
    exists w. split; [exact Hw|].
    split; [exact Hr|]. split; [exact Hp|].
    exists ((g, (st_pos st, st_pos st1)) :: new).
    split; [cbn [close_group st_caps app]; rewrite Hc; reflexivity|].
    constructor.
    + split; [lia|]. split; [lia|]. split; [lia|].
      exists r1. split; [cbn [group_bodies]; rewrite Nat.eqb_refl; left; reflexivity|].
      rewrite Hp, Nat.sub_diag.
      replace (st_pos st + length w - st_pos st)%nat with (length w) by lia.
      rewrite slice_all. exact Hw.
    + eapply Forall_impl; [exact Hsp|]. intros cap. apply span_ok_bodies.
      intros g' body Hin. cbn [group_bodies]. apply in_or_app. auto.
  - destruct H as [_ ->]. exists []. split; [reflexivity|apply step_ok_refl].
  - destruct H as [_ ->]. exists []. split; [reflexivity|apply step_ok_refl].
  - destruct H as [_ ->]. exists []. split; [reflexivity|apply step_ok_refl].
Qed.

Lemma match_at_sound r pos prev rest m :
  match_at ic r pos prev rest = Some m ->
  exists st', matches r (MState pos prev rest []) st'
              /\ m = RMatch pos (st_pos st') (st_caps st').
Proof.
  unfold match_at. destruct (run ic r (MState pos prev rest []) Some) as [st'|] eqn:E;
    [|discriminate].
  intros [= <-]. apply run_sound in E as (st1 & H1 & [= ->]).
  exists st'. auto.
Qed.

Lemma search_from_sound r rest :
  forall pos prev m,
    search_from ic r pos prev rest = Some m ->
    exists pre prev' rest',
      rest = pre ++ rest'
      /\ match_at ic r (pos + length pre) prev' rest' = Some m.
Proof.
  induction rest as [|c rest IH]; intros pos prev m H; cbn [search_from] in H.
  - destruct (match_at ic r pos prev []) as [m0|] eqn:E; [|discriminate].
    injection H as ->. exists [], prev, []. split; [reflexivity|].
    cbn [length]. rewrite Nat.add_0_r. exact E.
  - destruct (match_at ic r pos prev (c :: rest)) as [m0|] eqn:E.
    + injection H as ->. exists [], prev, (c :: rest). split; [reflexivity|].
      cbn [length]. rewrite Nat.add_0_r. exact E.
    + apply IH in H as (pre & prev' & rest' & -> & H).
      exists (c :: pre), prev', rest'. split; [reflexivity|].
      cbn [length]. replace (pos + S (length pre))%nat with (S pos + length pre)%nat by lia.
      exact H.
Qed.

(** A match found in [text]: the text before it and the text from it
    on. *)
Definition found_in (r : regex) (text : pystr) (m : rmatch) : Prop :=
  exists pre prev rest,
    text = pre ++ rest /\ match_at ic r (length pre) prev rest = Some m.

Lemma re_match_found r text m : re_match ic r text = Some m -> found_in r text m.
Proof. intros H. exists [], None, text. split; [reflexivity|exact H]. Qed.

Lemma re_search_found r text m : re_search ic r text = Some m -> found_in r text m.
Proof.
  unfold re_search. intros H.
  apply search_from_sound in H as (pre & prev' & rest' & -> & H).
  exists pre, prev', rest'. auto.
Qed.

Lemma finditer_from_found r text fuel :
  forall pos m, In m (finditer_from fuel ic r text pos) -> found_in r text m.
Proof.
  induction fuel as [|fuel IH]; intros pos m H; cbn [finditer_from] in H; [destruct H|].
  destruct (Nat.ltb_spec (length text) pos) as [|Hle]; [destruct H|].
  destruct (search_from ic r pos (prev_at text pos) (skipn pos text)) as [m0|] eqn:E;
    [|destruct H].
  destruct H as [<-|H]; [|eapply IH, H].
  apply search_from_sound in E as (pre & prev' & rest' & Hs & H).
  exists (firstn pos text ++ pre), prev', rest'. split.
  - rewrite <- app_assoc, <- Hs. symmetry. apply firstn_skipn.
  - rewrite length_app, length_firstn. replace (Nat.min pos (length text)) with pos by lia.
    exact H.
Qed.

Lemma re_finditer_found r text m : In m (re_finditer ic r text) -> found_in r text m.
Proof. apply finditer_from_found. Qed.

(** The text of a group of a match found in a text is empty, when no
    span was recorded for it, or a word of a body of the group. *)
Lemma group_of_found r text m g :
  found_in r text m ->
  group text m g = [] \/ exists body, In body (group_bodies r g) /\ lang body (group text m g).
Proof.
  intros (pre & prev & rest & -> & H).
  apply match_at_sound in H as (st' & Hm & ->).
  apply matches_spec in Hm as (w & _ & Hr & _ & new & Hc & Hsp).
  cbn [st_rest st_pos st_caps] in *. rewrite app_nil_r in Hc. subst new.
  unfold group. cbn [m_caps].
  destruct (List.find (fun p => (fst p =? g)%nat) (st_caps st')) as [[g' [s e]]|] eqn:E;
    [|left; reflexivity].
  apply List.find_some in E as [Hin Hg]. cbn [fst] in Hg. apply Nat.eqb_eq in Hg. subst g'.
  rewrite List.Forall_forall in Hsp. destruct (Hsp _ Hin) as (H1 & H2 & H3 & body & Hb & Hl).
  right. exists body. split; [exact Hb|].
  rewrite Hr, slice_app_r by lia. rewrite slice_app_l by lia. exact Hl.
Qed.

(** The words of a repeated character class. *)
Lemma lang_rep_class lo hi neg items w :
  lang (RRep lo hi (RSet neg items)) w ->
  Forall (fun x => set_matches ic neg items x = true) w
  /\ (lo <= length w)%nat /\ within (length w) hi.
Proof.
  cbn [lang]. intros (ws & -> & Hall & Hlo & Hhi).
  assert (H : Forall (fun x => set_matches ic neg items x = true) (concat ws)
              /\ length (concat ws) = length ws).
  { clear Hlo Hhi. induction Hall as [|w ws (x & -> & Hx) Hws [IH1 IH2]].
    - split; [constructor|reflexivity].
    - cbn [concat app length]. split; [constructor; assumption|]. rewrite IH2. reflexivity. }
  destruct H as [H1 H2]. rewrite H2. auto.
Qed.

End MatcherSoundness.

(* ===================================================================== *)
(** ** Every date the extractor returns is an ISO date *)
(* ===================================================================== *)

Lemma lang_cat ic r1 r2 w :
  lang ic (RCat r1 r2) w -> exists w1 w2, w = w1 ++ w2 /\ lang ic r1 w1 /\ lang ic r2 w2.
Proof. exact (fun H => H). Qed.

Lemma lang_chr ic c w : lang ic (RChr c) w -> exists x, w = [x] /\ item_matches ic (CLit c) x = true.
Proof. exact (fun H => H). Qed.

Lemma lang_digits ic lo hi w :
  lang ic (RRep lo (Some hi) (RSet false [CDigit false])) w ->
  digits w /\ (lo <= length w <= hi)%nat.
Proof.
  intros H. apply lang_rep_class in H as (Hall & Hlo & Hhi). cbn [within] in Hhi.
  split; [|lia]. eapply Forall_impl; [exact Hall|]. intros x Hx.
  unfold set_matches in Hx. cbn [existsb item_matches xorb] in Hx.
  destruct (is_digit x); [reflexivity|discriminate Hx].
Qed.

Lemma lit_matches c x : item_matches false (CLit c) x = true -> x = c.
Proof. cbn [item_matches]. apply N.eqb_eq. Qed.

(** A pattern in the goal or a hypothesis, compiled. *)
Ltac compiled p :=
  let v := eval vm_compute in p in
  replace p with v in * by (vm_compute; reflexivity).

(** The words of a concatenation of digit runs and literal
    characters, taken apart. *)
Ltac words :=
  repeat match goal with
         | H : lang _ (RCat _ _) _ |- _ =>
             apply lang_cat in H; destruct H as (? & ? & -> & ? & H)
         | H : lang _ (RRep _ (Some _) (RSet false [CDigit false])) _ |- _ =>
             apply lang_digits in H; destruct H as [? ?]
         | H : lang false (RChr _) _ |- _ =>
             apply lang_chr in H; destruct H as (? & -> & H); apply lit_matches in H; subst
         end.

Lemma split_char_aux_digits (w s cur : pystr) :
  digits w -> split_char_aux 47 (w ++ s) cur = split_char_aux 47 s (rev w ++ cur).
Proof.
  intros H. revert cur. induction H as [|c w Hc Hw IH]; intros cur; [reflexivity|].
  cbn [app rev]. rewrite split_slash_digit by exact Hc. rewrite IH, <- app_assoc.
  reflexivity.
Qed.

Lemma split_date (day month year : pystr) :
  digits day -> digits month -> digits year ->
  split_char 47 (day ++ [47] ++ month ++ [47] ++ year) = [day; month; year].
Proof.
  intros Hd Hm Hy. unfold split_char.
  rewrite split_char_aux_digits by exact Hd. cbn [app]. rewrite split_slash_slash.
  rewrite split_char_aux_digits by exact Hm. cbn [app]. rewrite split_slash_slash.
  rewrite <- (app_nil_r year) at 1. rewrite split_char_aux_digits by exact Hy.
  cbn [split_char_aux]. rewrite !app_nil_r, !rev_involutive. reflexivity.
Qed.

Lemma zfill_digits (w : pystr) :
  digits w -> (1 <= length w <= 2)%nat -> digits (zfill 2 w) /\ length (zfill 2 w) = 2%nat.
Proof.
  intros Hw Hl. unfold zfill.
  destruct w as [|a [|b [|c w]]]; cbn [length] in Hl; try lia; cbn [length Nat.sub repeat app].
  - split; [constructor; [reflexivity|exact Hw]|reflexivity].
  - split; [exact Hw|reflexivity].
Qed.

Section IsoDates.
Import DateExtractor.

(** [YYYY-MM-DD]: four digits, two and two, with hyphens between. *)
Definition is_iso_date (s : pystr) : bool :=
  match s with
  | [y1; y2; y3; y4; h1; m1; m2; h2; d1; d2] =>
      forallb is_digit [y1; y2; y3; y4; m1; m2; d1; d2] && (h1 =? 45) && (h2 =? 45)
  | _ => false
  end.

Definition iso_parts (s : pystr) : Prop :=
  exists year month day,
    digits year /\ digits month /\ digits day
    /\ length year = 4%nat /\ length month = 2%nat /\ length day = 2%nat
    /\ s = year ++ py "-" ++ month ++ py "-" ++ day.

Lemma iso_parts_is_iso s : iso_parts s -> is_iso_date s = true.
Proof.
  intros (year & month & day & Hy & Hm & Hd & Ly & Lm & Ld & ->).
  explicit year; explicit month; explicit day; split_digits; eval_py.
  cbn [app is_iso_date forallb].
  repeat match goal with H : is_digit _ = true |- _ => rewrite H; clear H end.
  reflexivity.
Qed.

Lemma iso_parts_fixed s : iso_parts s -> normalize_any s = Some s.
Proof.
  intros (year & month & day & Hy & Hm & Hd & Ly & Lm & Ld & ->).
  apply normalize_any_iso; assumption.
Qed.

Lemma py_int_nil : py_int [] = None.
Proof. reflexivity. Qed.

Lemma normalize_simple_iso text iso : normalize_simple text = Some iso -> iso_parts iso.
Proof.
  unfold normalize_simple.
  destruct (re_search false SIMPLE_DATE_PATTERN text) as [m|] eqn:E; [|discriminate].
  apply re_search_found in E.
  destruct (group_of_found false SIMPLE_DATE_PATTERN text m 1 E) as [->|(body & Hin & Hl)];
    [discriminate|].
  compiled SIMPLE_DATE_PATTERN. cbn [group_bodies Nat.eqb app In] in Hin.
  destruct Hin as [<-|[]]. words.
  match goal with
  | |- context [split_char 47 ?t] =>
      match goal with
      | Hd : digits ?day, Hm : digits ?month, Hy : digits ?year |- _ =>
          replace (split_char 47 t) with [day; month; year]
            by (symmetry; rewrite <- split_date by assumption; reflexivity)
      end
  end.
  match goal with
  | |- (if _is_valid_date ?d ?m ?y then _ else _) = _ -> _ =>
      destruct (_is_valid_date d m y); [|discriminate];
      intros [= <-];
      exists y, (zfill 2 m), (zfill 2 d)
  end.
  repeat match goal with
         | H : digits ?w, H' : (1 <= length ?w <= 2)%nat |- _ =>
             pose proof (zfill_digits w H H'); clear H'
         end.
  intuition lia.
Qed.

Lemma month_of_digits name month :
  month_of name = Some month -> digits month /\ length month = 2%nat.
Proof.
  unfold month_of. destruct (List.find _ MONTH_NAMES) as [p|] eqn:E; [|discriminate].
  intros [= <-]. apply List.find_some in E as [Hin _].
  unfold MONTH_NAMES in Hin. cbn [In] in Hin.
  repeat (destruct Hin as [<-|Hin]; [split; [repeat constructor|reflexivity]|]).
  destruct Hin.
Qed.

Lemma invalid_without_day month year : _is_valid_date [] month year = false.
Proof.
  unfold _is_valid_date. rewrite py_int_nil.
  destruct (py_int year); [|reflexivity]. destruct (py_int month); reflexivity.
Qed.

Lemma invalid_without_year day month : _is_valid_date day month [] = false.
Proof. unfold _is_valid_date. rewrite py_int_nil. reflexivity. Qed.

Lemma normalize_extended_iso text iso : normalize_extended text = Some iso -> iso_parts iso.
Proof.
  unfold normalize_extended.
  destruct (re_search true MONTH_DATE_PATTERN text) as [m|] eqn:E; [|discriminate].
  apply re_search_found in E.
  destruct (month_of _) as [month|] eqn:Em; [|discriminate].
  apply month_of_digits in Em as [Hm Lm].
  destruct (group_of_found true MONTH_DATE_PATTERN text m 1 E) as [->|(b1 & Hin1 & Hl1)];
    [rewrite invalid_without_day, andb_false_r; discriminate|].
  destruct (group_of_found true MONTH_DATE_PATTERN text m 3 E) as [->|(b3 & Hin3 & Hl3)];
    [rewrite invalid_without_year, andb_false_r; discriminate|].
  compiled MONTH_DATE_PATTERN. cbn [group_bodies Nat.eqb app In] in Hin1, Hin3.
  destruct Hin1 as [<-|[]]. destruct Hin3 as [<-|[]].
  apply lang_digits in Hl1 as [Hd Ld]. apply lang_digits in Hl3 as [Hy Ly].
  destruct (_ && _); [|discriminate]. intros [= <-].
  exists (group text m 3), month, (zfill 2 (group text m 1)).
  pose proof (zfill_digits _ Hd Ld). intuition lia.
Qed.

Lemma lstrip_head (s t : pystr) c : lstrip s = c :: t -> is_space c = false.
Proof.
  induction s as [|x s IH]; cbn [lstrip]; [discriminate|].
  destruct (is_space x) eqn:E; [exact IH|]. intros [= <- _]. exact E.
Qed.

Lemma strip_last (s w : pystr) c : strip s = w ++ [c] -> is_space c = false.
Proof.
  unfold strip, rstrip. intros H.
  apply (f_equal (@rev N)) in H. rewrite rev_involutive, rev_app_distr in H.
  cbn [rev app] in H. eapply lstrip_head, H.
Qed.

Lemma matches_cat_word ic r1 r2 st st' :
  matches ic (RCat r1 r2) st st' ->
  exists st1 w, lang ic r1 w /\ st_rest st = w ++ st_rest st1 /\ matches ic r2 st1 st'.
Proof.
  intros (st1 & H1 & H2). apply matches_spec in H1 as (w & Hw & Hr & _).
  exists st1, w. auto.
Qed.

Lemma iso_match_parts text m :
  re_match false ISO_DATE_PATTERN (strip text) = Some m -> iso_parts (strip text).
Proof.
  remember (strip text) as s eqn:Es. intros H.
  apply match_at_sound in H as (st' & H & _).
  compiled ISO_DATE_PATTERN.
  repeat match goal with
         | H : matches _ (RCat _ _) _ _ |- _ =>
             apply matches_cat_word in H; destruct H as (? & ? & ? & ? & H)
         end.
  destruct H as [Heol ->].
  repeat match goal with
         | H : st_rest _ = _ |- _ => cbn [st_rest] in H; rewrite H in *; clear H
         end.
  repeat match goal with
         | H : lang false RBol _ |- _ => cbn [lang] in H; subst
         | H : lang _ (RRep _ (Some _) (RSet false [CDigit false])) _ |- _ =>
             apply lang_digits in H; destruct H as [? ?]
         | H : lang false (RChr _) _ |- _ =>
             apply lang_chr in H; destruct H as (? & -> & H); apply lit_matches in H; subst
         end.
  lazymatch goal with
  | H : [] ++ ?y ++ [45] ++ ?mo ++ [45] ++ ?d ++ st_rest ?st = strip text |- _ =>
      rename H into Hs; set (year := y) in *; set (month := mo) in *; set (day := d) in *;
      destruct (st_rest st) as [|c [|c2 rest]]
  end; cbn [eol_ok] in Heol; try discriminate Heol.
  - exists year, month, day. eval_py. cbn [app]. rewrite app_nil_r.
    repeat split; try assumption; lia.
  - apply N.eqb_eq in Heol. subst c. exfalso.
    assert (Hsp : is_space 10 = false); [|discriminate Hsp].
    apply (strip_last text (year ++ [45] ++ month ++ [45] ++ day)).
    rewrite <- Hs. cbn [app]. repeat (rewrite <- app_assoc; cbn [app]). reflexivity.
Qed.

Lemma normalize_any_iso_parts text iso : normalize_any text = Some iso -> iso_parts iso.
Proof.
  unfold normalize_any. destruct text as [|c t]; [discriminate|].
  destruct (re_match false ISO_DATE_PATTERN (strip (c :: t))) as [m|] eqn:E.
  - intros [= <-]. eapply iso_match_parts, E.
  - destruct (normalize_simple (strip (c :: t))) as [d|] eqn:Es.
    + intros [= <-]. eapply normalize_simple_iso, Es.
    + apply normalize_extended_iso.
Qed.

(** X22: a date [normalize_any] returns has the form [YYYY-MM-DD],
    four digits, two and two, and [normalize_any] returns it unchanged
    when it is given it. *)
Theorem X22_normalized_date_is_iso (text iso : pystr) :
  normalize_any text = Some iso ->
  is_iso_date iso = true /\ normalize_any iso = Some iso.
Proof.
  intros H. apply normalize_any_iso_parts in H.
  split; [apply iso_parts_is_iso, H|apply iso_parts_fixed, H].
Qed.

Lemma X22_witness :
  is_iso_date (py "2021-03-05") = true
  /\ normalize_any (py "2021-03-05") = Some (py "2021-03-05").
Proof.
  apply (X22_normalized_date_is_iso (py "assinado em 5/3/2021 ")).
  vm_compute. reflexivity.
Defined.

Lemma first_date_date text matches d :
  first_date text matches = Some d -> exists s, normalize_any s = Some d.
Proof.
  induction matches as [|m rest IH]; cbn [first_date]; [discriminate|].
  destruct (truthy_str (normalize_any (group text m 1))); [|exact IH].
  intros H. eexists. exact H.
Qed.

Lemma scan_patterns_date text patterns d :
  scan_patterns text patterns = Some d -> exists s, normalize_any s = Some d.
Proof.
  induction patterns as [|p rest IH]; cbn [scan_patterns]; [discriminate|].
  destruct (first_date text (re_finditer false p text)) as [d0|] eqn:E; [|exact IH].
  intros [= <-]. eapply first_date_date, E.
Qed.

Lemma collect_dates text date_of matches :
  Forall (fun c => exists s, normalize_any s = Some (cand_date c))
    (collect text date_of matches).
Proof.
  induction matches as [|m rest IH]; cbn [collect]; [constructor|].
  destruct (normalize_any (date_of m)) as [n|] eqn:E; [|exact IH].
  destruct (negb (truthy_str (Some n))); [exact IH|].
  destruct (_is_date_in_law_context text (date_of m)); [exact IH|].
  constructor; [|exact IH]. exists (date_of m). exact E.
Qed.

Lemma insert_desc_in {A} (key : A -> nat) (x y : A) (l : list A) :
  In y (insert_desc key x l) -> y = x \/ In y l.
Proof.
  induction l as [|z l IH]; cbn [insert_desc].
  - intros [<-|[]]. left. reflexivity.
  - destruct (key z <=? key x)%nat.
    + intros [<-|H]; [left; reflexivity|right; exact H].
    + intros [<-|H]; [right; left; reflexivity|].
      destruct (IH H) as [->|H']; [left; reflexivity|right; right; exact H'].
Qed.

Lemma sort_desc_in {A} (key : A -> nat) (y : A) (l : list A) :
  In y (sort_desc key l) -> In y l.
Proof.
  induction l as [|x l IH]; cbn [sort_desc]; [intros []|].
  intros H. apply insert_desc_in in H as [->|H]; [left; reflexivity|right; apply IH, H].
Qed.

(** X23: the signature date that level 0 finds, and the one the
    search by proximity finds, has the form [YYYY-MM-DD] and is a
    date that [normalize_any] leaves unchanged. *)
Theorem X23_signature_dates_are_iso (ocr_text iso : pystr) :
  extract_signature_date_level_0 ocr_text = Some iso
  \/ find_signature_date_by_proximity ocr_text = Some iso ->
  is_iso_date iso = true /\ normalize_any iso = Some iso.
Proof.
  intros H.
  assert (Hn : exists s, normalize_any s = Some iso).
  { destruct H as [H|H].
    - unfold extract_signature_date_level_0 in H.
      destruct ocr_text as [|c t]; [discriminate|].
      eapply scan_patterns_date, H.
    - unfold find_signature_date_by_proximity in H.
      destruct ocr_text as [|c t]; [discriminate|].
      destruct (sort_desc cand_score (dates_found (nfkd (c :: t)))) as [|best l] eqn:E;
        [discriminate|].
      injection H as <-.
      assert (Hin : In best (dates_found (nfkd (c :: t))))
        by (apply (sort_desc_in cand_score); rewrite E; left; reflexivity).
      unfold dates_found in Hin. apply in_app_or in Hin.
      destruct Hin as [Hin|Hin];
        eapply List.Forall_forall in Hin; try apply collect_dates; exact Hin. }
  destruct Hn as (s & Hs). apply normalize_any_iso_parts in Hs.
  split; [apply iso_parts_is_iso, Hs|apply iso_parts_fixed, Hs].
Qed.

Lemma X23_witness : is_iso_date (py "2023-03-10") = true.
Proof.
  apply (X23_signature_dates_are_iso (py "Firmado em 10/03/2023 pelos sócios")).
  left. vm_compute. reflexivity.
Defined.

End IsoDates.

(* ===================================================================== *)
(** ** The representatives from the model's answer to the final record *)
(* ===================================================================== *)

Section ParsedRepresentatives.
Import RepresentativeExtractor.

(** The record has no key but the ten fields. *)
Definition known_keys (r : rep) : Prop :=
  forall key, is_Some (r !! key) -> In key all_fields.

Lemma known_keys_insert (r : rep) key value :
  In key all_fields -> known_keys r -> known_keys (<[key := value]> r).
Proof.
  intros Hin Hr k Hk. destruct (decide (key = k)) as [<-|Hne]; [exact Hin|].
  rewrite lookup_insert_ne in Hk by exact Hne. apply Hr, Hk.
Qed.

Lemma known_keys_empty : known_keys ∅.
Proof. intros k Hk. rewrite lookup_empty in Hk. destruct Hk as [? [=]]. Qed.

Lemma update_with_keys mappings line r :
  (forall p, In p mappings -> In (snd p) all_fields) ->
  known_keys r -> known_keys (update_with mappings line r).
Proof.
  induction mappings as [|[prefix field_key] rest IH]; intros Hm Hr; cbn [update_with];
    [exact Hr|].
  destruct (startswith line prefix).
  - apply known_keys_insert; [apply (Hm (prefix, field_key)); left; reflexivity|exact Hr].
  - apply IH; [intros p Hp; apply Hm; right; exact Hp|exact Hr].
Qed.

Lemma update_field_keys line r :
  known_keys r -> known_keys (_update_representative_field line r).
Proof.
  apply update_with_keys. unfold field_mappings, all_fields. cbn [In].
  intros p Hp.
  repeat (destruct Hp as [<-|Hp]; [cbn [snd]; tauto|]). destruct Hp.
Qed.

Definition current_known (current_rep : option rep) : Prop :=
  match current_rep with
  | Some r => known_keys r
  | None => True
  end.

Lemma append_current_keys representatives current_rep :
  Forall known_keys representatives -> current_known current_rep ->
  Forall known_keys (append_current representatives current_rep).
Proof.
  intros Hr Hc. unfold append_current. destruct current_rep as [r|]; [|exact Hr].
  case_bool_decide; [exact Hr|]. apply Forall_app. split; [exact Hr|].
  constructor; [exact Hc|constructor].
Qed.

Lemma parse_lines_keys lines :
  forall representatives current_rep,
    Forall known_keys representatives -> current_known current_rep ->
    Forall known_keys (fst (parse_lines lines representatives current_rep))
    /\ current_known (snd (parse_lines lines representatives current_rep)).
Proof.
  induction lines as [|raw rest IH]; intros representatives current_rep Hr Hc;
    cbn [parse_lines]; [split; assumption|].
  destruct (strip raw) as [|c line] eqn:E; [apply IH; assumption|].
  destruct (startswith (c :: line) (py "Representante ")).
  - apply IH; [apply append_current_keys; assumption|apply known_keys_empty].
  - destruct current_rep as [r|]; apply IH; try assumption.
    apply update_field_keys, Hc.
Qed.

Lemma fill_fields_keys r : known_keys r -> known_keys (fill_fields r).
Proof.
  unfold fill_fields.
  assert (H : forall fields r,
             (forall f, In f fields -> In f all_fields) ->
             known_keys r -> known_keys (fold_left fill_field fields r)).
  { induction fields as [|f fields IH]; intros r0 Hf Hr0; cbn [fold_left]; [exact Hr0|].
    apply IH; [intros g Hg; apply Hf; right; exact Hg|].
    unfold fill_field. destruct (falsy_field r0 f); [|exact Hr0].
    apply known_keys_insert; [apply Hf; left; reflexivity|exact Hr0]. }
  apply H. auto.
Qed.

(** What holds of each record that [validate_and_filter] returns. *)
Definition valid_record (r : rep) : Prop :=
  filled r /\ is_procurador r = false /\ usable_name r = true.

Lemma validate_and_filter_valid representatives :
  Forall valid_record (validate_and_filter representatives).
Proof.
  rewrite validate_and_filter_eq.
  pose proof (dedup_usable ∅ (filtered_representatives representatives)) as Hu.
  pose proof (sublist_forall _ _ _ (dedup_sublist ∅ (filtered_representatives representatives))
                (filtered_representatives_ok representatives)) as Hf.
  apply List.Forall_forall. intros r Hr.
  rewrite List.Forall_forall in Hu, Hf.
  destruct (Hf r Hr) as [H1 H2]. split; [exact H1|]. split; [exact H2|apply Hu, Hr].
Qed.

Lemma validate_and_filter_keys representatives :
  Forall known_keys representatives ->
  Forall known_keys (validate_and_filter representatives).
Proof.
  intros H. rewrite validate_and_filter_eq.
  eapply sublist_forall; [apply dedup_sublist|].
  eapply sublist_forall; [apply filter_sublist|].
  apply List.Forall_forall. intros r Hr.
  apply List.in_map_iff in Hr as (r0 & <- & Hr0).
  rewrite List.Forall_forall in H. apply fill_fields_keys, H, Hr0.
Qed.

Lemma extract_detailed_eq lines :
  exists representatives,
    Forall known_keys representatives
    /\ extract_detailed_representatives lines = validate_and_filter representatives.
Proof.
  unfold extract_detailed_representatives.
  destruct (_find_representatives_section_start lines) as [start_index|].
  - unfold _parse_representatives_data.
    pose proof (parse_lines_keys (skipn start_index lines) [] None
                  (List.Forall_nil _) I) as [H1 H2].
    destruct (parse_lines (skipn start_index lines) [] None) as [representatives current].
    cbn [fst snd] in *. exists (append_current representatives current).
    split; [apply append_current_keys; assumption|reflexivity].
  - exists []. split; [constructor|reflexivity].
Qed.

(** X24: every record that [extract_detailed_representatives] reads
    from the lines of the answer has exactly the ten keys of a
    representative, each with a non-empty string; it has a name that
    is not the sentinel and a post without an attorney keyword; and
    the upper-cased, stripped names of the records are pairwise
    distinct. *)
Theorem X24_parsed_records_have_ten_fields (lines : list pystr) :
  Forall (fun r => (forall key, is_Some (r !! key) <-> In key all_fields)
                   /\ filled r /\ is_procurador r = false /\ usable_name r = true)
    (extract_detailed_representatives lines)
  /\ NoDup (map name_key (extract_detailed_representatives lines)).
Proof.
  destruct (extract_detailed_eq lines) as (representatives & Hk & ->).
  split.
  - pose proof (validate_and_filter_valid representatives) as Hv.
    pose proof (validate_and_filter_keys representatives Hk) as Hk'.
    apply List.Forall_forall. intros r Hr.
    rewrite List.Forall_forall in Hv, Hk'.
    destruct (Hv r Hr) as (Hf & Hp & Hu).
    split; [|auto]. intros key. split; [apply Hk', Hr|].
    intros Hin. unfold filled in Hf. rewrite List.Forall_forall in Hf.
    specialize (Hf key Hin). unfold falsy_field in Hf.
    destruct (r !! key) as [v|]; [eexists; reflexivity|discriminate Hf].
  - rewrite validate_and_filter_eq. apply dedup_keys.
Qed.

End ParsedRepresentatives.

Section RepresentativesPipeline.
Import RepresentativeExtractor ResponseBuilder CoreProcessor.

Lemma has_name_usable r : has_name r = usable_name r.
Proof.
  unfold has_name, usable_name, falsy_field, get_or_empty,
    RepresentativeExtractor.DATA_NOT_AVAILABLE.
  generalize (py "Dado não disponível no documento"). intros sentinel.
  destruct (r !! "nome") as [[|c s]|]; reflexivity.
Qed.

Lemma calculate_count_valid representatives :
  Forall valid_record representatives ->
  calculate_count representatives = length representatives.
Proof.
  intros H. unfold calculate_count. destruct representatives as [|r l]; [reflexivity|].
  rewrite count_valid_usable; [reflexivity|].
  eapply Forall_impl; [exact H|]. intros x (_ & _ & Hx). exact Hx.
Qed.

(** The four keys that [_process_representatives] writes. *)
Definition representative_keys : list string :=
  [ "representantes_detalhados"; "quantidade_representantes";
    "poderes_e_representacao"; "representantes_legais" ].

Lemma process_representatives_spec gemini_response data_out :
  let representatives := extract_detailed_representatives (split_char 10 gemini_response) in
  let d := _process_representatives gemini_response data_out in
  d !! "representantes_detalhados" = Some (VReps representatives)
  /\ d !! "quantidade_representantes" = Some (VInt (Z.of_nat (length representatives)))
  /\ d !! "representantes_legais"
     = Some (VStr (join [10] (map (fun r => get_or_empty r "nome") representatives)))
  /\ d !! "poderes_e_representacao"
     = Some (VStr (GeminiResponseProcessor.consolidate_poderes_representacao
                     representatives))
  /\ (forall key, ~ In key representative_keys -> d !! key = data_out !! key).
Proof.
  cbn zeta. unfold _process_representatives.
  set (representatives := extract_detailed_representatives (split_char 10 gemini_response)).
  assert (Hv : Forall valid_record representatives).
  { unfold representatives.
    destruct (extract_detailed_eq (split_char 10 gemini_response)) as (l & _ & ->).
    apply validate_and_filter_valid. }
  rewrite (calculate_count_valid _ Hv).
  rewrite (filter_all_id has_name representatives)
    by (eapply Forall_impl; [exact Hv|]; intros x (_ & _ & Hx);
        rewrite has_name_usable; exact Hx).
  split; [|split; [|split; [|split]]].
  - rewrite !lookup_insert_ne by discriminate. apply lookup_insert_eq.
  - rewrite !lookup_insert_ne by discriminate. apply lookup_insert_eq.
  - apply lookup_insert_eq.
  - rewrite lookup_insert_ne by discriminate. apply lookup_insert_eq.
  - intros key Hk. unfold representative_keys in Hk. cbn [In] in Hk.
    rewrite !lookup_insert_ne by (intros <-; tauto). reflexivity.
Qed.

(** X25: after [_process_representatives] the record holds the
    records read from the answer, their number as the quantity, their
    names, one per line, as the legal representatives, and the
    consolidated powers; every other key is as it was. *)
Theorem X25_quantity_is_number_of_records (gemini_response : pystr) (data_out : pydict) :
  let representatives := extract_detailed_representatives (split_char 10 gemini_response) in
  let d := _process_representatives gemini_response data_out in
  d !! "representantes_detalhados" = Some (VReps representatives)
  /\ d !! "quantidade_representantes" = Some (VInt (Z.of_nat (length representatives)))
  /\ d !! "representantes_legais"
     = Some (VStr (join [10] (map (fun r => get_or_empty r "nome") representatives)))
  /\ d !! "poderes_e_representacao"
     = Some (VStr (GeminiResponseProcessor.consolidate_poderes_representacao
                     representatives))
  /\ (forall key, ~ In key representative_keys -> d !! key = data_out !! key).
Proof. apply process_representatives_spec. Qed.

End RepresentativesPipeline.
